(** * langgraph-callback-checkpointer: the CallbackSaver adapter

    A shallow embedding of [src/saver.ts] and [src/types.ts] (the
    [CallbackSaver] class, its configuration and its error type) together
    with the part of the JavaScript runtime the class relies on: values,
    [String(value)], [JSON.stringify] and [JSON.parse].

    Asynchronous methods are embedded as computations over an explicit
    world (the backend's store and the clock) that return an outcome, the
    new world and the trace of backend callbacks they invoked (and, for
    the generator [list], of the tuples they yielded). *)

From Stdlib Require Import String Ascii List ZArith NArith Lia Bool.
Import ListNotations.

Local Open Scope string_scope.
Local Open Scope list_scope.

(* ================================================================== *)
(** * JavaScript values and errors *)
(* ================================================================== *)

Module JS.

Local Open Scope Z_scope.

(** A string is a sequence of 16-bit code units. *)
Definition JsString : Type := list N.

(** The code units of a text of 8-bit characters. *)
Definition str (s : string) : JsString :=
  List.map N_of_ascii (list_ascii_of_string s).

(** [c] is the character [a]. *)
Definition is_char (c : N) (a : ascii) : bool := N.eqb c (N_of_ascii a).

Definition is_code_unit (c : N) : bool := (c <? 65536)%N.
Definition well_formed (s : JsString) : bool := forallb is_code_unit s.

Fixpoint eqb (a b : JsString) : bool :=
  match a, b with
  | [], [] => true
  | x :: a', y :: b' => N.eqb x y && eqb a' b'
  | _, _ => false
  end.

(** ** Numbers: IEEE 754 binary64 *)

(** A finite number is [m * 2^e]; the sign is kept apart, so that there
    are two zeros. *)
Inductive Number : Type :=
| NaN
| Infinity (negative : bool)
| Finite (negative : bool) (m e : Z).

(** The finite numbers of the format, each written in one way: 53 bits
    of mantissa, the exponent from -1074 to 971, and a mantissa below
    [2^52] only at the least exponent (the subnormal numbers and zero). *)
Definition is_double (x : Number) : bool :=
  match x with
  | Finite _ m e =>
      (0 <=? m) && (m <? 2 ^ 53) && (-1074 <=? e) && (e <=? 971)
      && ((2 ^ 52 <=? m) || (e =? -1074))
  | _ => true
  end.

Definition is_finite (x : Number) : bool :=
  match x with Finite _ _ _ => true | _ => false end.

Definition is_negative_zero (x : Number) : bool :=
  match x with Finite true 0 _ => true | _ => false end.

Definition number_eqb (x y : Number) : bool :=
  match x, y with
  | NaN, NaN => true
  | Infinity a, Infinity b => Bool.eqb a b
  | Finite a m e, Finite b m' e' => Bool.eqb a b && (m =? m') && (e =? e')
  | _, _ => false
  end.

(** The number nearest to [p / q] (for [0 <= p], [0 < q]), a tie going
    to the even mantissa: the quotient is taken in units of [2^-1074],
    the least positive number, and cut to 53 bits. *)
Definition round_ratio (negative : bool) (p q : Z) : Number :=
  let scaled := p * 2 ^ 1074 in
  let n := scaled / q in
  let r := scaled mod q in
  let bits := if n =? 0 then 0 else Z.log2 n + 1 in
  let sh := Z.max 0 (bits - 53) in
  let m := n / 2 ^ sh in
  let low := n mod 2 ^ sh in
  let up :=
    match 2 * (low * q + r) ?= 2 ^ sh * q with
    | Gt => true
    | Eq => Z.odd m
    | Lt => false
    end in
  let m1 := if up then m + 1 else m in
  let (m2, e2) := if m1 =? 2 ^ 53 then (2 ^ 52, sh + 1 - 1074)
                  else (m1, sh - 1074) in
  if 971 <? e2 then Infinity negative else Finite negative m2 e2.

(** The number nearest to [d * 10^x]. *)
Definition round_decimal (negative : bool) (d x : Z) : Number :=
  if 0 <=? x then round_ratio negative (d * 10 ^ x) 1
  else round_ratio negative d (10 ^ (- x)).

(** The number with its sign replaced. *)
Definition with_sign (negative : bool) (x : Number) : Number :=
  match x with
  | NaN => NaN
  | Infinity _ => Infinity negative
  | Finite _ m e => Finite negative m e
  end.

(** The number an integer denotes. *)
Definition of_Z (z : Z) : Number := round_decimal (z <? 0) (Z.abs z) 0.

(** ** Decimal digits *)

Fixpoint digits_from (fuel : nat) (n : Z) : list Z :=
  match fuel with
  | O => []
  | S fuel' =>
      if n <? 10 then [n] else digits_from fuel' (n / 10) ++ [n mod 10]
  end.

(** The decimal digits of [n >= 0], the most significant first. *)
Definition digits (n : Z) : list Z := digits_from (S (Z.to_nat (Z.log2 n))) n.

(** The integer a list of digits denotes. *)
Definition value (ds : list Z) : Z := fold_left (fun acc d => 10 * acc + d) ds 0.

Definition digit (d : Z) : Prop := 0 <= d <= 9.

Definition digit_char (d : Z) : N := (48 + Z.to_N d)%N.

Definition digits_text (n : Z) : JsString := List.map digit_char (digits n).

(** The decimal text of an integer, as [BigInt.prototype.toString]
    gives it. *)
Definition digits_of_Z (n : Z) : JsString :=
  if n <? 0 then (str "-" ++ digits_text (- n))%list else digits_text n.

(** ** Number::toString *)

(** [m * 2^e] as a ratio of integers. *)
Definition ratio (m e : Z) : Z * Z :=
  if 0 <=? e then (m * 2 ^ e, 1) else (m, 2 ^ (- e)).

Definition decimal_length (n : Z) : Z := Z.of_nat (length (digits n)).

(** [10^k <= p / q] *)
Definition at_least_pow10 (p q k : Z) : bool :=
  if 0 <=? k then q * 10 ^ k <=? p else q <=? p * 10 ^ (- k).

(** The [n] with [10^(n-1) <= p / q < 10^n]. *)
Definition position (p q : Z) : Z :=
  let n0 := decimal_length p - decimal_length q in
  if at_least_pow10 p q n0 then n0 + 1 else n0.

(** The decimal [m * 2^e] is, digit for digit. *)
Definition exact_decimal (m e : Z) : Z * Z :=
  if 0 <=? e then (m * 2 ^ e, 0) else (m * 5 ^ (- e), e).

(** [s * 10^j] reads back as [m * 2^e]. *)
Definition reads_as (m e : Z) (sj : Z * Z) : bool :=
  (0 <? fst sj) && number_eqb (round_decimal false (fst sj) (snd sj))
                              (Finite false m e).

(** The decimals of [k] digits nearest to [m * 2^e] from below and from
    above, and the one of them that reads back as the number and is the
    nearer (the even one if they are as near). *)
Definition nearest (m e k : Z) : option (Z * Z) :=
  let (p, q) := ratio m e in
  let j := position p q - k in
  let num := if 0 <=? j then p else p * 10 ^ (- j) in
  let den := if 0 <=? j then q * 10 ^ j else q in
  let lo := num / den in
  let rem := num mod den in
  let below := (lo, j) in
  let above := if lo + 1 =? 10 ^ k then (1, j + k) else (lo + 1, j) in
  match reads_as m e below, reads_as m e above with
  | true, true =>
      match 2 * rem ?= den with
      | Lt => Some below
      | Gt => Some above
      | Eq => if Z.even lo then Some below else Some above
      end
  | true, false => Some below
  | false, true => Some above
  | false, false => None
  end.

(** The shortest decimal that reads back as [m * 2^e]: the first number
    of digits for which there is one.  Seventeen digits are always
    enough; the exact decimal stands behind them. *)
Fixpoint shortest_from (fuel : nat) (m e k : Z) : Z * Z :=
  match fuel with
  | O => exact_decimal m e
  | S fuel' =>
      match nearest m e k with
      | Some sj => sj
      | None => shortest_from fuel' m e (k + 1)
      end
  end.

Definition shortest (m e : Z) : Z * Z := shortest_from 17 m e 1.

Definition zeros (n : Z) : JsString := repeat 48%N (Z.to_nat n).

(** The text of the decimal with digits [ds] and [n] of them before the
    point: steps 6 to 10 of Number::toString. *)
Definition decimal_text (ds : list Z) (n : Z) : JsString :=
  let k := Z.of_nat (length ds) in
  let chars := List.map digit_char ds in
  if (k <=? n) && (n <=? 21) then chars ++ zeros (n - k)
  else if (0 <? n) && (n <=? 21) then
    firstn (Z.to_nat n) chars ++ str "." ++ skipn (Z.to_nat n) chars
  else if (-6 <? n) && (n <=? 0) then str "0." ++ zeros (- n) ++ chars
  else
    let exponent :=
      str "e" ++ (if n - 1 <? 0 then str "-" else str "+")
      ++ digits_text (Z.abs (n - 1)) in
    match chars with
    | [] => []
    | [c] => c :: exponent
    | c :: rest => c :: str "." ++ rest ++ exponent
    end.

(** Number::toString, radix 10. *)
Definition number_to_string (x : Number) : JsString :=
  match x with
  | NaN => str "NaN"
  | Infinity negative =>
      if negative then str "-Infinity" else str "Infinity"
  | Finite _ 0 _ => str "0"
  | Finite negative m e =>
      let (s, j) := shortest m e in
      let ds := digits s in
      (if negative then str "-" else []) ++ decimal_text ds (j + Z.of_nat (length ds))
  end.

(** ** Reading digits *)

Definition digit_of (c : N) : option Z :=
  if ((48 <=? c) && (c <=? 57))%N then Some (Z.of_N c - 48) else None.

(** The longest run of decimal digits at the head of [s]. *)
Fixpoint lex_digits (s : JsString) : list Z * JsString :=
  match s with
  | [] => ([], [])
  | c :: s' =>
      match digit_of c with
      | Some d => let (ds, r) := lex_digits s' in (d :: ds, r)
      | None => ([], s)
      end
  end.

(** ** Errors and values *)

(** An instance of [Error] (or of a subclass): its [name], its [message]
    and, for [CallbackSaverError], the optional [cause]. *)
#[local] Unset Elimination Schemes.
Inductive JsError : Type :=
| MkError (name : string) (message : JsString) (cause : option JsError).
#[local] Set Elimination Schemes.

Definition name (e : JsError) : string :=
  match e with MkError n _ _ => n end.
Definition message (e : JsError) : JsString :=
  match e with MkError _ m _ => m end.
Definition cause (e : JsError) : option JsError :=
  match e with MkError _ _ c => c end.

(** [new Error(msg)] and [new TypeError(msg)]. *)
Definition Error (msg : string) : JsError := MkError "Error" (str msg) None.
Definition TypeError (msg : string) : JsError :=
  MkError "TypeError" (str msg) None.

(** What a call to a function does: it returns a value, or throws an
    [Error] instance or any other value.  A function is modelled by what
    a call to it does, whatever [this] and the arguments are. *)
Inductive Called (V : Type) : Type :=
| Returns (v : V)
| ThrowsError (e : JsError)
| Throws (v : V).
Arguments Returns {V} v.
Arguments ThrowsError {V} e.
Arguments Throws {V} v.

(** The values a pending write or a checkpoint body can hold.  The
    properties of an object are its own enumerable string-keyed ones, in
    enumeration order; its prototype is [Object.prototype].  A function
    carries its source text and what a call to it does.  A cyclic
    structure is a tree with back references: [VRef k] points at the
    [k]-th enclosing array or object. *)
#[local] Unset Elimination Schemes.
Inductive JsValue : Type :=
| VUndefined
| VNull
| VBool (b : bool)
| VNum (x : Number)
| VBigInt (n : Z)
| VStr (s : JsString)
| VSymbol (description : JsString)
| VFunction (source : JsString) (call : Called JsValue)
| VArr (items : list JsValue)
| VObj (props : list (JsString * JsValue))
| VRef (up : nat).
#[local] Set Elimination Schemes.

(** Anything can be thrown, or be the reason of a rejected promise: an
    [Error] instance or any other value. *)
Inductive Thrown : Type :=
| ThrownError (e : JsError)
| ThrownValue (v : JsValue).

(** [typeof value === 'string'] *)
Definition is_string (v : JsValue) : bool :=
  match v with VStr _ => true | _ => false end.

(** The type of the value is Object. *)
Definition is_object (v : JsValue) : bool :=
  match v with
  | VFunction _ _ | VArr _ | VObj _ | VRef _ => true
  | _ => false
  end.

Fixpoint join (sep : JsString) (parts : list JsString) : JsString :=
  match parts with
  | [] => []
  | [p] => p
  | p :: rest => p ++ sep ++ join sep rest
  end.

(** The first throw of a list of results, or all the strings. *)
Fixpoint collect (rs : list (Thrown + JsString)) : Thrown + list JsString :=
  match rs with
  | [] => inr []
  | inl e :: _ => inl e
  | inr t :: rs' =>
      match collect rs' with
      | inl e => inl e
      | inr ts => inr (t :: ts)
      end
  end.

(** What getting a method of an object and calling it gives. *)
Inductive Method : Type :=
| NotCallable
| GavePrimitive (text : Thrown + JsString)
| GaveObject
| Raised (reason : Thrown).

Fixpoint lookup {A : Type} (key : JsString) (entries : list (JsString * A))
  : option A :=
  match entries with
  | [] => None
  | (k, a) :: rest => if eqb key k then Some a else lookup key rest
  end.

(** OrdinaryToPrimitive with hint String, followed by ToString of the
    primitive.  An object without a [toString] of its own inherits
    [Object.prototype.toString]; [Object.prototype.valueOf] returns the
    object itself, which is no primitive. *)
Definition ordinary_to_string (methods : list (JsString * Method))
  : Thrown + JsString :=
  let no_primitive :=
    inl (ThrownError (TypeError "Cannot convert object to primitive value")) in
  let valueOf :=
    match lookup (str "valueOf") methods with
    | Some (GavePrimitive text) => text
    | Some (Raised reason) => inl reason
    | Some NotCallable | Some GaveObject | None => no_primitive
    end in
  match lookup (str "toString") methods with
  | None => inr (str "[object Object]")
  | Some (GavePrimitive text) => text
  | Some (Raised reason) => inl reason
  | Some NotCallable | Some GaveObject => valueOf
  end.

(** The abstract operation ToString.  It throws on a symbol.  An array
    is joined with commas, [undefined], [null] and an array met again on
    the way down giving the empty string and every other element going
    through ToString in turn; an object goes through its [toString] and
    [valueOf]; a function gives its source text. *)
Fixpoint ToString (v : JsValue) : Thrown + JsString :=
  match v with
  | VUndefined => inr (str "undefined")
  | VNull => inr (str "null")
  | VBool true => inr (str "true")
  | VBool false => inr (str "false")
  | VNum x => inr (number_to_string x)
  | VBigInt n => inr (digits_of_Z n)
  | VStr s => inr s
  | VSymbol _ =>
      inl (ThrownError (TypeError "Cannot convert a Symbol value to a string"))
  | VFunction source _ => inr source
  | VArr items =>
      match collect (List.map (fun x => match x with
                                        | VUndefined | VNull | VRef _ => inr []
                                        | _ => ToString x
                                        end) items) with
      | inl e => inl e
      | inr ts => inr (join (str ",") ts)
      end
  | VObj props =>
      ordinary_to_string
        (List.map (fun '(k, x) =>
                     (k, match x with
                         | VFunction _ (Returns r) =>
                             if is_object r then GaveObject
                             else GavePrimitive (ToString r)
                         | VFunction _ (ThrowsError e) => Raised (ThrownError e)
                         | VFunction _ (Throws t) => Raised (ThrownValue t)
                         | _ => NotCallable
                         end)) props)
  | VRef _ => inr (str "[object Object]")
  end.

(** [String(value)]: ToString, but for a symbol, which it describes. *)
Definition StringOf (v : JsValue) : Thrown + JsString :=
  match v with
  | VSymbol d => inr (str "Symbol(" ++ d ++ str ")")
  | _ => ToString v
  end.

(** JavaScript truthiness of an optional string: [undefined] and the empty
    string are falsy.  The result is the string when it is truthy. *)
Definition truthy (s : option string) : option string :=
  match s with
  | Some EmptyString => None
  | Some t => Some t
  | None => None
  end.

Definition is_truthy (s : option string) : bool :=
  match truthy s with Some _ => true | None => false end.

(** [a || b] on optional strings. *)
Definition or (a b : option string) : option string :=
  if is_truthy a then a else b.

(** [a || 'literal'] *)
Definition or_lit (a : option string) (d : string) : string :=
  match truthy a with Some t => t | None => d end.

(** [a || b] on optional numbers: [undefined] and [0] are falsy. *)
Definition or_num (a b : option Z) : option Z :=
  match a with
  | Some 0%Z | None => b
  | Some _ => a
  end.


End JS.

Import JS.

(* ================================================================== *)
(** * The runtime's JSON object *)
(* ================================================================== *)

Module JSON.

Local Open Scope Z_scope.

Definition hex_digit (n : N) : N := (if n <? 10 then 48 + n else 87 + n)%N.

(** [\uXXXX], in lower case as [JSON.stringify] writes it. *)
Definition unicode_escape (c : N) : JsString :=
  [92; 117; hex_digit (c / 4096); hex_digit (c / 256 mod 16);
   hex_digit (c / 16 mod 16); hex_digit (c mod 16)]%N.

(** The leading and the trailing half of a surrogate pair. *)
Definition is_high (c : N) : bool := ((55296 <=? c) && (c <=? 56319))%N.
Definition is_low (c : N) : bool := ((56320 <=? c) && (c <=? 57343))%N.

(** One code unit that is no surrogate: the short escapes for the quote
    (34), the backslash (92), backspace, tab, line feed, form feed and
    carriage return; [\u00XX] for the other control characters; anything
    else as it is. *)
Definition escape_unit (c : N) : JsString :=
  (if c =? 34 then [92; 34]
   else if c =? 92 then [92; 92]
   else if c =? 8 then [92; 98]
   else if c =? 9 then [92; 116]
   else if c =? 10 then [92; 110]
   else if c =? 12 then [92; 102]
   else if c =? 13 then [92; 114]
   else if c <? 32 then unicode_escape c
   else [c])%N.

(** A surrogate pair goes out as it is, a surrogate on its own as
    [\uXXXX]. *)
Fixpoint escape (s : JsString) : JsString :=
  match s with
  | [] => []
  | c :: s' =>
      if is_high c then
        match s' with
        | d :: s'' =>
            if is_low d then c :: d :: escape s''
            else unicode_escape c ++ escape s'
        | [] => unicode_escape c
        end
      else if is_low c then unicode_escape c ++ escape s'
      else escape_unit c ++ escape s'
  end.

(** QuoteJSONString *)
Definition quote (s : JsString) : JsString := 34%N :: escape s ++ [34%N].

(** What [JSON.stringify] can do: return a text, return [undefined], or
    throw. *)
Inductive Stringified : Type :=
| Text (s : JsString)
| NoText
| Raises (reason : Thrown).

(** The texts of the elements of an array, [null] standing for an
    element that has none; the first element that throws makes the whole
    array throw. *)
Fixpoint element_texts (rs : list Stringified) : Thrown + list JsString :=
  match rs with
  | [] => inr []
  | Raises e :: _ => inl e
  | NoText :: rs' =>
      match element_texts rs' with
      | inl e => inl e
      | inr ts => inr (str "null" :: ts)
      end
  | Text t :: rs' =>
      match element_texts rs' with
      | inl e => inl e
      | inr ts => inr (t :: ts)
      end
  end.

(** The [key:text] members of an object, a property that has no text
    being left out. *)
Fixpoint member_texts (rs : list (JsString * Stringified))
  : Thrown + list JsString :=
  match rs with
  | [] => inr []
  | (_, Raises e) :: _ => inl e
  | (_, NoText) :: rs' => member_texts rs'
  | (k, Text t) :: rs' =>
      match member_texts rs' with
      | inl e => inl e
      | inr ts => inr ((quote k ++ str ":" ++ t) :: ts)
      end
  end.

Definition array_text (rs : list Stringified) : Stringified :=
  match element_texts rs with
  | inl e => Raises e
  | inr ts => Text (str "[" ++ join (str ",") ts ++ str "]")
  end.

Definition object_text (rs : list (JsString * Stringified)) : Stringified :=
  match member_texts rs with
  | inl e => Raises e
  | inr ts => Text (str "{" ++ join (str ",") ts ++ str "}")
  end.

(** SerializeJSONProperty, with no replacer and no indentation.  With
    [property] set, an object whose [toJSON] is callable is replaced by
    what the call returns, and that value is serialized without looking
    for a [toJSON] of its own.  [undefined], a symbol and a function have
    no JSON text; a number that is not finite gives [null]; a BigInt and
    a back reference make the whole call throw. *)
Fixpoint serialize (property : bool) (v : JsValue) : Stringified :=
  match v with
  | VUndefined | VSymbol _ | VFunction _ _ => NoText
  | VNull => Text (str "null")
  | VBool true => Text (str "true")
  | VBool false => Text (str "false")
  | VNum x => Text (if is_finite x then number_to_string x else str "null")
  | VBigInt _ =>
      Raises (ThrownError (TypeError "Do not know how to serialize a BigInt"))
  | VStr s => Text (quote s)
  | VArr items => array_text (List.map (serialize true) items)
  | VObj props =>
      let toJSON :=
        lookup (str "toJSON")
          (List.map (fun '(k, x) =>
                       (k, match x with
                           | VFunction _ (Returns r) => Some (serialize false r)
                           | VFunction _ (ThrowsError e) =>
                               Some (Raises (ThrownError e))
                           | VFunction _ (Throws t) =>
                               Some (Raises (ThrownValue t))
                           | _ => None
                           end)) props) in
      match (if property then toJSON else None) with
      | Some (Some replaced) => replaced
      | _ => object_text (List.map (fun '(k, x) => (k, serialize true x)) props)
      end
  | VRef _ =>
      Raises (ThrownError (TypeError "Converting circular structure to JSON"))
  end.

(** [JSON.stringify(value)] *)
Definition stringify (v : JsValue) : Stringified := serialize true v.

(** ** Parsing *)

Definition is_ws (c : N) : bool :=
  is_char c " " || is_char c "009" || is_char c "010" || is_char c "013".

Fixpoint skip_ws (s : JsString) : JsString :=
  match s with
  | [] => []
  | c :: s' => if is_ws c then skip_ws s' else s
  end.

(** The exponent part of a number, if there is one: [e] or [E], an
    optional sign, digits. *)
Definition parse_exponent (s : JsString) : option (Z * JsString) :=
  match s with
  | c :: r =>
      if is_char c "e" || is_char c "E" then
        let (sign, r1) :=
          match r with
          | c' :: r' =>
              if is_char c' "-" then (-1, r')
              else if is_char c' "+" then (1, r')
              else (1, r)
          | [] => (1, r)
          end in
        match lex_digits r1 with
        | ([], _) => None
        | (ds, r2) => Some (sign * value ds, r2)
        end
      else Some (0, s)
  | [] => Some (0, s)
  end.

(** The fraction part of a number, if there is one: a point, digits. *)
Definition parse_fraction (s : JsString) : option (list Z * JsString) :=
  match s with
  | c :: r =>
      if is_char c "." then
        match lex_digits r with
        | ([], _) => None
        | (ds, r1) => Some (ds, r1)
        end
      else Some ([], s)
  | [] => Some ([], s)
  end.

(** A JSON number after its sign: [0] or a run of digits that does not
    start with [0]; an optional fraction; an optional exponent.  Its
    value is the number nearest to the decimal it writes. *)
Definition parse_unsigned (negative : bool) (s1 : JsString)
  : option (JsValue * JsString) :=
  let (int, s2) := lex_digits s1 in
  match int with
  | [] => None
  | 0 :: _ :: _ => None
  | _ =>
      match parse_fraction s2 with
      | None => None
      | Some (frac, s3) =>
          match parse_exponent s3 with
          | None => None
          | Some (x, s4) =>
              Some (VNum (round_decimal negative (value (int ++ frac))
                            (x - Z.of_nat (length frac))),
                    s4)
          end
      end
  end.

(** A JSON number: an optional minus sign, then the rest. *)
Definition parse_number (s : JsString) : option (JsValue * JsString) :=
  match s with
  | c :: r => if is_char c "-" then parse_unsigned true r
              else parse_unsigned false s
  | [] => parse_unsigned false s
  end.

Definition hex_value (c : N) : option N :=
  (if (48 <=? c) && (c <=? 57) then Some (c - 48)
   else if (97 <=? c) && (c <=? 102) then Some (c - 87)
   else if (65 <=? c) && (c <=? 70) then Some (c - 55)
   else None)%N.

Definition hex4 (a b c d : N) : option N :=
  match hex_value a, hex_value b, hex_value c, hex_value d with
  | Some x, Some y, Some z, Some w => Some (((x * 16 + y) * 16 + z) * 16 + w)%N
  | _, _, _, _ => None
  end.

(** The code unit a one-letter escape stands for. *)
Definition unescape (e : N) : option N :=
  if is_char e "034" then Some 34%N
  else if is_char e "\" then Some 92%N
  else if is_char e "/" then Some 47%N
  else if is_char e "b" then Some 8%N
  else if is_char e "f" then Some 12%N
  else if is_char e "n" then Some 10%N
  else if is_char e "r" then Some 13%N
  else if is_char e "t" then Some 9%N
  else None.

Definition cons_char (c : N) (r : option (JsString * JsString))
  : option (JsString * JsString) :=
  match r with
  | Some (s, rest) => Some (c :: s, rest)
  | None => None
  end.

(** The code units of a string literal after its opening quote, up to
    and including the closing quote.  A raw control character is a syntax
    error. *)
Fixpoint parse_chars (s : JsString) : option (JsString * JsString) :=
  match s with
  | [] => None
  | c :: r =>
      if is_char c "034" then Some ([], r)
      else if is_char c "\" then
        match r with
        | [] => None
        | e :: r1 =>
            if is_char e "u" then
              match r1 with
              | h1 :: h2 :: h3 :: h4 :: r2 =>
                  match hex4 h1 h2 h3 h4 with
                  | Some n => cons_char n (parse_chars r2)
                  | None => None
                  end
              | _ => None
              end
            else
              match unescape e with
              | Some ch => cons_char ch (parse_chars r1)
              | None => None
              end
        end
      else if (c <? 32)%N then None
      else cons_char c (parse_chars r)
  end.

(** [strip word s]: what follows [word] at the head of [s]. *)
Fixpoint strip (word s : JsString) : option JsString :=
  match word with
  | [] => Some s
  | a :: word' =>
      match s with
      | [] => None
      | b :: s' => if N.eqb a b then strip word' s' else None
      end
  end.

(** [expect word r v]: the value [v] of a keyword that ends in [word]. *)
Definition expect (word : string) (r : JsString) (v : JsValue)
  : option (JsValue * JsString) :=
  match strip (str word) r with
  | Some r' => Some (v, r')
  | None => None
  end.

(** The array index a key is: the decimal text, with no leading zero, of
    an integer below [2^32 - 1]. *)
Definition array_index (k : JsString) : option Z :=
  match lex_digits k with
  | ([], _) => None
  | (0 :: _ :: _, _) => None
  | (ds, []) => if value ds <? 4294967295 then Some (value ds) else None
  | (_, _ :: _) => None
  end.

(** A key with index [i] is enumerated before a key with index [i']:
    array indices come first, in ascending order; the other keys keep the
    order in which they were created. *)
Definition goes_before (i i' : option Z) : bool :=
  match i, i' with
  | Some a, Some b => a <? b
  | Some _, None => true
  | None, _ => false
  end.

Fixpoint has_key (k : JsString) (props : list (JsString * JsValue)) : bool :=
  match props with
  | [] => false
  | (k', _) :: rest => eqb k k' || has_key k rest
  end.

Fixpoint replace_prop (k : JsString) (v : JsValue)
    (props : list (JsString * JsValue)) : list (JsString * JsValue) :=
  match props with
  | [] => []
  | (k', v') :: rest =>
      if eqb k k' then (k, v) :: rest else (k', v') :: replace_prop k v rest
  end.

Fixpoint insert_prop (k : JsString) (v : JsValue)
    (props : list (JsString * JsValue)) : list (JsString * JsValue) :=
  match props with
  | [] => [(k, v)]
  | (k', v') :: rest =>
      if goes_before (array_index k) (array_index k') then (k, v) :: props
      else (k', v') :: insert_prop k v rest
  end.

(** CreateDataProperty on a property list: an existing key keeps its
    place and takes the new value, a new key goes where the order of
    enumeration puts it. *)
Definition set_prop (k : JsString) (v : JsValue)
    (props : list (JsString * JsValue)) : list (JsString * JsValue) :=
  if has_key k props then replace_prop k v props else insert_prop k v props.

Definition define_props (members : list (JsString * JsValue))
  : list (JsString * JsValue) :=
  fold_left (fun acc kv => set_prop (fst kv) (snd kv) acc) members [].

(** Recursive descent over the JSON grammar.  [fuel] bounds the nesting
    and the number of elements; [parse] supplies enough of it for any
    text of its length. *)
Fixpoint parse_value (fuel : nat) (s : JsString) : option (JsValue * JsString) :=
  match fuel with
  | O => None
  | S fuel' =>
      match skip_ws s with
      | [] => None
      | c :: r =>
          if is_char c "n" then expect "ull" r VNull
          else if is_char c "t" then expect "rue" r (VBool true)
          else if is_char c "f" then expect "alse" r (VBool false)
          else if is_char c "034" then
            match parse_chars r with
            | Some (text, r') => Some (VStr text, r')
            | None => None
            end
          else if is_char c "[" then
            match skip_ws r with
            | [] => None
            | c' :: r' =>
                if is_char c' "]" then Some (VArr [], r')
                else
                  match parse_elements fuel' (c' :: r') with
                  | Some (items, r'') => Some (VArr items, r'')
                  | None => None
                  end
            end
          else if is_char c "{" then
            match skip_ws r with
            | [] => None
            | c' :: r' =>
                if is_char c' "}" then Some (VObj [], r')
                else
                  match parse_members fuel' (c' :: r') with
                  | Some (members, r'') => Some (VObj (define_props members), r'')
                  | None => None
                  end
            end
          else parse_number (c :: r)
      end
  end

with parse_elements (fuel : nat) (s : JsString)
  : option (list JsValue * JsString) :=
  match fuel with
  | O => None
  | S fuel' =>
      match parse_value fuel' s with
      | None => None
      | Some (v, r) =>
          match skip_ws r with
          | [] => None
          | c :: r' =>
              if is_char c "," then
                match parse_elements fuel' r' with
                | Some (vs, r'') => Some (v :: vs, r'')
                | None => None
                end
              else if is_char c "]" then Some ([v], r')
              else None
          end
      end
  end

with parse_members (fuel : nat) (s : JsString)
  : option (list (JsString * JsValue) * JsString) :=
  match fuel with
  | O => None
  | S fuel' =>
      match skip_ws s with
      | [] => None
      | q :: r =>
          if negb (is_char q "034") then None
          else
            match parse_chars r with
            | None => None
            | Some (k, r1) =>
                match skip_ws r1 with
                | [] => None
                | colon :: r2 =>
                    if negb (is_char colon ":") then None
                    else
                      match parse_value fuel' r2 with
                      | None => None
                      | Some (v, r3) =>
                          match skip_ws r3 with
                          | [] => None
                          | c :: r4 =>
                              if is_char c "," then
                                match parse_members fuel' r4 with
                                | Some (ms, r5) => Some ((k, v) :: ms, r5)
                                | None => None
                                end
                              else if is_char c "}" then Some ([(k, v)], r4)
                              else None
                          end
                      end
                end
            end
      end
  end.

(** [JSON.parse(text)]: the value, or [None] when it throws a
    [SyntaxError]. *)
Definition parse (text : JsString) : option JsValue :=
  match parse_value (S (2 * length text)) text with
  | Some (v, r) =>
      match skip_ws r with
      | [] => Some v
      | _ :: _ => None
      end
  | None => None
  end.

(** ** The values JSON carries *)

Fixpoint distinct (keys : list JsString) : bool :=
  match keys with
  | [] => true
  | k :: rest => negb (existsb (eqb k) rest) && distinct rest
  end.

(** The keys are in an order in which an object enumerates its
    properties: no key is followed by one that goes before it. *)
Fixpoint enumerated (keys : list JsString) : bool :=
  match keys with
  | [] => true
  | k :: rest =>
      forallb (fun k' => negb (goes_before (array_index k') (array_index k)))
              rest
      && enumerated rest
  end.

(** The structured values JSON represents as they are: [null], booleans,
    the finite numbers but [-0], strings, and arrays and objects of such
    values.  (An object has each key once, in enumeration order; a
    number is a binary64 number written in the one way [is_double]
    admits; a string is made of 16-bit code units.) *)
Fixpoint serializable (v : JsValue) : bool :=
  match v with
  | VNull | VBool _ => true
  | VNum x => is_double x && is_finite x && negb (is_negative_zero x)
  | VStr s => well_formed s
  | VArr items => forallb serializable items
  | VObj props =>
      forallb (fun '(k, x) => well_formed k && serializable x) props
      && distinct (List.map fst props)
      && enumerated (List.map fst props)
  | _ => false
  end.

(** The number of values in a value, each array element and object
    member counted once more: the fuel [parse_value] needs to read the
    value's text. *)
Fixpoint size (v : JsValue) : nat :=
  match v with
  | VArr items => S (fold_right (fun x n => S (size x + n)) 0%nat items)
  | VObj props => S (fold_right (fun '(_, x) n => S (size x + n)) 0%nat props)
  | _ => 1
  end.

(** What may follow the text of a value: the end of the text, a comma, a
    closing bracket or a closing brace. *)
Definition delimited (rest : JsString) : bool :=
  match rest with
  | [] => true
  | c :: _ => is_char c "," || is_char c "]" || is_char c "}"
  end.

(** [text] is a text of [v] that [parse_value] reads back: it is long
    enough for the fuel it needs, it starts where a value may start, and
    parsing it in front of a delimiter gives [v] and leaves the
    delimiter. *)
Definition reads_back (v : JsValue) (text : JsString) : Prop :=
  (size v <= length text)%nat
  /\ (exists c tail,
         text = c :: tail /\ is_ws c = false /\ is_char c "]" = false)
  /\ forall fuel rest,
       (size v <= fuel)%nat ->
       delimited rest = true ->
       parse_value fuel (text ++ rest) = Some (v, rest).

(** What may follow a run of digits: anything but a digit. *)
Definition no_digit (rest : JsString) : Prop :=
  match rest with
  | [] => True
  | c :: _ => digit_of c = None
  end.

Definition elements_size (items : list JsValue) : nat :=
  fold_right (fun x n => S (size x + n)) 0%nat items.

Definition members_size (props : list (JsString * JsValue)) : nat :=
  fold_right (fun '(_, x) n => S (size x + n)) 0%nat props.

End JSON.


(* ================================================================== *)
(** * Stored records and the backend contract ([types.ts]) *)
(* ================================================================== *)

(** A [Date], as milliseconds since the epoch. *)
Definition Date : Type := Z.

(** The engine's [Checkpoint]; [id] is the field the saver reads. *)
Module Checkpoint.
Record t : Type := {
  id : string;
  v : Z;
  ts : string;
  channel_values : JsValue;
  channel_versions : JsValue;
  versions_seen : JsValue
}.
End Checkpoint.

Definition CheckpointMetadata : Type := JsValue.

(** A pending write as the engine passes it: [[channel, value]]. *)
Definition PendingWrite : Type := (string * JsValue)%type.

Module StoredCheckpoint.
Record t : Type := {
  threadId : string;
  namespace : string;
  checkpointId : string;
  parentCheckpointId : option string;
  checkpoint : Checkpoint.t;
  metadata : CheckpointMetadata;
  createdAt : Date;
  expiresAt : option Date
}.
End StoredCheckpoint.

Module StoredWrite.
Record t : Type := {
  threadId : string;
  namespace : string;
  checkpointId : string;
  taskId : string;
  idx : Z;
  channel : string;
  type : string;
  value : JsValue;
  createdAt : Date;
  expiresAt : option Date
}.
End StoredWrite.

Module ListCheckpointsOptions.
Record t : Type := {
  threadId : string;
  namespace : string;
  limit : option Z;
  before : option string;
  filter : option JsValue
}.

(** [listOptions.before = cursor] *)
Definition set_before (o : t) (cursor : option string) : t :=
  {| threadId := threadId o; namespace := namespace o; limit := limit o;
     before := cursor; filter := filter o |}.
End ListCheckpointsOptions.

(** What [listCheckpoints] resolves to. *)
Module ListResult.
Record t : Type := {
  checkpoints : list StoredCheckpoint.t;
  nextCursor : option string
}.
End ListResult.

(** [config.configurable], with the keys the saver reads or writes. *)
Module Configurable.
Record t : Type := {
  thread_id : option string;
  checkpoint_ns : option string;
  checkpoint_id : option string;
  checkpoint_parent_id : option string
}.
End Configurable.

Module RunnableConfig.
Record t : Type := { configurable : option Configurable.t }.

(** [config.configurable?.thread_id] and the like. *)
Definition thread_id (c : t) : option string :=
  match configurable c with Some k => Configurable.thread_id k | None => None end.
Definition checkpoint_ns (c : t) : option string :=
  match configurable c with Some k => Configurable.checkpoint_ns k | None => None end.
Definition checkpoint_id (c : t) : option string :=
  match configurable c with Some k => Configurable.checkpoint_id k | None => None end.
End RunnableConfig.

(** The engine's [CheckpointListOptions]. *)
Module CheckpointListOptions.
Record t : Type := {
  limit : option Z;
  before : option RunnableConfig.t;
  filter : option JsValue
}.
End CheckpointListOptions.

Module CheckpointTuple.
Record t : Type := {
  config : RunnableConfig.t;
  checkpoint : Checkpoint.t;
  metadata : CheckpointMetadata;
  parentConfig : option RunnableConfig.t;
  pendingWrites : list (string * string * JsValue)
}.
End CheckpointTuple.

(** How the promise a callback returns settles. *)
Inductive Settled (A : Type) : Type :=
| Fulfilled (a : A)
| Rejected (reason : Thrown).
Arguments Fulfilled {A} a.
Arguments Rejected {A} reason.

(** [CallbackSaverConfig]: the six callbacks, over a backend store of
  type [B], and the two options.  [listCheckpoints] is handed the
  saver's own options object, which the saver keeps using for the next
  page: the callback returns it as it left it. *)
Module Config.
Record t (B : Type) : Type := {
  getCheckpoint :
    string -> string -> option string -> B ->
    Settled (option StoredCheckpoint.t) * B;
  putCheckpoint : StoredCheckpoint.t -> B -> Settled unit * B;
  getWrites :
    string -> string -> string -> B -> Settled (list StoredWrite.t) * B;
  putWrites : list StoredWrite.t -> B -> Settled unit * B;
  listCheckpoints :
    ListCheckpointsOptions.t -> B ->
    Settled ListResult.t * ListCheckpointsOptions.t * B;
  deleteThread : string -> B -> Settled unit * B;
  namespace : option string;
  serialize : option bool
}.
Arguments getCheckpoint {B} _ _ _ _ _.
Arguments putCheckpoint {B} _ _ _.
Arguments getWrites {B} _ _ _ _ _.
Arguments putWrites {B} _ _ _.
Arguments listCheckpoints {B} _ _ _.
Arguments deleteThread {B} _ _ _.
Arguments namespace {B} _.
Arguments serialize {B} _.
End Config.

(** [new CallbackSaverError(message, cause)] *)
Definition CallbackSaverError (message : JsString) (cause : option JsError)
: JsError :=
MkError "CallbackSaverError" message cause.

(* ================================================================== *)
(** * Asynchronous computations *)
(* ================================================================== *)

(** What a method's run leaves behind, in order: the backend callbacks it
  invoked, each with its arguments and with how it settled, and the
  tuples a generator yielded. *)
Inductive Event : Type :=
| GetCheckpoint (threadId namespace : string) (checkpointId : option string)
  (r : Settled (option StoredCheckpoint.t))
| PutCheckpoint (c : StoredCheckpoint.t) (r : Settled unit)
| GetWrites (threadId namespace checkpointId : string)
  (r : Settled (list StoredWrite.t))
| PutWrites (writes : list StoredWrite.t) (r : Settled unit)
| ListCheckpoints (options : ListCheckpointsOptions.t) (r : Settled ListResult.t)
| DeleteThread (threadId : string) (r : Settled unit)
| Yield (tuple : CheckpointTuple.t).

Definition Trace : Type := list Event.

(** The backend's store, and the clock as the readings [new Date()] will
  return, one after the other. *)
Record World (B : Type) : Type := {
store : B;
clock : nat -> Date;
reads : nat
}.
Arguments store {B} _.
Arguments clock {B} _.
Arguments reads {B} _.

(** A run returns, throws (the promise rejects), or is still running when
  the fuel given to a loop is spent. *)
Inductive Outcome (A : Type) : Type :=
| Returned (a : A)
| Threw (e : Thrown)
| Running.
Arguments Returned {A} a.
Arguments Threw {A} e.
Arguments Running {A}.

Definition M (B A : Type) : Type := World B -> Outcome A * World B * Trace.

Section Monad.
Context {B : Type}.

Definition ret {A} (a : A) : M B A := fun w => (Returned a, w, []).

Definition bind {A C} (m : M B A) (k : A -> M B C) : M B C :=
  fun w =>
    match m w with
    | (Returned a, w1, t1) =>
        match k a w1 with (o, w2, t2) => (o, w2, t1 ++ t2) end
    | (Threw e, w1, t1) => (Threw e, w1, t1)
    | (Running, w1, t1) => (Running, w1, t1)
    end.

Definition throw {A} (e : Thrown) : M B A := fun w => (Threw e, w, []).

Definition running {A} : M B A := fun w => (Running, w, []).

(** A synchronous call that returns or throws. *)
Definition lift {A} (r : Thrown + A) : M B A :=
  match r with
  | inl e => throw e
  | inr a => ret a
  end.

(** [try { body } catch (error) { handler }] *)
Definition try_catch {A} (body : M B A) (handler : Thrown -> M B A) : M B A :=
  fun w =>
    match body w with
    | (Threw e, w1, t1) =>
        match handler e w1 with (o, w2, t2) => (o, w2, t1 ++ t2) end
    | r => r
    end.

(** [await callback(args)]: run the callback on the store, log the
    call, and continue with its value or throw its rejection reason. *)
Definition await {A} (call : B -> Settled A * B) (log : Settled A -> Event)
  : M B A :=
  fun w =>
    match call (store w) with
    | (r, s') =>
        let w' := {| store := s'; clock := clock w; reads := reads w |} in
        (match r with Fulfilled a => Returned a | Rejected e => Threw e end,
         w', [log r])
    end.

(** [yield tuple] *)
Definition yield (tuple : CheckpointTuple.t) : M B unit :=
  fun w => (Returned tt, w, [Yield tuple]).

(** [new Date()] *)
Definition new_Date : M B Date :=
  fun w => (Returned (clock w (reads w)),
            {| store := store w; clock := clock w; reads := S (reads w) |},
            []).
End Monad.

Notation "x <- m ;; k" := (bind m (fun x => k))
(at level 61, m at next level, right associativity).

Section Loops.
Context {B : Type}.

(** [array.map((x, idx) => ...)] with an effectful callback, the index
    starting at [i]. *)
Fixpoint map_from {A C} (i : nat) (f : A -> nat -> M B C) (l : list A)
  : M B (list C) :=
  match l with
  | [] => ret []
  | x :: l' =>
      y <- f x i ;;
      ys <- map_from (S i) f l' ;;
      ret (y :: ys)
  end.

(** [for (const x of array) { body }] *)
Fixpoint for_of {A} (l : list A) (body : A -> M B unit) : M B unit :=
  match l with
  | [] => ret tt
  | x :: l' => _ <- body x ;; for_of l' body
  end.
End Loops.

(* ================================================================== *)
(** * The CallbackSaver class ([saver.ts]) *)
(* ================================================================== *)

Module CallbackSaver.

(** The constructor: [{ namespace: 'default', serialize: true, ...config }].
    An option the caller leaves out takes its default. *)
Definition new {B : Type} (config : Config.t B) : Config.t B :=
  {| Config.getCheckpoint := Config.getCheckpoint config;
     Config.putCheckpoint := Config.putCheckpoint config;
     Config.getWrites := Config.getWrites config;
     Config.putWrites := Config.putWrites config;
     Config.listCheckpoints := Config.listCheckpoints config;
     Config.deleteThread := Config.deleteThread config;
     Config.namespace :=
       match Config.namespace config with
       | Some ns => Some ns
       | None => Some "default"
       end;
     Config.serialize :=
       match Config.serialize config with
       | Some b => Some b
       | None => Some true
       end |}.

Section Methods.
Context {B : Type}.

(** [this.config] *)
Variable this : Config.t B.

(** [this.config.serialize === false] *)
Definition serialize_is_false : bool :=
  match Config.serialize this with
  | Some false => true
  | _ => false
  end.

(** [String(value)] as the value a method returns, or the error it
    throws. *)
Definition string_of (value : JsValue) : Thrown + JsValue :=
  match StringOf value with
  | inl e => inl e
  | inr text => inr (VStr text)
  end.

(** [serializeValue]: the JSON text of the value; [String(value)] when
    [JSON.stringify] returns [undefined] or throws.  Nothing catches what
    [String(value)] throws. *)
Definition serializeValue (value : JsValue) : Thrown + JsValue :=
  if serialize_is_false then inr value
  else
    match JSON.stringify value with
    | JSON.NoText => string_of value
    | JSON.Text jsonResult => inr (VStr jsonResult)
    | JSON.Raises _ => string_of value
    end.

(** [deserializeValue]: the parsed value of a string that parses; any
    other value as it is. *)
Definition deserializeValue (value : JsValue) : JsValue :=
  if serialize_is_false then value
  else
    match value with
    | VStr text =>
        match JSON.parse text with
        | Some parsed => parsed
        | None => value
        end
    | _ => value
    end.

(** [error instanceof Error ? error.message : String(error)] *)
Definition error_text (error : Thrown) : Thrown + JsString :=
  match error with
  | ThrownError e => inr (message e)
  | ThrownValue x => StringOf x
  end.

(** [error instanceof Error ? error : undefined] *)
Definition error_cause (error : Thrown) : option JsError :=
  match error with
  | ThrownError e => Some e
  | ThrownValue _ => None
  end.

(** What the [catch] block every method ends with throws: the
    [CallbackSaverError], or what building its message throws. *)
Definition rethrown (what : string) (error : Thrown) : Thrown :=
  match error_text error with
  | inl e => e
  | inr text =>
      ThrownError
        (CallbackSaverError (str what ++ str ": " ++ text) (error_cause error))
  end.

Definition rethrow {A} (what : string) (error : Thrown) : M B A :=
  throw (rethrown what error).

Definition thread_id_required {A} : M B A :=
  throw (ThrownError
           (CallbackSaverError (str "thread_id is required in config.configurable")
                               None)).

Definition checkpoint_id_required {A} : M B A :=
  throw (ThrownError
           (CallbackSaverError (str "checkpoint_id is required in config.configurable")
                               None)).

(** [config.configurable?.checkpoint_ns || this.config.namespace || 'default'] *)
Definition resolve_namespace (config : RunnableConfig.t) : string :=
  JS.or_lit (JS.or (RunnableConfig.checkpoint_ns config) (Config.namespace this))
            "default".

Definition await_getCheckpoint (threadId namespace : string)
    (checkpointId : option string) : M B (option StoredCheckpoint.t) :=
  await (Config.getCheckpoint this threadId namespace checkpointId)
        (GetCheckpoint threadId namespace checkpointId).

Definition await_putCheckpoint (c : StoredCheckpoint.t) : M B unit :=
  await (Config.putCheckpoint this c) (PutCheckpoint c).

Definition await_getWrites (threadId namespace checkpointId : string)
  : M B (list StoredWrite.t) :=
  await (Config.getWrites this threadId namespace checkpointId)
        (GetWrites threadId namespace checkpointId).

Definition await_putWrites (writes : list StoredWrite.t) : M B unit :=
  await (Config.putWrites this writes) (PutWrites writes).

Definition await_deleteThread (threadId : string) : M B unit :=
  await (Config.deleteThread this threadId) (DeleteThread threadId).

(** [await this.config.listCheckpoints(listOptions)]: the result, and the
    options object as the callback left it. *)
Definition await_listCheckpoints (listOptions : ListCheckpointsOptions.t)
  : M B (ListResult.t * ListCheckpointsOptions.t) :=
  fun w =>
    match Config.listCheckpoints this listOptions (store w) with
    | (r, listOptions', s') =>
        let w' := {| store := s'; clock := clock w; reads := reads w |} in
        (match r with
         | Fulfilled a => Returned (a, listOptions')
         | Rejected e => Threw e
         end,
         w', [ListCheckpoints listOptions r])
    end.

(** [writes.map(write => [write.taskId, write.channel, decoded value])] *)
Definition pending_writes (writes : list StoredWrite.t)
  : list (string * string * JsValue) :=
  map (fun write =>
         (StoredWrite.taskId write,
          StoredWrite.channel write,
          if serialize_is_false then StoredWrite.value write
          else deserializeValue (StoredWrite.value write)))
      writes.

(** The [CheckpointTuple] literal built in [getTuple] and in [list]. *)
Definition make_tuple (storedCheckpoint : StoredCheckpoint.t)
    (pendingWrites : list (string * string * JsValue)) : CheckpointTuple.t :=
  {| CheckpointTuple.config :=
       {| RunnableConfig.configurable := Some
            {| Configurable.thread_id :=
                 Some (StoredCheckpoint.threadId storedCheckpoint);
               Configurable.checkpoint_ns :=
                 Some (StoredCheckpoint.namespace storedCheckpoint);
               Configurable.checkpoint_id :=
                 Some (StoredCheckpoint.checkpointId storedCheckpoint);
               Configurable.checkpoint_parent_id :=
                 JS.truthy (StoredCheckpoint.parentCheckpointId storedCheckpoint)
            |} |};
     CheckpointTuple.checkpoint := StoredCheckpoint.checkpoint storedCheckpoint;
     CheckpointTuple.metadata := StoredCheckpoint.metadata storedCheckpoint;
     CheckpointTuple.parentConfig :=
       match JS.truthy (StoredCheckpoint.parentCheckpointId storedCheckpoint) with
       | Some parent =>
           Some {| RunnableConfig.configurable := Some
                     {| Configurable.thread_id :=
                          Some (StoredCheckpoint.threadId storedCheckpoint);
                        Configurable.checkpoint_ns :=
                          Some (StoredCheckpoint.namespace storedCheckpoint);
                        Configurable.checkpoint_id := Some parent;
                        Configurable.checkpoint_parent_id := None |} |}
       | None => None
       end;
     CheckpointTuple.pendingWrites := pendingWrites |}.

(** [async getTuple (config)] *)
Definition getTuple (config : RunnableConfig.t)
  : M B (option CheckpointTuple.t) :=
  try_catch
    (match JS.truthy (RunnableConfig.thread_id config) with
     | None => thread_id_required
     | Some threadId =>
         let namespace := resolve_namespace config in
         let checkpointId := RunnableConfig.checkpoint_id config in
         storedCheckpoint <- await_getCheckpoint threadId namespace checkpointId ;;
         match storedCheckpoint with
         | None => ret None
         | Some storedCheckpoint =>
             writes <- await_getWrites
                         (StoredCheckpoint.threadId storedCheckpoint)
                         (StoredCheckpoint.namespace storedCheckpoint)
                         (StoredCheckpoint.checkpointId storedCheckpoint) ;;
             let pendingWrites := pending_writes writes in
             ret (Some (make_tuple storedCheckpoint pendingWrites))
         end
     end)
    (rethrow "Failed to get checkpoint tuple").

(** The body of the [for ... of result.checkpoints] loop of [list]. *)
Definition yield_checkpoint (storedCheckpoint : StoredCheckpoint.t) : M B unit :=
  writes <- await_getWrites
              (StoredCheckpoint.threadId storedCheckpoint)
              (StoredCheckpoint.namespace storedCheckpoint)
              (StoredCheckpoint.checkpointId storedCheckpoint) ;;
  let pendingWrites := pending_writes writes in
  yield (make_tuple storedCheckpoint pendingWrites).

(** The [do { ... } while (nextCursor)] loop of [list].  The source puts
    no bound on it; [fuel] is the number of pages the run may ask for. *)
Fixpoint list_pages (fuel : nat) (listOptions : ListCheckpointsOptions.t)
  : M B unit :=
  match fuel with
  | O => running
  | S fuel' =>
      page <- await_listCheckpoints listOptions ;;
      let (result, listOptions) := page in
      _ <- for_of (ListResult.checkpoints result) yield_checkpoint ;;
      let nextCursor := ListResult.nextCursor result in
      match JS.truthy nextCursor with
      | Some cursor =>
          list_pages fuel'
            (ListCheckpointsOptions.set_before listOptions (Some cursor))
      | None => ret tt
      end
  end.

(** [_before?.configurable?.checkpoint_id] *)
Definition before_id (_before : option RunnableConfig.t) : option string :=
  match _before with
  | Some c => RunnableConfig.checkpoint_id c
  | None => None
  end.

(** [async put (config, checkpoint, metadata, newVersions)] *)
Definition put (config : RunnableConfig.t) (checkpoint : Checkpoint.t)
    (metadata : CheckpointMetadata) (newVersions : list (string * JsValue))
  : M B RunnableConfig.t :=
  try_catch
    (match JS.truthy (RunnableConfig.thread_id config) with
     | None => thread_id_required
     | Some threadId =>
         let namespace := resolve_namespace config in
         let checkpointId := Checkpoint.id checkpoint in
         let parentCheckpointId := RunnableConfig.checkpoint_id config in
         createdAt <- new_Date ;;
         let storedCheckpoint :=
           {| StoredCheckpoint.threadId := threadId;
              StoredCheckpoint.namespace := namespace;
              StoredCheckpoint.checkpointId := checkpointId;
              StoredCheckpoint.parentCheckpointId := parentCheckpointId;
              StoredCheckpoint.checkpoint := checkpoint;
              StoredCheckpoint.metadata := metadata;
              StoredCheckpoint.createdAt := createdAt;
              StoredCheckpoint.expiresAt := None |} in
         _ <- await_putCheckpoint storedCheckpoint ;;
         ret {| RunnableConfig.configurable := Some
                  {| Configurable.thread_id := Some threadId;
                     Configurable.checkpoint_ns := Some namespace;
                     Configurable.checkpoint_id := Some checkpointId;
                     Configurable.checkpoint_parent_id := None |} |}
     end)
    (rethrow "Failed to save checkpoint").

(** The [value] field of a stored write. *)
Definition encode (value : JsValue) : Thrown + JsValue :=
  if serialize_is_false then inr value else serializeValue value.

(** The callback of [writes.map] in [putWrites]. *)
Definition stored_write (threadId namespace checkpointId taskId : string)
    (write : PendingWrite) (idx : nat) : M B StoredWrite.t :=
  let (channel, value) := write in
  stored <- lift (encode value) ;;
  createdAt <- new_Date ;;
  ret {| StoredWrite.threadId := threadId;
         StoredWrite.namespace := namespace;
         StoredWrite.checkpointId := checkpointId;
         StoredWrite.taskId := taskId;
         StoredWrite.idx := Z.of_nat idx;
         StoredWrite.channel := channel;
         StoredWrite.type := "write";
         StoredWrite.value := stored;
         StoredWrite.createdAt := createdAt;
         StoredWrite.expiresAt := None |}.

(** [async putWrites (config, writes, taskId)] *)
Definition putWrites (config : RunnableConfig.t) (writes : list PendingWrite)
    (taskId : string) : M B unit :=
  try_catch
    (match JS.truthy (RunnableConfig.thread_id config) with
     | None => thread_id_required
     | Some threadId =>
         let namespace := resolve_namespace config in
         match JS.truthy (RunnableConfig.checkpoint_id config) with
         | None => checkpoint_id_required
         | Some checkpointId =>
             storedWrites <-
               map_from 0 (stored_write threadId namespace checkpointId taskId)
                        writes ;;
             await_putWrites storedWrites
         end
     end)
    (rethrow "Failed to save writes").

(** [async deleteThread (threadId)] *)
Definition deleteThread (threadId : string) : M B unit :=
  try_catch (await_deleteThread threadId) (rethrow "Failed to delete thread").

(** [async * list (config, options, _before, _limit)], consumed to its
    end.  (It comes last here because its name hides the type of lists
    from what follows it in the section.) *)
Definition list (fuel : nat) (config : RunnableConfig.t)
    (options : option CheckpointListOptions.t)
    (_before : option RunnableConfig.t) (_limit : option Z) : M B unit :=
  try_catch
    (match JS.truthy (RunnableConfig.thread_id config) with
     | None => thread_id_required
     | Some threadId =>
         let namespace := resolve_namespace config in
         let listOptions :=
           {| ListCheckpointsOptions.threadId := threadId;
              ListCheckpointsOptions.namespace := namespace;
              ListCheckpointsOptions.limit :=
                JS.or_num _limit
                  (match options with
                   | Some o => CheckpointListOptions.limit o
                   | None => None
                   end);
              ListCheckpointsOptions.before := before_id _before;
              ListCheckpointsOptions.filter :=
                match options with
                | Some o => CheckpointListOptions.filter o
                | None => None
                end |} in
         list_pages fuel listOptions
     end)
    (rethrow "Failed to list checkpoints").

End Methods.

End CallbackSaver.

(* ================================================================== *)
(** * Observing a run *)
(* ================================================================== *)

Definition outcome {B A} (r : Outcome A * World B * Trace) : Outcome A :=
  fst (fst r).
Definition trace {B A} (r : Outcome A * World B * Trace) : Trace := snd r.

(** The reason a logged callback rejected with, if it did. *)
Definition reason_of {A} (r : Settled A) : option Thrown :=
  match r with Fulfilled _ => None | Rejected e => Some e end.

Definition rejection (ev : Event) : option Thrown :=
  match ev with
  | GetCheckpoint _ _ _ r => reason_of r
  | PutCheckpoint _ r => reason_of r
  | GetWrites _ _ _ r => reason_of r
  | PutWrites _ r => reason_of r
  | ListCheckpoints _ r => reason_of r
  | DeleteThread _ r => reason_of r
  | Yield _ => None
  end.

(** The tuples a run yielded, in order. *)
Fixpoint yields (t : Trace) : list CheckpointTuple.t :=
  match t with
  | [] => []
  | Yield tuple :: t' => tuple :: yields t'
  | _ :: t' => yields t'
  end.

(** The listing requests of a run with the pages they were answered
    with, in order. *)
Fixpoint pages (t : Trace) : list (ListCheckpointsOptions.t * ListResult.t) :=
  match t with
  | [] => []
  | ListCheckpoints o (Fulfilled p) :: t' => (o, p) :: pages t'
  | _ :: t' => pages t'
  end.

(** All listing requests of a run, answered or not. *)
Fixpoint listing_requests (t : Trace) : list ListCheckpointsOptions.t :=
  match t with
  | [] => []
  | ListCheckpoints o _ :: t' => o :: listing_requests t'
  | _ :: t' => listing_requests t'
  end.


(** The checkpoint id a tuple addresses. *)
Definition tuple_id (tuple : CheckpointTuple.t) : option string :=
  RunnableConfig.checkpoint_id (CheckpointTuple.config tuple).

(** [serializeValue] returns on [value]. *)
Definition encodes {B : Type} (this : Config.t B) (value : JsValue) : bool :=
  match CallbackSaver.encode this value with
  | inr _ => true
  | inl _ => false
  end.

(** The record at some position of the batch stands for the pending
    write at that position. *)
Definition records_of {B : Type} (this : Config.t B)
    (records : list StoredWrite.t) (writes : list PendingWrite) : Prop :=
  Forall2 (fun rec write =>
             StoredWrite.channel rec = fst write
             /\ CallbackSaver.encode this (snd write) = inr (StoredWrite.value rec))
          records writes.

(** The error [getTuple] rejects with when [thread_id] is missing: the
    precondition error, wrapped by the method's own [catch]. *)
Definition wrapped (what required : string) : Thrown :=
  ThrownError
    (CallbackSaverError (str what ++ str ": " ++ str required)
       (Some (CallbackSaverError (str required) None))).

(** The listing request [list] starts from: [before] is the checkpoint id
    of the third argument, whatever [options] holds. *)
Definition first_request {B : Type} (this : Config.t B)
    (config : RunnableConfig.t) (threadId : string)
    (options : option CheckpointListOptions.t)
    (_before : option RunnableConfig.t) (_limit : option Z)
  : ListCheckpointsOptions.t :=
  {| ListCheckpointsOptions.threadId := threadId;
     ListCheckpointsOptions.namespace := CallbackSaver.resolve_namespace this config;
     ListCheckpointsOptions.limit :=
       JS.or_num _limit
         (match options with
          | Some o => CheckpointListOptions.limit o
          | None => None
          end);
     ListCheckpointsOptions.before := CallbackSaver.before_id _before;
     ListCheckpointsOptions.filter :=
       match options with
       | Some o => CheckpointListOptions.filter o
       | None => None
       end |}.

(** A run is [clean] when no callback in it rejected, or when the one
    that did is the last event of the trace and its reason is what the
    run threw. *)
Definition clean_run {B A} (r : Outcome A * World B * Trace) : Prop :=
  Forall (fun ev => rejection ev = None) (trace r)
  \/ exists earlier ev reason,
       trace r = earlier ++ [ev]
       /\ Forall (fun x => rejection x = None) earlier
       /\ rejection ev = Some reason
       /\ outcome r = Threw reason.

Definition clean {B A} (m : M B A) : Prop := forall w, clean_run (m w).

(** What the [catch] block of a method makes of a rejection: whenever a
    callback of the run rejected with [reason], the method throws what
    its [catch] block makes of [reason]; the rejected call is the last
    event of the run and the only rejected one. *)
Definition surfaces {B A} (what : string) (m : M B A) : Prop :=
  forall (w : World B) (ev : Event) (reason : Thrown),
    In ev (trace (m w)) ->
    rejection ev = Some reason ->
    outcome (m w) = Threw (CallbackSaver.rethrown what reason)
    /\ exists earlier,
         trace (m w) = earlier ++ [ev]
         /\ Forall (fun x => rejection x = None) earlier.

(** The same for a callback that rejects with an [Error] instance [e]:
    the cause of the [CallbackSaverError] is [e]. *)
Definition surfaces_error {B A} (what : string) (m : M B A) : Prop :=
  forall (w : World B) (ev : Event) (e : JsError),
    In ev (trace (m w)) ->
    rejection ev = Some (ThrownError e) ->
    outcome (m w)
    = Threw (ThrownError
               (CallbackSaverError (str what ++ str ": " ++ message e) (Some e)))
    /\ exists earlier,
         trace (m w) = earlier ++ [ev]
         /\ Forall (fun x => rejection x = None) earlier.

(** A yielded tuple is the one [list] assembles from a stored checkpoint
    and the writes looked up for it. *)
Definition assembled {B : Type} (this : Config.t B)
    (tuple : CheckpointTuple.t) (stored : StoredCheckpoint.t) : Prop :=
  exists writes,
    tuple = CallbackSaver.make_tuple stored
              (CallbackSaver.pending_writes this writes).

(** The checkpoints of the pages of a trace, page after page. *)
Definition listed (t : Trace) : list StoredCheckpoint.t :=
  flat_map (fun p => ListResult.checkpoints (snd p)) (pages t).

(** The world a run leaves. *)
Definition world_after {B A} (r : Outcome A * World B * Trace) : World B :=
  snd (fst r).

(** The checkpoint id the parent config of a tuple addresses, if the
    tuple has a parent config. *)
Definition parent_id (tuple : CheckpointTuple.t) : option string :=
  match CheckpointTuple.parentConfig tuple with
  | Some parent => RunnableConfig.checkpoint_id parent
  | None => None
  end.

(** Two listing requests that differ at most in [before]. *)
Definition same_scope (o o' : ListCheckpointsOptions.t) : Prop :=
  ListCheckpointsOptions.threadId o' = ListCheckpointsOptions.threadId o
  /\ ListCheckpointsOptions.namespace o' = ListCheckpointsOptions.namespace o
  /\ ListCheckpointsOptions.limit o' = ListCheckpointsOptions.limit o
  /\ ListCheckpointsOptions.filter o' = ListCheckpointsOptions.filter o.

(** The events of a method that only reads: lookups, listings and
    yields. *)
Definition is_read (ev : Event) : bool :=
  match ev with
  | GetCheckpoint _ _ _ _ | GetWrites _ _ _ _ | ListCheckpoints _ _ | Yield _ =>
      true
  | PutCheckpoint _ _ | PutWrites _ _ | DeleteThread _ _ => false
  end.

(** Every event a computation leaves satisfies [P]. *)
Definition emits {B A} (P : Event -> bool) (m : M B A) : Prop :=
  forall w, forallb P (trace (m w)) = true.

(** The keys [getWrites] was called with, in order. *)
Fixpoint lookups (t : Trace) : list (string * string * string) :=
  match t with
  | [] => []
  | GetWrites threadId namespace checkpointId _ :: t' =>
      (threadId, namespace, checkpointId) :: lookups t'
  | _ :: t' => lookups t'
  end.

(** The key a stored checkpoint names itself by. *)
Definition identity (c : StoredCheckpoint.t) : string * string * string :=
  (StoredCheckpoint.threadId c, StoredCheckpoint.namespace c,
   StoredCheckpoint.checkpointId c).

(* ================================================================== *)
(** * A scripted backend, for running the methods on concrete inputs *)
(* ================================================================== *)

Module Mock.

(** What the backend holds: the checkpoint [getCheckpoint] resolves to,
    the writes [getWrites] resolves to, the pages [listCheckpoints] will
    hand out one per call, and what has been stored so far. *)
Record Store : Type := {
  latest : option StoredCheckpoint.t;
  writes : list StoredWrite.t;
  script : list ListResult.t;
  saved_checkpoints : list StoredCheckpoint.t;
  saved_writes : list StoredWrite.t
}.

Definition empty : Store :=
  {| latest := None; writes := []; script := [];
     saved_checkpoints := []; saved_writes := [] |}.

Definition next_page (s : Store) : ListResult.t * Store :=
  match script s with
  | [] => ({| ListResult.checkpoints := []; ListResult.nextCursor := None |}, s)
  | p :: rest =>
      (p, {| latest := latest s; writes := writes s; script := rest;
             saved_checkpoints := saved_checkpoints s;
             saved_writes := saved_writes s |})
  end.

(** A backend that answers from its store. *)
Definition backend : Config.t Store :=
  {| Config.getCheckpoint := fun _ _ _ s => (Fulfilled (latest s), s);
     Config.putCheckpoint := fun c s =>
       (Fulfilled tt,
        {| latest := Some c; writes := writes s; script := script s;
           saved_checkpoints := saved_checkpoints s ++ [c];
           saved_writes := saved_writes s |});
     Config.getWrites := fun _ _ _ s => (Fulfilled (writes s), s);
     Config.putWrites := fun ws s =>
       (Fulfilled tt,
        {| latest := latest s; writes := writes s; script := script s;
           saved_checkpoints := saved_checkpoints s;
           saved_writes := saved_writes s ++ ws |});
     Config.listCheckpoints := fun o s =>
       let (p, s') := next_page s in (Fulfilled p, o, s');
     Config.deleteThread := fun _ s => (Fulfilled tt, empty);
     Config.namespace := None;
     Config.serialize := None |}.

(** A backend every callback of which rejects with [reason]. *)
Definition down (reason : Thrown) : Config.t Store :=
  {| Config.getCheckpoint := fun _ _ _ s => (Rejected reason, s);
     Config.putCheckpoint := fun _ s => (Rejected reason, s);
     Config.getWrites := fun _ _ _ s => (Rejected reason, s);
     Config.putWrites := fun _ s => (Rejected reason, s);
     Config.listCheckpoints := fun o s => (Rejected reason, o, s);
     Config.deleteThread := fun _ s => (Rejected reason, s);
     Config.namespace := None;
     Config.serialize := None |}.

(** The same backend given with [serialize: false]. *)
Definition raw : Config.t Store :=
  {| Config.getCheckpoint := Config.getCheckpoint backend;
     Config.putCheckpoint := Config.putCheckpoint backend;
     Config.getWrites := Config.getWrites backend;
     Config.putWrites := Config.putWrites backend;
     Config.listCheckpoints := Config.listCheckpoints backend;
     Config.deleteThread := Config.deleteThread backend;
     Config.namespace := None;
     Config.serialize := Some false |}.

Definition start (s : Store) : World Store :=
  {| store := s; clock := fun n => Z.of_nat n; reads := 0 |}.

(** [{ configurable: { thread_id, checkpoint_id } }] *)
Definition config_of (thread : option string) (checkpoint : option string)
  : RunnableConfig.t :=
  {| RunnableConfig.configurable := Some
       {| Configurable.thread_id := thread;
          Configurable.checkpoint_ns := None;
          Configurable.checkpoint_id := checkpoint;
          Configurable.checkpoint_parent_id := None |} |}.

Definition checkpoint_with_id (i : string) : Checkpoint.t :=
  {| Checkpoint.id := i; Checkpoint.v := 1; Checkpoint.ts := EmptyString;
     Checkpoint.channel_values := VObj [];
     Checkpoint.channel_versions := VObj [];
     Checkpoint.versions_seen := VObj [] |}.

Definition stored (thread i : string) (parent : option string)
  : StoredCheckpoint.t :=
  {| StoredCheckpoint.threadId := thread;
     StoredCheckpoint.namespace := "default";
     StoredCheckpoint.checkpointId := i;
     StoredCheckpoint.parentCheckpointId := parent;
     StoredCheckpoint.checkpoint := checkpoint_with_id i;
     StoredCheckpoint.metadata := VObj [];
     StoredCheckpoint.createdAt := 0%Z;
     StoredCheckpoint.expiresAt := None |}.

(** Two checkpoints, [a] then [b], one per page. *)
Definition two_pages : Store :=
  {| latest := None; writes := [];
     script :=
       [ {| ListResult.checkpoints := [stored "t" "a" None];
            ListResult.nextCursor := Some "a" |};
         {| ListResult.checkpoints := [stored "t" "b" (Some "a")];
            ListResult.nextCursor := None |} ];
     saved_checkpoints := []; saved_writes := [] |}.

End Mock.


(* ================================================================== *)
(** * The in-memory example backend ([example.ts]) *)
(* ================================================================== *)

(** A [Map] with string keys: its entries in insertion order, each key
    once. *)
Module JsMap.
Section Entries.
Context {V : Type}.

Definition t : Type := list (string * V).

(** [map.get(key)] *)
Fixpoint get (key : string) (m : t) : option V :=
  match m with
  | [] => None
  | (k, v) :: rest => if String.eqb key k then Some v else get key rest
  end.

(** [map.set(key, value)]: a key the map has keeps its place. *)
Fixpoint set (key : string) (value : V) (m : t) : t :=
  match m with
  | [] => [(key, value)]
  | (k, v) :: rest =>
      if String.eqb key k then (key, value) :: rest
      else (k, v) :: set key value rest
  end.

(** [map.delete(key)] *)
Definition delete (key : string) (m : t) : t :=
  filter (fun kv => negb (String.eqb key (fst kv))) m.

(** [Array.from(map.keys())] *)
Definition keys (m : t) : list string := map fst m.

(** [map.size] *)
Definition size (m : t) : nat := length m.

End Entries.
Arguments t V : clear implicits.
End JsMap.

Module Example.

(** [key.startsWith(prefix)] *)
Fixpoint startsWith (key prefix : string) {struct prefix} : bool :=
  match prefix with
  | EmptyString => true
  | String a prefix' =>
      match key with
      | EmptyString => false
      | String b key' => if Ascii.eqb a b then startsWith key' prefix' else false
      end
  end.

Fixpoint insert_sorted (key : string) (sorted : list string) : list string :=
  match sorted with
  | [] => [key]
  | k :: rest =>
      if String.leb key k then key :: sorted else k :: insert_sorted key rest
  end.

(** [keys.sort()]: ascending in the order of the code units. *)
Definition sort (keys : list string) : list string :=
  fold_right insert_sorted [] keys.

(** Each key of a sorted list is at most the next one. *)
Fixpoint ascending (l : list string) : Prop :=
  match l with
  | [] => True
  | k :: rest =>
      match rest with
      | [] => True
      | k' :: _ => String.leb k k' = true
      end /\ ascending rest
  end.

(** [keys.indexOf(key)], with [None] for [-1]. *)
Fixpoint indexOf (key : string) (keys : list string) : option nat :=
  match keys with
  | [] => None
  | k :: rest =>
      if String.eqb key k then Some 0
      else match indexOf key rest with
           | Some i => Some (S i)
           | None => None
           end
  end.

(** [array.slice(0, end)]: a negative [end] counts from the end of the
    array. *)
Definition slice_to {A : Type} (l : list A) (end_ : Z) : list A :=
  if (end_ <? 0)%Z then firstn (length l - Z.to_nat (- end_)) l
  else firstn (Z.to_nat end_) l.

(** The two module-level maps: [checkpoints] and [writes]. *)
Record Storage : Type := {
  checkpoints : JsMap.t StoredCheckpoint.t;
  writes : JsMap.t (list StoredWrite.t)
}.

Definition makeCheckpointKey (threadId namespace checkpointId : string)
  : string :=
  (threadId ++ ":" ++ namespace ++ ":" ++ checkpointId)%string.

Definition makeWriteKey (threadId namespace checkpointId : string) : string :=
  (threadId ++ ":" ++ namespace ++ ":" ++ checkpointId)%string.

(** The keys of the checkpoints of a thread and namespace, sorted. *)
Definition matching (threadId namespace : string) (s : Storage) : list string :=
  sort (filter (fun key => startsWith key (threadId ++ ":" ++ namespace ++ ":"))
               (JsMap.keys (checkpoints s))).

(** [config.getCheckpoint]: the checkpoint under the key of a given id;
    with no id, the one under the greatest key of the thread and
    namespace. *)
Definition getCheckpoint (threadId namespace : string)
    (checkpointId : option string) (s : Storage)
  : Settled (option StoredCheckpoint.t) * Storage :=
  match JS.truthy checkpointId with
  | Some checkpointId =>
      let key := makeCheckpointKey threadId namespace checkpointId in
      (Fulfilled (JsMap.get key (checkpoints s)), s)
  | None =>
      let matchingKeys := matching threadId namespace s in
      match matchingKeys with
      | [] => (Fulfilled None, s)
      | _ =>
          let latestKey := last matchingKeys EmptyString in
          (Fulfilled (JsMap.get latestKey (checkpoints s)), s)
      end
  end.

(** [config.putCheckpoint] (the line it logs is left out). *)
Definition putCheckpoint (checkpoint : StoredCheckpoint.t) (s : Storage)
  : Settled unit * Storage :=
  let key := makeCheckpointKey (StoredCheckpoint.threadId checkpoint)
                               (StoredCheckpoint.namespace checkpoint)
                               (StoredCheckpoint.checkpointId checkpoint) in
  (Fulfilled tt,
   {| checkpoints := JsMap.set key checkpoint (checkpoints s);
      writes := writes s |}).

(** [writes.get(key) || []] *)
Definition writes_under (key : string) (m : JsMap.t (list StoredWrite.t))
  : list StoredWrite.t :=
  match JsMap.get key m with
  | Some ws => ws
  | None => []
  end.

(** The key the example files a stored write under. *)
Definition write_key (write : StoredWrite.t) : string :=
  makeWriteKey (StoredWrite.threadId write) (StoredWrite.namespace write)
               (StoredWrite.checkpointId write).

(** [config.getWrites] *)
Definition getWrites (threadId namespace checkpointId : string) (s : Storage)
  : Settled (list StoredWrite.t) * Storage :=
  let key := makeWriteKey threadId namespace checkpointId in
  (Fulfilled (writes_under key (writes s)), s).

(** The first loop of [config.putWrites]: the writes grouped by key,
    the groups in the order their keys first appear. *)
Definition group_writes (writesToSave : list StoredWrite.t)
  : JsMap.t (list StoredWrite.t) :=
  fold_left
    (fun writesByCheckpoint write =>
       let key := makeWriteKey (StoredWrite.threadId write)
                               (StoredWrite.namespace write)
                               (StoredWrite.checkpointId write) in
       JsMap.set key (writes_under key writesByCheckpoint ++ [write])
                 writesByCheckpoint)
    writesToSave [].

(** [config.putWrites]: each group goes after what its key holds. *)
Definition putWrites (writesToSave : list StoredWrite.t) (s : Storage)
  : Settled unit * Storage :=
  (Fulfilled tt,
   {| checkpoints := checkpoints s;
      writes :=
        fold_left
          (fun m group =>
             let (key, checkpointWrites) := group : string * list StoredWrite.t in
             let existing := writes_under key m in
             JsMap.set key (existing ++ checkpointWrites) m)
          (group_writes writesToSave) (writes s) |}).

(** [matchingKeys.map(key => checkpoints.get(key)!).filter(Boolean)] *)
Fixpoint lookup_all (keys : list string) (m : JsMap.t StoredCheckpoint.t)
  : list StoredCheckpoint.t :=
  match keys with
  | [] => []
  | key :: rest =>
      match JsMap.get key m with
      | Some c => c :: lookup_all rest m
      | None => lookup_all rest m
      end
  end.

(** [options.limit], when it is truthy. *)
Definition truthy_limit (limit : option Z) : option Z :=
  match limit with
  | Some 0%Z | None => None
  | Some n => Some n
  end.

(** [config.listCheckpoints] *)
Definition listCheckpoints (options : ListCheckpointsOptions.t) (s : Storage)
  : Settled ListResult.t * ListCheckpointsOptions.t * Storage :=
  let threadId := ListCheckpointsOptions.threadId options in
  let namespace := ListCheckpointsOptions.namespace options in
  let matchingKeys := matching threadId namespace s in
  let matchingKeys :=
    match JS.truthy (ListCheckpointsOptions.before options) with
    | Some before =>
        let beforeKey := (threadId ++ ":" ++ namespace ++ ":" ++ before)%string in
        match indexOf beforeKey matchingKeys with
        | Some beforeIndex => firstn beforeIndex matchingKeys
        | None => matchingKeys
        end
    | None => matchingKeys
    end in
  let matchingKeys :=
    match truthy_limit (ListCheckpointsOptions.limit options) with
    | Some limit => slice_to matchingKeys limit
    | None => matchingKeys
    end in
  let results := lookup_all matchingKeys (checkpoints s) in
  let nextCursor :=
    match truthy_limit (ListCheckpointsOptions.limit options) with
    | Some limit =>
        if (Z.of_nat (length results) =? limit)%Z then
          let allKeysAfterCursor := matching threadId namespace s in
          let lastResultKey := last matchingKeys EmptyString in
          match indexOf lastResultKey allKeysAfterCursor with
          | Some lastResultIndex =>
              if (lastResultIndex <? length allKeysAfterCursor - 1)%nat then
                match last (map Some results) None with
                | Some lastCheckpoint =>
                    Some (StoredCheckpoint.checkpointId lastCheckpoint)
                | None => None
                end
              else None
          | None => None
          end
        else None
    | None => None
    end in
  (Fulfilled {| ListResult.checkpoints := results;
                ListResult.nextCursor := nextCursor |},
   options, s).

(** [config.deleteThread]: every checkpoint and every group of writes
    whose key starts with the thread id and a colon. *)
Definition deleteThread (threadId : string) (s : Storage)
  : Settled unit * Storage :=
  let checkpointKeysToDelete :=
    filter (fun key => startsWith key (threadId ++ ":"))
           (JsMap.keys (checkpoints s)) in
  let writeKeysToDelete :=
    filter (fun key => startsWith key (threadId ++ ":"))
           (JsMap.keys (writes s)) in
  (Fulfilled tt,
   {| checkpoints :=
        fold_left (fun m key => JsMap.delete key m) checkpointKeysToDelete
                  (checkpoints s);
      writes :=
        fold_left (fun m key => JsMap.delete key m) writeKeysToDelete
                  (writes s) |}).

(** The [config] object of the example. *)
Definition config : Config.t Storage :=
  {| Config.getCheckpoint := getCheckpoint;
     Config.putCheckpoint := putCheckpoint;
     Config.getWrites := getWrites;
     Config.putWrites := putWrites;
     Config.listCheckpoints := listCheckpoints;
     Config.deleteThread := deleteThread;
     Config.namespace := Some "default";
     Config.serialize := Some true |}.

(** [export const exampleSaver = new CallbackSaver(config)] *)
Definition exampleSaver : Config.t Storage := CallbackSaver.new config.

(** What [put] on the example saver stores. *)
Definition put_record (config : RunnableConfig.t) (threadId : string)
    (checkpoint : Checkpoint.t) (metadata : CheckpointMetadata)
    (createdAt : Date) : StoredCheckpoint.t :=
  {| StoredCheckpoint.threadId := threadId;
     StoredCheckpoint.namespace :=
       CallbackSaver.resolve_namespace exampleSaver config;
     StoredCheckpoint.checkpointId := Checkpoint.id checkpoint;
     StoredCheckpoint.parentCheckpointId := RunnableConfig.checkpoint_id config;
     StoredCheckpoint.checkpoint := checkpoint;
     StoredCheckpoint.metadata := metadata;
     StoredCheckpoint.createdAt := createdAt;
     StoredCheckpoint.expiresAt := None |}.

(** The config [put] returns. *)
Definition put_config (config : RunnableConfig.t) (threadId : string)
    (checkpoint : Checkpoint.t) : RunnableConfig.t :=
  {| RunnableConfig.configurable := Some
       {| Configurable.thread_id := Some threadId;
          Configurable.checkpoint_ns :=
            Some (CallbackSaver.resolve_namespace exampleSaver config);
          Configurable.checkpoint_id := Some (Checkpoint.id checkpoint);
          Configurable.checkpoint_parent_id := None |} |}.

(** The two maps when the module is loaded. *)
Definition empty : Storage := {| checkpoints := []; writes := [] |}.

(** [clearStorage()] *)
Definition clearStorage (s : Storage) : Storage := empty.

(** What [getStorageStats()] returns. *)
Record StorageStats : Type := {
  checkpointCount : nat;
  writeGroupCount : nat;
  totalWrites : nat
}.

(** [values.reduce((sum, writes) => sum + writes.length, 0)] *)
Definition total_length (values : list (list StoredWrite.t)) : nat :=
  fold_left (fun sum writes => sum + length writes) values 0.

(** [getStorageStats()] *)
Definition getStorageStats (s : Storage) : StorageStats :=
  {| checkpointCount := JsMap.size (checkpoints s);
     writeGroupCount := JsMap.size (writes s);
     totalWrites := total_length (map snd (writes s)) |}.

(** A world around a storage. *)
Definition world_of (s : Storage) (clock : nat -> Date) (reads : nat)
  : World Storage :=
  {| store := s; clock := clock; reads := reads |}.

(** The checkpoints of a thread and namespace, in the order of their
    keys. *)
Definition checkpoints_of (threadId namespace : string) (s : Storage)
  : list StoredCheckpoint.t :=
  lookup_all (matching threadId namespace s) (checkpoints s).

(** The tuple the saver builds for a stored checkpoint: the pending
    writes are the ones the example holds under the checkpoint's key. *)
Definition tuple_of (s : Storage) (stored : StoredCheckpoint.t)
  : CheckpointTuple.t :=
  CallbackSaver.make_tuple stored
    (CallbackSaver.pending_writes exampleSaver
       (writes_under
          (makeWriteKey (StoredCheckpoint.threadId stored)
                        (StoredCheckpoint.namespace stored)
                        (StoredCheckpoint.checkpointId stored))
          (writes s))).

(** The storage after [putCheckpoint] of each record in turn. *)
Definition filed (records : list StoredCheckpoint.t) : Storage :=
  fold_left (fun s record => snd (putCheckpoint record s)) records empty.

End Example.

(* ================================================================== *)
(** * Properties of the methods *)
(* ================================================================== *)

(** ** Runs of composed computations *)

Section Runs.
Context {B : Type}.

Lemma trace_bind_prefix {A C} (m : M B A) (k : A -> M B C) (w : World B) :
  exists t2, trace (bind m k w) = trace (m w) ++ t2.
Proof.
  unfold bind, trace. destruct (m w) as [[o w1] t1]. destruct o as [a| |].
  - destruct (k a w1) as [[o2 w2] t2]. exists t2. reflexivity.
  - exists []. cbn. now rewrite List.app_nil_r.
  - exists []. cbn. now rewrite List.app_nil_r.
Qed.

Lemma trace_try_catch_prefix {A} (body : M B A) (handler : Thrown -> M B A)
    (w : World B) :
  exists t2, trace (try_catch body handler w) = trace (body w) ++ t2.
Proof.
  unfold try_catch, trace. destruct (body w) as [[o w1] t1]. destruct o as [a|e|].
  - exists []. cbn. now rewrite List.app_nil_r.
  - destruct (handler e w1) as [[o2 w2] t2]. exists t2. reflexivity.
  - exists []. cbn. now rewrite List.app_nil_r.
Qed.

End Runs.

Section Writes.
Context {B : Type}.
Variable this : Config.t B.

(** When every value encodes, building the records reads the clock once
    per write, calls no callback, and numbers the records from [i]
    upwards. *)
Lemma map_from_stored_write (threadId namespace checkpointId taskId : string)
    (writes : list PendingWrite) :
  forallb (fun write => encodes this (snd write)) writes = true ->
  forall (i : nat) (w : World B),
  exists records,
    map_from i (CallbackSaver.stored_write this threadId namespace checkpointId taskId)
             writes w
    = (Returned records,
       {| store := store w; clock := clock w;
          reads := reads w + length writes |}, [])
    /\ map StoredWrite.idx records = map Z.of_nat (seq i (length writes))
    /\ records_of this records writes
    /\ Forall (fun r => StoredWrite.threadId r = threadId
                        /\ StoredWrite.namespace r = namespace
                        /\ StoredWrite.checkpointId r = checkpointId
                        /\ StoredWrite.taskId r = taskId) records.
Proof.
  induction writes as [|[channel value] rest IH]; intros Henc i w.
  - exists []. cbn. rewrite Nat.add_0_r. destruct w; repeat split; constructor.
  - cbn [forallb snd] in Henc. apply andb_prop in Henc.
    destruct Henc as [Hvalue Hrest]. unfold encodes in Hvalue.
    destruct (CallbackSaver.encode this value) as [e|stored] eqn:Evalue;
      [discriminate|].
    destruct (IH Hrest (S i)
                {| store := store w; clock := clock w; reads := S (reads w) |})
      as (records & Hrun & Hidx & Hrec & Hkeys).
    eexists (_ :: records).
    split.
    + cbn [map_from]. unfold bind at 1.
      unfold CallbackSaver.stored_write at 1. rewrite Evalue.
      unfold lift, bind at 1. unfold ret at 1. unfold bind at 1.
      unfold new_Date at 1. cbn [ret List.app].
      unfold bind at 1. rewrite Hrun. cbn.
      repeat f_equal. lia.
    + cbn. rewrite Hidx. repeat split.
      * constructor; [|exact Hrec]. cbn. split; [reflexivity | exact Evalue].
      * constructor; [repeat split | exact Hkeys].
Qed.

End Writes.

(** X20. [putWrites] on a config that carries a thread id and a
    checkpoint id, with values on which [serializeValue] returns,
    invokes the backend's [putWrites] callback exactly once, and no
    other callback; the batch it passes holds one record per pending
    write, in the caller's order, the record at position [i] having
    [idx = i], the write's channel and the encoded form of its value.
    The event of the trace carries what the backend answered on that
    batch; when the backend resolves, [putWrites] returns. *)
Theorem putWrites_idx_is_position :
  forall (B : Type) (this : Config.t B) (config : RunnableConfig.t)
         (writes : list PendingWrite) (taskId : string) (w : World B),
    JS.is_truthy (RunnableConfig.thread_id config) = true ->
    JS.is_truthy (RunnableConfig.checkpoint_id config) = true ->
    forallb (fun write => encodes this (snd write)) writes = true ->
    exists records,
      trace (CallbackSaver.putWrites this config writes taskId w)
      = [PutWrites records (fst (Config.putWrites this records (store w)))]
      /\ store (world_after (CallbackSaver.putWrites this config writes taskId w))
         = snd (Config.putWrites this records (store w))
      /\ (fst (Config.putWrites this records (store w)) = Fulfilled tt ->
          outcome (CallbackSaver.putWrites this config writes taskId w)
          = Returned tt)
      /\ map StoredWrite.idx records = map Z.of_nat (seq 0 (length writes))
      /\ records_of this records writes
      /\ Forall (fun rec => StoredWrite.taskId rec = taskId) records.
Proof.
  intros B this config writes taskId w Ht Hc Henc.
  unfold JS.is_truthy in Ht, Hc.
  destruct (JS.truthy (RunnableConfig.thread_id config)) as [threadId|] eqn:Et;
    [clear Ht | discriminate].
  destruct (JS.truthy (RunnableConfig.checkpoint_id config)) as [checkpointId|] eqn:Ec;
    [clear Hc | discriminate].
  destruct (map_from_stored_write this threadId
              (CallbackSaver.resolve_namespace this config) checkpointId taskId
              writes Henc 0 w)
    as (records & Hrun & Hidx & Hrec & Hkeys).
  exists records.
  assert (E : CallbackSaver.putWrites this config writes taskId w
              = (match fst (Config.putWrites this records (store w)) with
                 | Fulfilled a => Returned a
                 | Rejected e =>
                     Threw (CallbackSaver.rethrown "Failed to save writes" e)
                 end,
                 {| store := snd (Config.putWrites this records (store w));
                    clock := clock w; reads := reads w + length writes |},
                 [PutWrites records
                    (fst (Config.putWrites this records (store w)))])).
  { unfold CallbackSaver.putWrites, try_catch. rewrite Et, Ec.
    unfold bind. rewrite Hrun.
    unfold CallbackSaver.await_putWrites, await. cbn [store].
    destruct (Config.putWrites this records (store w)) as [r s'].
    destruct r; reflexivity. }
  rewrite E. unfold trace, outcome, world_after. cbn [fst snd store].
  split; [reflexivity|]. split; [reflexivity|]. split.
  - intros ->. reflexivity.
  - repeat split; auto.
    eapply Forall_impl; [| exact Hkeys]. cbn. intros a H. apply H.
Qed.

(** The batch [[(c1,v1),(c2,v2),(c3,v3)]] is recorded with idx 0, 1, 2,
    in one call, and the method returns. *)
Lemma putWrites_idx_is_position_witness :
  exists records,
    trace (CallbackSaver.putWrites (CallbackSaver.new Mock.backend)
             (Mock.config_of (Some "t") (Some "c"))
             [("c1", VNum (JS.of_Z 1)); ("c2", VStr (str "x")); ("c3", VNull)] "task"
             (Mock.start Mock.empty))
    = [PutWrites records (Fulfilled tt)]
    /\ outcome (CallbackSaver.putWrites (CallbackSaver.new Mock.backend)
                  (Mock.config_of (Some "t") (Some "c"))
                  [("c1", VNum (JS.of_Z 1)); ("c2", VStr (str "x")); ("c3", VNull)] "task"
                  (Mock.start Mock.empty))
       = Returned tt
    /\ Mock.saved_writes
         (store
            (world_after
               (CallbackSaver.putWrites (CallbackSaver.new Mock.backend)
                  (Mock.config_of (Some "t") (Some "c"))
                  [("c1", VNum (JS.of_Z 1)); ("c2", VStr (str "x")); ("c3", VNull)] "task"
                  (Mock.start Mock.empty))))
       = records
    /\ map StoredWrite.idx records = [0; 1; 2]%Z
    /\ map StoredWrite.channel records = ["c1"; "c2"; "c3"]
    /\ Forall (fun rec => StoredWrite.taskId rec = "task") records.
Proof.
  destruct (putWrites_idx_is_position Mock.Store (CallbackSaver.new Mock.backend)
              (Mock.config_of (Some "t") (Some "c"))
              [("c1", VNum (JS.of_Z 1)); ("c2", VStr (str "x")); ("c3", VNull)] "task"
              (Mock.start Mock.empty) eq_refl eq_refl eq_refl)
    as (records & Htrace & Hstore & Hout & Hidx & Hrec & Htask).
  exists records.
  split; [exact Htrace|]. split; [exact (Hout eq_refl)|].
  split; [rewrite Hstore; reflexivity|]. split; [exact Hidx|].
  split; [|exact Htask].
  clear - Hrec.
  inversion Hrec as [|r1 w1 l1 l1' [H1 _] Hrec1]; subst.
  inversion Hrec1 as [|r2 w2 l2 l2' [H2 _] Hrec2]; subst.
  inversion Hrec2 as [|r3 w3 l3 l3' [H3 _] Hrec3]; subst.
  inversion Hrec3; subst. cbn [map]. cbn [fst] in H1, H2, H3.
  now rewrite H1, H2, H3.
Defined.

(** C2, as stated, fails: with no [thread_id], [getTuple] does not reject
    with the precondition error itself. *)
Lemma getTuple_missing_thread_id_not_as_is :
  outcome (CallbackSaver.getTuple (CallbackSaver.new Mock.backend)
             (Mock.config_of None None) (Mock.start Mock.empty))
  <> Threw (ThrownError
              (CallbackSaverError (str "thread_id is required in config.configurable")
                                  None)).
Proof. cbv. discriminate. Qed.

(** C2, amended. [getTuple] on a config without [thread_id], and
    [putWrites] on a config with [thread_id] but without [checkpoint_id],
    invoke no backend callback and leave the world as it was; each
    rejects with the [CallbackSaverError] of its [catch] block, whose
    message is the method's prefix followed by the precondition message
    and whose cause is the precondition error. *)
Theorem missing_identity_is_wrapped_before_any_call :
  forall (B : Type) (this : Config.t B) (config : RunnableConfig.t)
         (w : World B),
    (JS.is_truthy (RunnableConfig.thread_id config) = false ->
     CallbackSaver.getTuple this config w
     = (Threw (wrapped "Failed to get checkpoint tuple"
                       "thread_id is required in config.configurable"),
        w, []))
    /\
    (forall (writes : list PendingWrite) (taskId : string),
        JS.is_truthy (RunnableConfig.thread_id config) = true ->
        JS.is_truthy (RunnableConfig.checkpoint_id config) = false ->
        CallbackSaver.putWrites this config writes taskId w
        = (Threw (wrapped "Failed to save writes"
                          "checkpoint_id is required in config.configurable"),
           w, [])).
Proof.
  intros B this config w. unfold JS.is_truthy. split.
  - intros H.
    unfold CallbackSaver.getTuple, try_catch.
    destruct (JS.truthy (RunnableConfig.thread_id config)); [discriminate|].
    reflexivity.
  - intros writes taskId Ht Hc.
    unfold CallbackSaver.putWrites, try_catch.
    destruct (JS.truthy (RunnableConfig.thread_id config)); [|discriminate].
    destruct (JS.truthy (RunnableConfig.checkpoint_id config)); [discriminate|].
    reflexivity.
Qed.

Lemma missing_identity_is_wrapped_before_any_call_witness :
  CallbackSaver.getTuple (CallbackSaver.new Mock.backend)
    (Mock.config_of None None) (Mock.start Mock.empty)
  = (Threw (wrapped "Failed to get checkpoint tuple"
                    "thread_id is required in config.configurable"),
     Mock.start Mock.empty, [])
  /\
  CallbackSaver.putWrites (CallbackSaver.new Mock.backend)
    (Mock.config_of (Some "t") None) [("c1", VNum (JS.of_Z 1))] "task"
    (Mock.start Mock.empty)
  = (Threw (wrapped "Failed to save writes"
                    "checkpoint_id is required in config.configurable"),
     Mock.start Mock.empty, []).
Proof.
  split.
  - apply (missing_identity_is_wrapped_before_any_call Mock.Store
             (CallbackSaver.new Mock.backend) (Mock.config_of None None)
             (Mock.start Mock.empty)).
    reflexivity.
  - apply (missing_identity_is_wrapped_before_any_call Mock.Store
             (CallbackSaver.new Mock.backend) (Mock.config_of (Some "t") None)
             (Mock.start Mock.empty)); reflexivity.
Defined.

(** C3. With a thread id in the config, when [getCheckpoint] resolves to
    nothing, [getTuple] returns [undefined]; the one callback of the run
    is that [getCheckpoint] call, so [getWrites] is not invoked. *)
Theorem getTuple_not_found :
  forall (B : Type) (this : Config.t B) (config : RunnableConfig.t)
         (w : World B) (threadId : string) (s' : B),
    JS.truthy (RunnableConfig.thread_id config) = Some threadId ->
    Config.getCheckpoint this threadId
      (CallbackSaver.resolve_namespace this config)
      (RunnableConfig.checkpoint_id config) (store w)
    = (Fulfilled None, s') ->
    CallbackSaver.getTuple this config w
    = (Returned None,
       {| store := s'; clock := clock w; reads := reads w |},
       [GetCheckpoint threadId (CallbackSaver.resolve_namespace this config)
          (RunnableConfig.checkpoint_id config) (Fulfilled None)]).
Proof.
  intros B this config w threadId s' Ht Hcall.
  unfold CallbackSaver.getTuple, try_catch. rewrite Ht.
  unfold bind, CallbackSaver.await_getCheckpoint, await.
  rewrite Hcall. reflexivity.
Qed.

Lemma getTuple_not_found_witness :
  CallbackSaver.getTuple (CallbackSaver.new Mock.backend)
    (Mock.config_of (Some "t") None) (Mock.start Mock.empty)
  = (Returned None, Mock.start Mock.empty,
     [GetCheckpoint "t" "default" None (Fulfilled None)]).
Proof.
  apply (getTuple_not_found Mock.Store (CallbackSaver.new Mock.backend)
           (Mock.config_of (Some "t") None) (Mock.start Mock.empty)
           "t" Mock.empty); reflexivity.
Defined.

(** C6. With a thread id in the config, [put] invokes [putCheckpoint]
    once, and nothing else, with a record whose [checkpointId] is the
    body's [id], whose [parentCheckpointId] is the config's
    [checkpoint_id], under the config's thread id and the namespace
    [checkpoint_ns || this.config.namespace || 'default'], and the event
    of the trace carries what the backend answered on that record.  When
    the backend resolves, [put] returns the config made of exactly that
    thread id, that namespace and the body's id, and leaves the store as
    the backend left it. *)
Theorem put_addresses_the_checkpoint :
  forall (B : Type) (this : Config.t B) (config : RunnableConfig.t)
         (checkpoint : Checkpoint.t) (metadata : CheckpointMetadata)
         (newVersions : list (string * JsValue)) (w : World B)
         (threadId : string),
    JS.truthy (RunnableConfig.thread_id config) = Some threadId ->
    let namespace :=
      match JS.truthy (RunnableConfig.checkpoint_ns config) with
      | Some ns => ns
      | None =>
          match JS.truthy (Config.namespace this) with
          | Some ns => ns
          | None => "default"
          end
      end in
    let stored :=
      {| StoredCheckpoint.threadId := threadId;
         StoredCheckpoint.namespace := namespace;
         StoredCheckpoint.checkpointId := Checkpoint.id checkpoint;
         StoredCheckpoint.parentCheckpointId := RunnableConfig.checkpoint_id config;
         StoredCheckpoint.checkpoint := checkpoint;
         StoredCheckpoint.metadata := metadata;
         StoredCheckpoint.createdAt := clock w (reads w);
         StoredCheckpoint.expiresAt := None |} in
    trace (CallbackSaver.put this config checkpoint metadata newVersions w)
    = [PutCheckpoint stored (fst (Config.putCheckpoint this stored (store w)))]
    /\ store (world_after
                (CallbackSaver.put this config checkpoint metadata newVersions w))
       = snd (Config.putCheckpoint this stored (store w))
    /\ (fst (Config.putCheckpoint this stored (store w)) = Fulfilled tt ->
        outcome (CallbackSaver.put this config checkpoint metadata newVersions w)
        = Returned
            {| RunnableConfig.configurable := Some
                 {| Configurable.thread_id := Some threadId;
                    Configurable.checkpoint_ns := Some namespace;
                    Configurable.checkpoint_id := Some (Checkpoint.id checkpoint);
                    Configurable.checkpoint_parent_id := None |} |}).
Proof.
  intros B this config checkpoint metadata newVersions w threadId Ht
         namespace stored.
  assert (Hns : CallbackSaver.resolve_namespace this config = namespace).
  { unfold CallbackSaver.resolve_namespace, JS.or_lit, JS.or, JS.is_truthy,
      namespace.
    destruct (JS.truthy (RunnableConfig.checkpoint_ns config)) as [ns|] eqn:E.
    - rewrite E. reflexivity.
    - reflexivity. }
  unfold CallbackSaver.put, try_catch. rewrite Ht, Hns.
  unfold bind, new_Date, CallbackSaver.await_putCheckpoint, await. cbn [store].
  fold stored.
  destruct (Config.putCheckpoint this stored (store w)) as [r s'].
  destruct r as [[]|e]; cbn; repeat split; auto. discriminate.
Qed.

(** A config with its own namespace: the backend is handed the record
    under that namespace and keeps it, and [put] returns the config of
    the new checkpoint. *)
Lemma put_addresses_the_checkpoint_witness :
  let run :=
    CallbackSaver.put (CallbackSaver.new Mock.backend)
      {| RunnableConfig.configurable := Some
           {| Configurable.thread_id := Some "t";
              Configurable.checkpoint_ns := Some "custom";
              Configurable.checkpoint_id := Some "a";
              Configurable.checkpoint_parent_id := None |} |}
      (Mock.checkpoint_with_id "b") (VObj []) []
      (Mock.start Mock.empty) in
  let record :=
    {| StoredCheckpoint.threadId := "t";
       StoredCheckpoint.namespace := "custom";
       StoredCheckpoint.checkpointId := "b";
       StoredCheckpoint.parentCheckpointId := Some "a";
       StoredCheckpoint.checkpoint := Mock.checkpoint_with_id "b";
       StoredCheckpoint.metadata := VObj [];
       StoredCheckpoint.createdAt := 0%Z;
       StoredCheckpoint.expiresAt := None |} in
  outcome run
  = Returned
      {| RunnableConfig.configurable := Some
           {| Configurable.thread_id := Some "t";
              Configurable.checkpoint_ns := Some "custom";
              Configurable.checkpoint_id := Some "b";
              Configurable.checkpoint_parent_id := None |} |}
  /\ trace run = [PutCheckpoint record (Fulfilled tt)]
  /\ Mock.saved_checkpoints (store (world_after run)) = [record].
Proof.
  pose proof (put_addresses_the_checkpoint Mock.Store
                (CallbackSaver.new Mock.backend)
                {| RunnableConfig.configurable := Some
                     {| Configurable.thread_id := Some "t";
                        Configurable.checkpoint_ns := Some "custom";
                        Configurable.checkpoint_id := Some "a";
                        Configurable.checkpoint_parent_id := None |} |}
                (Mock.checkpoint_with_id "b") (VObj []) []
                (Mock.start Mock.empty) "t" eq_refl) as H.
  cbv zeta in H. destruct H as (Htrace & Hstore & Hout).
  cbv zeta. split; [|split].
  - exact (Hout eq_refl).
  - exact Htrace.
  - rewrite Hstore. reflexivity.
Defined.

(** C10. When [getCheckpoint] resolves to a stored checkpoint, [getTuple]
    next looks the writes up under the stored checkpoint's own thread id,
    namespace and checkpoint id, and calls nothing else; the event of the
    trace carries what the backend answered to that lookup.  When the
    lookup resolves, [getTuple] returns a tuple whose config carries
    exactly those three (so a concrete [checkpoint_id], whatever the
    caller passed), whose pending writes are the writes looked up, and
    whose [parentConfig] is present exactly when the stored
    [parentCheckpointId] is set, addressing that parent under the same
    thread id and namespace. *)
Theorem getTuple_uses_stored_identity :
  forall (B : Type) (this : Config.t B) (config : RunnableConfig.t)
         (w : World B) (threadId : string) (stored : StoredCheckpoint.t)
         (s' : B),
    JS.truthy (RunnableConfig.thread_id config) = Some threadId ->
    Config.getCheckpoint this threadId
      (CallbackSaver.resolve_namespace this config)
      (RunnableConfig.checkpoint_id config) (store w)
    = (Fulfilled (Some stored), s') ->
    let lookup :=
      Config.getWrites this (StoredCheckpoint.threadId stored)
        (StoredCheckpoint.namespace stored)
        (StoredCheckpoint.checkpointId stored) s' in
    trace (CallbackSaver.getTuple this config w)
    = [GetCheckpoint threadId (CallbackSaver.resolve_namespace this config)
         (RunnableConfig.checkpoint_id config) (Fulfilled (Some stored));
       GetWrites (StoredCheckpoint.threadId stored)
         (StoredCheckpoint.namespace stored)
         (StoredCheckpoint.checkpointId stored) (fst lookup)]
    /\ store (world_after (CallbackSaver.getTuple this config w)) = snd lookup
    /\ forall writes, fst lookup = Fulfilled writes ->
       exists tuple,
         outcome (CallbackSaver.getTuple this config w) = Returned (Some tuple)
         /\ RunnableConfig.thread_id (CheckpointTuple.config tuple)
            = Some (StoredCheckpoint.threadId stored)
         /\ RunnableConfig.checkpoint_ns (CheckpointTuple.config tuple)
            = Some (StoredCheckpoint.namespace stored)
         /\ RunnableConfig.checkpoint_id (CheckpointTuple.config tuple)
            = Some (StoredCheckpoint.checkpointId stored)
         /\ CheckpointTuple.checkpoint tuple = StoredCheckpoint.checkpoint stored
         /\ CheckpointTuple.metadata tuple = StoredCheckpoint.metadata stored
         /\ CheckpointTuple.pendingWrites tuple
            = CallbackSaver.pending_writes this writes
         /\ (CheckpointTuple.parentConfig tuple <> None <->
             JS.is_truthy (StoredCheckpoint.parentCheckpointId stored) = true)
         /\ (forall parent,
                JS.truthy (StoredCheckpoint.parentCheckpointId stored)
                = Some parent ->
                CheckpointTuple.parentConfig tuple
                = Some {| RunnableConfig.configurable := Some
                            {| Configurable.thread_id :=
                                 Some (StoredCheckpoint.threadId stored);
                               Configurable.checkpoint_ns :=
                                 Some (StoredCheckpoint.namespace stored);
                               Configurable.checkpoint_id := Some parent;
                               Configurable.checkpoint_parent_id := None |} |}).
Proof.
  intros B this config w threadId stored s' Ht Hcall lookup.
  assert (Hrun :
    CallbackSaver.getTuple this config w
    = (match fst lookup with
       | Fulfilled writes =>
           Returned (Some (CallbackSaver.make_tuple stored
                             (CallbackSaver.pending_writes this writes)))
       | Rejected e =>
           Threw (CallbackSaver.rethrown "Failed to get checkpoint tuple" e)
       end,
       {| store := snd lookup; clock := clock w; reads := reads w |},
       [GetCheckpoint threadId (CallbackSaver.resolve_namespace this config)
          (RunnableConfig.checkpoint_id config) (Fulfilled (Some stored));
        GetWrites (StoredCheckpoint.threadId stored)
          (StoredCheckpoint.namespace stored)
          (StoredCheckpoint.checkpointId stored) (fst lookup)])).
  { unfold CallbackSaver.getTuple, try_catch. rewrite Ht.
    unfold bind, CallbackSaver.await_getCheckpoint, await.
    rewrite Hcall.
    unfold CallbackSaver.await_getWrites, await. cbn [store].
    fold lookup. destruct lookup as [r s'']. destruct r; reflexivity. }
  rewrite Hrun. split; [reflexivity|]. split; [reflexivity|].
  intros writes ->. eexists. split; [reflexivity|].
  unfold JS.is_truthy. cbn.
  destruct (JS.truthy (StoredCheckpoint.parentCheckpointId stored)) as [p|].
  - repeat split; auto; try discriminate.
    intros parent [= <-]. reflexivity.
  - repeat split; auto; try discriminate; congruence.
Qed.

(** A caller that names thread [caller] and no checkpoint id, a backend
    whose latest checkpoint is [b] of thread [t] with parent [a]: the
    lookup and the tuple are about [t] and [b], the parent config about
    [a]. *)
Lemma getTuple_uses_stored_identity_witness :
  exists tuple,
    outcome
      (CallbackSaver.getTuple (CallbackSaver.new Mock.backend)
         (Mock.config_of (Some "caller") None)
         (Mock.start
            {| Mock.latest := Some (Mock.stored "t" "b" (Some "a"));
               Mock.writes := []; Mock.script := [];
               Mock.saved_checkpoints := []; Mock.saved_writes := [] |}))
    = Returned (Some tuple)
    /\ trace
         (CallbackSaver.getTuple (CallbackSaver.new Mock.backend)
            (Mock.config_of (Some "caller") None)
            (Mock.start
               {| Mock.latest := Some (Mock.stored "t" "b" (Some "a"));
                  Mock.writes := []; Mock.script := [];
                  Mock.saved_checkpoints := []; Mock.saved_writes := [] |}))
       = [GetCheckpoint "caller" "default" None
            (Fulfilled (Some (Mock.stored "t" "b" (Some "a"))));
          GetWrites "t" "default" "b" (Fulfilled [])]
    /\ RunnableConfig.thread_id (CheckpointTuple.config tuple) = Some "t"
    /\ RunnableConfig.checkpoint_ns (CheckpointTuple.config tuple) = Some "default"
    /\ RunnableConfig.checkpoint_id (CheckpointTuple.config tuple) = Some "b"
    /\ CheckpointTuple.parentConfig tuple
       = Some {| RunnableConfig.configurable := Some
                   {| Configurable.thread_id := Some "t";
                      Configurable.checkpoint_ns := Some "default";
                      Configurable.checkpoint_id := Some "a";
                      Configurable.checkpoint_parent_id := None |} |}
    /\ CheckpointTuple.pendingWrites tuple = [].
Proof.
  pose proof (getTuple_uses_stored_identity Mock.Store
                (CallbackSaver.new Mock.backend)
                (Mock.config_of (Some "caller") None)
                (Mock.start
                   {| Mock.latest := Some (Mock.stored "t" "b" (Some "a"));
                      Mock.writes := []; Mock.script := [];
                      Mock.saved_checkpoints := []; Mock.saved_writes := [] |})
                "caller" (Mock.stored "t" "b" (Some "a"))
                {| Mock.latest := Some (Mock.stored "t" "b" (Some "a"));
                   Mock.writes := []; Mock.script := [];
                   Mock.saved_checkpoints := []; Mock.saved_writes := [] |}
                eq_refl eq_refl) as H.
  cbv zeta in H. destruct H as (Htrace & _ & Htuple).
  destruct (Htuple [] eq_refl)
    as (tuple & Hout & Hthread & Hns & Hid & _ & _ & Hpending & _ & Hparent).
  exists tuple.
  split; [exact Hout|]. split; [exact Htrace|]. split; [exact Hthread|].
  split; [exact Hns|]. split; [exact Hid|].
  split; [exact (Hparent "a" eq_refl) | exact Hpending].
Defined.

(** The first request of a [list] run is [first_request]. *)
Lemma list_first_request :
  forall (B : Type) (this : Config.t B) (fuel : nat)
         (config : RunnableConfig.t) (options : option CheckpointListOptions.t)
         (_before : option RunnableConfig.t) (_limit : option Z)
         (w : World B) (threadId : string),
    JS.truthy (RunnableConfig.thread_id config) = Some threadId ->
    hd_error
      (listing_requests
         (trace (CallbackSaver.list this (S fuel) config options _before _limit w)))
    = Some (first_request this config threadId options _before _limit).
Proof.
  intros B this fuel config options _before _limit w threadId Ht.
  unfold CallbackSaver.list. rewrite Ht.
  fold (first_request this config threadId options _before _limit).
  set (o := first_request this config threadId options _before _limit).
  destruct (trace_try_catch_prefix
              (CallbackSaver.list_pages this (S fuel) o)
              (CallbackSaver.rethrow "Failed to list checkpoints") w)
    as [t2 ->].
  cbn [CallbackSaver.list_pages].
  destruct (trace_bind_prefix
              (CallbackSaver.await_listCheckpoints this o)
              (fun page =>
                 let (result, listOptions) := page in
                 _ <- for_of (ListResult.checkpoints result)
                        (CallbackSaver.yield_checkpoint this) ;;
                 match JS.truthy (ListResult.nextCursor result) with
                 | Some cursor =>
                     CallbackSaver.list_pages this fuel
                       (ListCheckpointsOptions.set_before listOptions (Some cursor))
                 | None => ret tt
                 end) w) as [t3 ->].
  unfold CallbackSaver.await_listCheckpoints, trace.
  destruct (Config.listCheckpoints this o (store w)) as [[r o'] s'].
  reflexivity.
Qed.

(** C9 at the failing input: the caller asks for the checkpoints before
    [cp-2] through [options.before]; the request the backend receives
    has no [before]. *)
Lemma list_ignores_options_before :
  hd_error
    (listing_requests
       (trace (CallbackSaver.list (CallbackSaver.new Mock.backend) 5
                 (Mock.config_of (Some "t") None)
                 (Some {| CheckpointListOptions.limit := Some 10%Z;
                          CheckpointListOptions.before :=
                            Some (Mock.config_of (Some "t") (Some "cp-2"));
                          CheckpointListOptions.filter := None |})
                 None None (Mock.start Mock.two_pages))))
  = Some {| ListCheckpointsOptions.threadId := "t";
            ListCheckpointsOptions.namespace := "default";
            ListCheckpointsOptions.limit := Some 10%Z;
            ListCheckpointsOptions.before := None;
            ListCheckpointsOptions.filter := None |}.
Proof. reflexivity. Qed.

(** ** The error boundary *)

Section Boundary.
Context {B : Type}.
Variable this : Config.t B.

Lemma clean_silent {A} (m : M B A) :
  (forall w, trace (m w) = []) -> clean m.
Proof. intros H w. left. rewrite H. constructor. Qed.

Lemma clean_lift {A} (r : Thrown + A) : clean (lift (B:=B) r).
Proof. destruct r; apply clean_silent; reflexivity. Qed.

Lemma clean_await {A} (call : B -> Settled A * B) (log : Settled A -> Event) :
  (forall r, rejection (log r) = reason_of r) ->
  clean (await call log).
Proof.
  intros Hlog w. unfold clean_run, await, trace, outcome.
  destruct (call (store w)) as [r s']. cbn.
  destruct r as [a|e].
  - left. constructor; [|constructor]. now rewrite Hlog.
  - right. exists [], (log (Rejected e)), e. cbn.
    repeat split; auto.
Qed.

Lemma clean_await_listCheckpoints (o : ListCheckpointsOptions.t) :
  clean (CallbackSaver.await_listCheckpoints this o).
Proof.
  intros w. unfold clean_run, CallbackSaver.await_listCheckpoints, trace, outcome.
  destruct (Config.listCheckpoints this o (store w)) as [[r o'] s']. cbn.
  destruct r as [a|e].
  - left. constructor; [reflexivity|constructor].
  - right. exists [], (ListCheckpoints o (Rejected e)), e. cbn.
    repeat split; auto.
Qed.

Lemma clean_bind {A C} (m : M B A) (k : A -> M B C) :
  clean m -> (forall a, clean (k a)) -> clean (bind m k).
Proof.
  intros Hm Hk w. specialize (Hm w). unfold clean_run, bind in *.
  destruct (m w) as [[o w1] t1]. unfold trace, outcome in *. cbn in *.
  destruct o as [a|e|].
  - specialize (Hk a w1). unfold clean_run, trace, outcome in Hk.
    destruct (k a w1) as [[o2 w2] t2]. cbn in *.
    destruct Hm as [Hm | (earlier & ev & reason & Ht & _ & _ & Ho)];
      [|discriminate].
    destruct Hk as [Hk | (earlier & ev & reason & Ht & Hearlier & Hev & Ho)].
    + left. apply Forall_app. split; assumption.
    + right. exists (t1 ++ earlier), ev, reason. subst t2.
      rewrite app_assoc. repeat split; auto.
      apply Forall_app. split; assumption.
  - destruct Hm as [Hm | (earlier & ev & reason & Ht & Hearlier & Hev & Ho)].
    + left. exact Hm.
    + right. exists earlier, ev, reason. injection Ho as ->. repeat split; auto.
  - destruct Hm as [Hm | (earlier & ev & reason & Ht & _ & _ & Ho)];
      [left; exact Hm | discriminate].
Qed.

Lemma clean_for_of {A} (l : list A) (body : A -> M B unit) :
  (forall x, clean (body x)) -> clean (for_of l body).
Proof.
  intros Hbody. induction l as [|x l IH]; cbn [for_of].
  - apply clean_silent. reflexivity.
  - apply clean_bind; [apply Hbody | intros _; exact IH].
Qed.

Lemma clean_map_from {A C} (f : A -> nat -> M B C) (l : list A) :
  (forall x i, clean (f x i)) -> forall i, clean (map_from i f l).
Proof.
  intros Hf. induction l as [|x l IH]; intros i; cbn [map_from].
  - apply clean_silent. reflexivity.
  - apply clean_bind; [apply Hf|]. intros y.
    apply clean_bind; [apply IH|]. intros ys.
    apply clean_silent. reflexivity.
Qed.

Lemma clean_yield_checkpoint (c : StoredCheckpoint.t) :
  clean (CallbackSaver.yield_checkpoint this c).
Proof.
  unfold CallbackSaver.yield_checkpoint.
  apply clean_bind.
  - apply clean_await. reflexivity.
  - intros writes w. left. cbn. constructor; [reflexivity|constructor].
Qed.

Lemma clean_list_pages (fuel : nat) :
  forall o, clean (CallbackSaver.list_pages this fuel o).
Proof.
  induction fuel as [|fuel IH]; intros o; cbn [CallbackSaver.list_pages].
  - apply clean_silent. reflexivity.
  - apply clean_bind; [apply clean_await_listCheckpoints|].
    intros [result o'].
    apply clean_bind.
    + apply clean_for_of. apply clean_yield_checkpoint.
    + intros _. destruct (JS.truthy (ListResult.nextCursor result)).
      * apply IH.
      * apply clean_silent. reflexivity.
Qed.

(** A clean body under a method's [catch] block surfaces its rejection. *)
Lemma boundary {A} (what : string) (body : M B A) :
  clean body ->
  surfaces what (try_catch body (CallbackSaver.rethrow what)).
Proof.
  intros Hbody w ev reason Hin Hev.
  specialize (Hbody w). unfold clean_run in Hbody.
  unfold try_catch in *. destruct (body w) as [[o w1] t1].
  assert (Hcases :
            Forall (fun x => rejection x = None) t1
            \/ exists earlier,
                 t1 = earlier ++ [ev]
                 /\ Forall (fun x => rejection x = None) earlier
                 /\ o = Threw reason
                 /\ In ev t1).
  { assert (Hin1 : In ev t1).
    { destruct o; unfold trace in Hin; cbn in Hin; auto.
      now rewrite List.app_nil_r in Hin. }
    unfold trace, outcome in Hbody. cbn in Hbody.
    destruct Hbody as [Hok | (earlier & ev' & reason' & Ht & Hearlier & Hev' & Ho)];
      [left; exact Hok|].
    right. subst t1 o. apply in_app_or in Hin1.
    destruct Hin1 as [Hin1 | [<- | []]].
    - rewrite Forall_forall in Hearlier. rewrite (Hearlier ev Hin1) in Hev.
      discriminate.
    - rewrite Hev in Hev'. injection Hev' as <-.
      exists earlier. repeat split; auto. apply in_or_app. right. now left. }
  destruct Hcases as [Hok | (earlier & Ht & Hearlier & Ho & Hin1)].
  - exfalso. assert (Hin1 : In ev t1).
    { destruct o; unfold trace in Hin; cbn in Hin; auto.
      now rewrite List.app_nil_r in Hin. }
    rewrite Forall_forall in Hok. rewrite (Hok ev Hin1) in Hev. discriminate.
  - subst o. unfold trace, outcome. cbn. rewrite List.app_nil_r.
    split; [reflexivity|]. exists earlier. split; auto.
Qed.

Lemma surfaces_gives_error {A} (what : string) (m : M B A) :
  surfaces what m -> surfaces_error what m.
Proof.
  intros H w ev e Hin Hev. exact (H w ev (ThrownError e) Hin Hev).
Qed.

End Boundary.

Section Operations.
Context {B : Type}.
Variable this : Config.t B.

Lemma getTuple_surfaces (config : RunnableConfig.t) :
  surfaces "Failed to get checkpoint tuple" (CallbackSaver.getTuple this config).
Proof.
  unfold CallbackSaver.getTuple. apply boundary.
  destruct (JS.truthy (RunnableConfig.thread_id config)) as [threadId|].
  - apply clean_bind; [apply clean_await; reflexivity|].
    intros [stored|].
    + apply clean_bind; [apply clean_await; reflexivity|].
      intros writes. apply clean_silent. reflexivity.
    + apply clean_silent. reflexivity.
  - apply clean_silent. reflexivity.
Qed.

Lemma list_surfaces (fuel : nat) (config : RunnableConfig.t)
    (options : option CheckpointListOptions.t)
    (_before : option RunnableConfig.t) (_limit : option Z) :
  surfaces "Failed to list checkpoints"
           (CallbackSaver.list this fuel config options _before _limit).
Proof.
  unfold CallbackSaver.list. apply boundary.
  destruct (JS.truthy (RunnableConfig.thread_id config)) as [threadId|].
  - apply clean_list_pages.
  - apply clean_silent. reflexivity.
Qed.

Lemma put_surfaces (config : RunnableConfig.t) (checkpoint : Checkpoint.t)
    (metadata : CheckpointMetadata) (newVersions : list (string * JsValue)) :
  surfaces "Failed to save checkpoint"
           (CallbackSaver.put this config checkpoint metadata newVersions).
Proof.
  unfold CallbackSaver.put. apply boundary.
  destruct (JS.truthy (RunnableConfig.thread_id config)) as [threadId|].
  - apply clean_bind; [apply clean_silent; reflexivity|].
    intros createdAt.
    apply clean_bind; [apply clean_await; reflexivity|].
    intros _. apply clean_silent. reflexivity.
  - apply clean_silent. reflexivity.
Qed.

Lemma putWrites_surfaces (config : RunnableConfig.t)
    (writes : list PendingWrite) (taskId : string) :
  surfaces "Failed to save writes"
           (CallbackSaver.putWrites this config writes taskId).
Proof.
  unfold CallbackSaver.putWrites. apply boundary.
  destruct (JS.truthy (RunnableConfig.thread_id config)) as [threadId|].
  - destruct (JS.truthy (RunnableConfig.checkpoint_id config)) as [checkpointId|].
    + apply clean_bind.
      * apply clean_map_from. intros [channel value] i.
        unfold CallbackSaver.stored_write.
        apply clean_bind; [apply clean_lift|]. intros stored.
        apply clean_bind; [apply clean_silent; reflexivity|].
        intros createdAt. apply clean_silent. reflexivity.
      * intros records. apply clean_await. reflexivity.
    + apply clean_silent. reflexivity.
  - apply clean_silent. reflexivity.
Qed.

Lemma deleteThread_surfaces (threadId : string) :
  surfaces "Failed to delete thread" (CallbackSaver.deleteThread this threadId).
Proof.
  unfold CallbackSaver.deleteThread. apply boundary.
  apply clean_await. reflexivity.
Qed.

End Operations.

(** C4. In each of [getTuple], [list], [put], [putWrites] and
    [deleteThread], when a backend callback of the run rejects with an
    error [e], the method throws one [CallbackSaverError] whose message
    is the method's own text (get checkpoint tuple, list checkpoints,
    save checkpoint, save writes, delete thread) followed by [e]'s
    message and whose cause is [e]; the rejected call is the last event
    of the run and the only rejected one, so the callback is not invoked
    again. *)
Theorem backend_rejection_is_wrapped_once :
  forall (B : Type) (this : Config.t B) (config : RunnableConfig.t),
    surfaces_error "Failed to get checkpoint tuple"
                   (CallbackSaver.getTuple this config)
    /\ (forall fuel options _before _limit,
           surfaces_error "Failed to list checkpoints"
                          (CallbackSaver.list this fuel config options _before _limit))
    /\ (forall checkpoint metadata newVersions,
           surfaces_error "Failed to save checkpoint"
                          (CallbackSaver.put this config checkpoint metadata newVersions))
    /\ (forall writes taskId,
           surfaces_error "Failed to save writes"
                          (CallbackSaver.putWrites this config writes taskId))
    /\ (forall threadId,
           surfaces_error "Failed to delete thread"
                          (CallbackSaver.deleteThread this threadId)).
Proof.
  intros B this config.
  split; [|split; [|split; [|split]]]; intros; apply surfaces_gives_error.
  - apply getTuple_surfaces.
  - apply list_surfaces.
  - apply put_surfaces.
  - apply putWrites_surfaces.
  - apply deleteThread_surfaces.
Qed.

(** The test's backend: [getCheckpoint] rejects with
    [new Error('Database down')]. *)
Lemma backend_rejection_is_wrapped_once_witness :
  outcome (CallbackSaver.getTuple
             (CallbackSaver.new (Mock.down (ThrownError (JS.Error "Database down"))))
             (Mock.config_of (Some "test") None) (Mock.start Mock.empty))
  = Threw (ThrownError
             (CallbackSaverError
                (str "Failed to get checkpoint tuple: Database down")
                (Some (JS.Error "Database down"))))
  /\ exists earlier,
       trace (CallbackSaver.getTuple
                (CallbackSaver.new (Mock.down (ThrownError (JS.Error "Database down"))))
                (Mock.config_of (Some "test") None) (Mock.start Mock.empty))
       = earlier ++ [GetCheckpoint "test" "default" None
                       (Rejected (ThrownError (JS.Error "Database down")))]
       /\ Forall (fun x => rejection x = None) earlier.
Proof.
  apply (proj1 (backend_rejection_is_wrapped_once Mock.Store
                  (CallbackSaver.new (Mock.down (ThrownError (JS.Error "Database down"))))
                  (Mock.config_of (Some "test") None))
               (Mock.start Mock.empty)
               (GetCheckpoint "test" "default" None
                  (Rejected (ThrownError (JS.Error "Database down"))))
               (JS.Error "Database down")).
  - cbn. left. reflexivity.
  - reflexivity.
Defined.

(** A callback may reject with something that is not an [Error]: the
    [CallbackSaverError] then has no cause, and its message ends with
    the string rendering of the reason. *)
Lemma rejection_with_a_non_error :
  CallbackSaver.getTuple
    (CallbackSaver.new (Mock.down (ThrownValue (VStr (str "boom")))))
    (Mock.config_of (Some "test") None) (Mock.start Mock.empty)
  = (Threw (ThrownError
              (CallbackSaverError (str "Failed to get checkpoint tuple: boom") None)),
     Mock.start Mock.empty,
     [GetCheckpoint "test" "default" None (Rejected (ThrownValue (VStr (str "boom"))))]).
Proof. reflexivity. Qed.

(** ** Listing *)

Lemma pages_app (t1 t2 : Trace) : pages (t1 ++ t2) = pages t1 ++ pages t2.
Proof.
  induction t1 as [|ev t1 IH]; [reflexivity|].
  destruct ev as [| | | |o [p|e]| |]; cbn; rewrite ?IH; reflexivity.
Qed.

Lemma yields_app (t1 t2 : Trace) : yields (t1 ++ t2) = yields t1 ++ yields t2.
Proof.
  induction t1 as [|ev t1 IH]; [reflexivity|].
  destruct ev; cbn; rewrite ?IH; reflexivity.
Qed.

Lemma listing_requests_app (t1 t2 : Trace) :
  listing_requests (t1 ++ t2) = listing_requests t1 ++ listing_requests t2.
Proof.
  induction t1 as [|ev t1 IH]; [reflexivity|].
  destruct ev; cbn; rewrite ?IH; reflexivity.
Qed.

Section Listing.
Context {B : Type}.
Variable this : Config.t B.

(** One turn of the inner loop: a writes lookup, then a yield. *)
Lemma yield_checkpoint_run (c : StoredCheckpoint.t) (w : World B) :
  (exists writes w',
      CallbackSaver.yield_checkpoint this c w
      = (Returned tt, w',
         [GetWrites (StoredCheckpoint.threadId c) (StoredCheckpoint.namespace c)
            (StoredCheckpoint.checkpointId c) (Fulfilled writes);
          Yield (CallbackSaver.make_tuple c
                   (CallbackSaver.pending_writes this writes))]))
  \/ (exists e w',
         CallbackSaver.yield_checkpoint this c w
         = (Threw e, w',
            [GetWrites (StoredCheckpoint.threadId c) (StoredCheckpoint.namespace c)
               (StoredCheckpoint.checkpointId c) (Rejected e)])).
Proof.
  unfold CallbackSaver.yield_checkpoint, bind, CallbackSaver.await_getWrites,
    await, yield.
  destruct (Config.getWrites this (StoredCheckpoint.threadId c)
              (StoredCheckpoint.namespace c) (StoredCheckpoint.checkpointId c)
              (store w)) as [[writes|e] s'].
  - left. eexists _, _. reflexivity.
  - right. eexists _, _. reflexivity.
Qed.

(** The inner loop asks for no page, never runs out of fuel, and when it
    returns it has yielded one tuple per checkpoint, in order. *)
Lemma for_of_yield_run (cs : list StoredCheckpoint.t) :
  forall (w : World B) out w' t,
    for_of cs (CallbackSaver.yield_checkpoint this) w = (out, w', t) ->
    pages t = []
    /\ listing_requests t = []
    /\ out <> Running
    /\ (out = Returned tt -> Forall2 (assembled this) (yields t) cs).
Proof.
  induction cs as [|c cs IH]; intros w out w' t Hrun.
  - cbn in Hrun. injection Hrun as <- <- <-.
    repeat split; try discriminate. constructor.
  - cbn [for_of] in Hrun. unfold bind in Hrun.
    destruct (yield_checkpoint_run c w) as [(writes & w1 & E) | (e & w1 & E)];
      rewrite E in Hrun.
    + destruct (for_of cs (CallbackSaver.yield_checkpoint this) w1)
        as [[o2 w2] t2] eqn:Erest.
      injection Hrun as <- <- <-.
      destruct (IH _ _ _ _ Erest) as (Hp & Hr & Hne & Hy).
      cbn. repeat split; auto.
      intros Ho. constructor; [|auto].
      exists writes. reflexivity.
    + injection Hrun as <- <- <-. cbn. repeat split; discriminate.
Qed.


(** A run of the paging loop that came to an end is the same run with
    any more fuel. *)
Lemma list_pages_more_fuel (fuel : nat) :
  forall (o : ListCheckpointsOptions.t) (w : World B) out w' t (more : nat),
    CallbackSaver.list_pages this fuel o w = (out, w', t) ->
    out <> Running ->
    CallbackSaver.list_pages this (fuel + more) o w = (out, w', t).
Proof.
  induction fuel as [|fuel IH]; intros o w out w' t more Hrun Hout.
  - cbn in Hrun. injection Hrun as <- <- <-. contradiction.
  - cbn [CallbackSaver.list_pages Nat.add] in *. unfold bind at 1 in Hrun.
    unfold bind at 1.
    destruct (CallbackSaver.await_listCheckpoints this o w)
      as [[[[page o']|e|] w1] t1]; try exact Hrun.
    unfold bind at 1 in Hrun. unfold bind at 1.
    destruct (for_of (ListResult.checkpoints page)
                (CallbackSaver.yield_checkpoint this) w1)
      as [[[[]|e|] w2] t2]; try exact Hrun.
    destruct (JS.truthy (ListResult.nextCursor page)) as [cursor|];
      [|exact Hrun].
    destruct (CallbackSaver.list_pages this fuel
                (ListCheckpointsOptions.set_before o' (Some cursor)) w2)
      as [[o3 w3] t3] eqn:Erest.
    injection Hrun as <- <- <-.
    rewrite (IH _ _ _ _ _ more Erest Hout). reflexivity.
Qed.

End Listing.




(* ================================================================== *)
(** * The JSON round trip *)
(* ================================================================== *)

Module StringFacts.

Lemma append_assoc (a b c : string) : ((a ++ b) ++ c = a ++ (b ++ c))%string.
Proof. induction a as [|x a IH]; cbn; [reflexivity | now rewrite IH]. Qed.

End StringFacts.

Module NumberFacts.

Local Open Scope Z_scope.

Lemma value_from (ds : list Z) (acc : Z) :
  fold_left (fun acc d => 10 * acc + d) ds acc
  = acc * 10 ^ Z.of_nat (length ds) + value ds.
Proof.
  unfold value. revert acc.
  induction ds as [|d ds IH]; intros acc.
  - cbn. lia.
  - cbn [fold_left length]. rewrite IH, (IH (10 * 0 + d)).
    rewrite Nat2Z.inj_succ, Z.pow_succ_r by lia. lia.
Qed.

Lemma value_app (a b : list Z) :
  value (a ++ b) = value a * 10 ^ Z.of_nat (length b) + value b.
Proof. unfold value at 1. rewrite fold_left_app. apply value_from. Qed.

Lemma value_cons (d : Z) (ds : list Z) :
  value (d :: ds) = d * 10 ^ Z.of_nat (length ds) + value ds.
Proof. change (d :: ds) with ([d] ++ ds). rewrite value_app. reflexivity. Qed.

Lemma value_zeros (n : nat) : value (repeat 0 n) = 0.
Proof.
  induction n as [|n IH]; [reflexivity|].
  cbn [repeat]. rewrite value_cons, IH. lia.
Qed.

Lemma value_nonneg (ds : list Z) : Forall digit ds -> 0 <= value ds.
Proof.
  induction 1 as [|d ds Hd _ IH]; [reflexivity|].
  rewrite value_cons. unfold digit in Hd.
  assert (0 <= 10 ^ Z.of_nat (length ds)) by (apply Z.pow_nonneg; lia). nia.
Qed.

(** The digits of a number. *)
Lemma digits_from_spec (fuel : nat) :
  forall n, 0 <= n < 2 ^ Z.of_nat (S fuel) ->
    Forall digit (digits_from (S fuel) n)
    /\ value (digits_from (S fuel) n) = n
    /\ digits_from (S fuel) n <> []
    /\ (0 < n -> exists d ds, digits_from (S fuel) n = d :: ds /\ d <> 0).
Proof.
  induction fuel as [|fuel IH]; intros n Hn.
  - change (2 ^ Z.of_nat 1) with 2 in Hn.
    cbn [digits_from]. destruct (Z.ltb_spec n 10) as [Hlt|Hge]; [|lia].
    split; [|split; [|split]].
    + constructor; [unfold digit; lia | constructor].
    + cbn. lia.
    + discriminate.
    + intros Hpos. exists n, []. split; [reflexivity | lia].
  - remember (S fuel) as f eqn:Ef.
    cbn [digits_from]. destruct (Z.ltb_spec n 10) as [Hlt|Hge].
    + split; [|split; [|split]].
      * constructor; [unfold digit; lia | constructor].
      * cbn. lia.
      * discriminate.
      * intros Hpos. exists n, []. split; [reflexivity | lia].
    + assert (Hdiv : 0 <= n / 10 < 2 ^ Z.of_nat f).
      { rewrite Nat2Z.inj_succ, Z.pow_succ_r in Hn by lia.
        split; [apply Z.div_pos; lia|].
        apply Z.div_lt_upper_bound; lia. }
      subst f.
      destruct (IH _ Hdiv) as (Hall & Hval & Hne & Hhead).
      split; [|split; [|split]].
      * apply Forall_app. split; [exact Hall|].
        constructor; [|constructor]. unfold digit.
        pose proof (Z.mod_pos_bound n 10). lia.
      * rewrite value_app, Hval. cbn [length value fold_left].
        pose proof (Z.div_mod n 10). lia.
      * intros E. apply app_eq_nil in E. destruct E as [_ E]. discriminate.
      * intros _. destruct Hhead as (d & ds & E & Hd).
        { apply Z.div_str_pos. lia. }
        exists d, (ds ++ [n mod 10]). rewrite E. split; [reflexivity | exact Hd].
Qed.

Lemma digits_spec (n : Z) :
  0 <= n ->
  Forall digit (digits n)
  /\ value (digits n) = n
  /\ digits n <> []
  /\ (0 < n -> exists d ds, digits n = d :: ds /\ d <> 0).
Proof.
  intros Hn. apply digits_from_spec. split; [exact Hn|].
  rewrite Nat2Z.inj_succ.
  destruct (Z.eq_dec n 0) as [->|Hne]; [cbn; lia|].
  rewrite Z2Nat.id by apply Z.log2_nonneg.
  apply Z.log2_spec. lia.
Qed.

(** ** Rounding a number that is exact *)

Lemma round_ratio_exact (negative : bool) (p q m e : Z) :
  0 < q ->
  is_double (Finite negative m e) = true ->
  p * 2 ^ 1074 = m * 2 ^ (e + 1074) * q ->
  round_ratio negative p q = Finite negative m e.
Proof.
  intros Hq Hd Hp. unfold is_double in Hd.
  apply andb_prop in Hd. destruct Hd as [Hd Hnorm].
  apply andb_prop in Hd. destruct Hd as [Hd Hemax].
  apply andb_prop in Hd. destruct Hd as [Hd Hemin].
  apply andb_prop in Hd. destruct Hd as [Hm0 Hm53].
  apply Z.leb_le in Hm0, Hemax, Hemin. apply Z.ltb_lt in Hm53.
  unfold round_ratio. rewrite Hp.
  rewrite Z.div_mul, Z.mod_mul by lia.
  set (k := e + 1074) in *.
  assert (Hk : 0 <= k) by (unfold k; lia).
  assert (Hpow : 0 < 2 ^ k) by (apply Z.pow_pos_nonneg; lia).
  assert (Hsh : (if m * 2 ^ k =? 0 then 0 else Z.log2 (m * 2 ^ k) + 1) - 53 <= k
                /\ (0 < k -> (if m * 2 ^ k =? 0 then 0
                              else Z.log2 (m * 2 ^ k) + 1) - 53 = k)).
  { destruct (Z.eqb_spec (m * 2 ^ k) 0) as [E|E]; [split; [lia|]|].
    - intros Hk0. apply orb_prop in Hnorm. destruct Hnorm as [H|H].
      + apply Z.leb_le in H. assert (m = 0) by nia. subst m.
        assert (0 < 2 ^ 52) by (apply Z.pow_pos_nonneg; lia). lia.
      + apply Z.eqb_eq in H. unfold k in Hk0. lia.
    - assert (Hmpos : 0 < m) by nia.
      rewrite Z.log2_mul_pow2 by lia.
      assert (Hlog : Z.log2 m < 53) by (apply Z.log2_lt_pow2; lia).
      split; [lia|]. intros Hk0.
      apply orb_prop in Hnorm. destruct Hnorm as [H|H].
      + apply Z.leb_le in H.
        assert (52 <= Z.log2 m) by (apply Z.log2_le_pow2; lia). lia.
      + apply Z.eqb_eq in H. unfold k in Hk0. lia. }
  destruct Hsh as [Hle Heq].
  set (bits := if m * 2 ^ k =? 0 then 0 else Z.log2 (m * 2 ^ k) + 1) in *.
  assert (Hmax : Z.max 0 (bits - 53) = k \/ (Z.max 0 (bits - 53) = 0 /\ k = 0)).
  { destruct (Z.eq_dec k 0) as [Hk0|Hk0].
    - right. split; [|exact Hk0]. lia.
    - left. rewrite Heq by lia. lia. }
  assert (Hcut : m * 2 ^ k / 2 ^ Z.max 0 (bits - 53) = m
                 /\ (m * 2 ^ k) mod 2 ^ Z.max 0 (bits - 53) = 0
                 /\ Z.max 0 (bits - 53) = k).
  { destruct Hmax as [->|[-> ->]].
    - rewrite Z.div_mul, Z.mod_mul by lia. repeat split.
    - rewrite Z.pow_0_r, Z.mul_1_r, Z.div_1_r, Z.mod_1_r. repeat split. }
  destruct Hcut as (-> & -> & ->).
  assert (Hlt : (2 * (0 * q + 0) ?= 2 ^ k * q) = Lt).
  { apply Z.compare_lt_iff. nia. }
  rewrite Hlt.
  destruct (Z.eqb_spec m (2 ^ 53)) as [E|_]; [lia|].
  replace (k - 1074) with e by (unfold k; lia).
  destruct (Z.ltb_spec 971 e); [lia | reflexivity].
Qed.

Lemma exact_decimal_reads_back (negative : bool) (m e : Z) :
  is_double (Finite negative m e) = true ->
  round_decimal negative (fst (exact_decimal m e)) (snd (exact_decimal m e))
  = Finite negative m e.
Proof.
  intros Hd. pose proof Hd as Hd'. unfold is_double in Hd'.
  apply andb_prop in Hd'. destruct Hd' as [Hd' _].
  apply andb_prop in Hd'. destruct Hd' as [Hd' _].
  apply andb_prop in Hd'. destruct Hd' as [_ Hemin]. apply Z.leb_le in Hemin.
  unfold exact_decimal, round_decimal.
  destruct (Z.leb_spec 0 e) as [He|He]; cbn [fst snd].
  - cbn [Z.leb Z.compare]. apply round_ratio_exact; [lia | exact Hd|].
    rewrite Z.pow_0_r, Z.pow_add_r by lia. lia.
  - destruct (Z.leb_spec 0 e); [lia|].
    apply round_ratio_exact; [apply Z.pow_pos_nonneg; lia | exact Hd|].
    replace 10 with (2 * 5) by reflexivity.
    rewrite Z.pow_mul_l.
    replace (2 ^ 1074) with (2 ^ (e + 1074) * 2 ^ (- e))
      by (rewrite <- Z.pow_add_r by lia; f_equal; lia).
    lia.
Qed.

Lemma number_eqb_eq (x y : Number) : number_eqb x y = true -> x = y.
Proof.
  destruct x as [|a|a m e], y as [|b|b m' e']; cbn; try discriminate; auto.
  - intros H. apply Bool.eqb_prop in H. now subst.
  - intros H. apply andb_prop in H. destruct H as [H He].
    apply andb_prop in H. destruct H as [Hb Hm].
    apply Bool.eqb_prop in Hb. apply Z.eqb_eq in Hm, He. now subst.
Qed.

(** The sign is carried along. *)
Lemma round_decimal_sign (negative : bool) (d x : Z) :
  round_decimal negative d x = with_sign negative (round_decimal false d x).
Proof.
  unfold round_decimal, round_ratio.
  destruct (0 <=? x); cbv zeta;
    repeat match goal with
           | |- context [if ?c then _ else _] => destruct c
           | |- context [let (_, _) := ?c in _] => destruct c
           end; reflexivity.
Qed.

Lemma exact_decimal_positive (m e : Z) : 0 < m -> 0 < fst (exact_decimal m e).
Proof.
  intros Hm. unfold exact_decimal. destruct (0 <=? e) eqn:E; cbn [fst].
  - apply Z.leb_le in E. assert (0 < 2 ^ e) by (apply Z.pow_pos_nonneg; lia). nia.
  - apply Z.leb_gt in E. assert (0 < 5 ^ (- e)) by (apply Z.pow_pos_nonneg; lia).
    nia.
Qed.

Lemma nearest_reads_as (m e k : Z) (sj : Z * Z) :
  nearest m e k = Some sj -> reads_as m e sj = true.
Proof.
  unfold nearest. destruct (ratio m e) as [p q]. cbv zeta.
  match goal with
  | |- context [reads_as m e ?b] => destruct (reads_as m e b) eqn:E1
  end;
  match goal with
  | |- context [reads_as m e ?a] => destruct (reads_as m e a) eqn:E2
  end;
  repeat match goal with
         | |- match ?c with _ => _ end = _ -> _ => destruct c
         | |- (if ?c then _ else _) = _ -> _ => destruct c
         end;
  try discriminate; intros [= <-]; assumption.
Qed.

(** The decimal [shortest] picks reads back as the number. *)
Lemma shortest_reads_back (m e : Z) :
  is_double (Finite false m e) = true ->
  0 < m ->
  0 < fst (shortest m e)
  /\ round_decimal false (fst (shortest m e)) (snd (shortest m e))
     = Finite false m e.
Proof.
  intros Hd Hm. unfold shortest. generalize 1. generalize 17%nat.
  induction n as [|fuel IH]; intros k; cbn [shortest_from].
  - split; [now apply exact_decimal_positive|].
    now apply exact_decimal_reads_back.
  - destruct (nearest m e k) as [sj|] eqn:E; [|apply IH].
    apply nearest_reads_as in E. unfold reads_as in E.
    apply andb_prop in E. destruct E as [Hs Hr].
    apply Z.ltb_lt in Hs. apply number_eqb_eq in Hr. split; assumption.
Qed.

End NumberFacts.

(** ** The text of a number, read back *)

Module NumberText.
Import JSON NumberFacts.

Local Open Scope Z_scope.

Lemma digit_of_digit_char (d : Z) : digit d -> digit_of (digit_char d) = Some d.
Proof.
  unfold digit, digit_of, digit_char. intros Hd.
  assert (H1 : (48 <=? 48 + Z.to_N d)%N = true) by (apply N.leb_le; lia).
  assert (H2 : (48 + Z.to_N d <=? 57)%N = true) by (apply N.leb_le; lia).
  rewrite H1, H2. cbn [andb]. f_equal. lia.
Qed.

Lemma lex_digits_no_digit (rest : JsString) :
  no_digit rest -> lex_digits rest = ([], rest).
Proof. destruct rest as [|c rest]; [reflexivity|]. cbn. now intros ->. Qed.

Lemma lex_digits_chars (ds : list Z) (rest : JsString) :
  Forall digit ds -> no_digit rest ->
  lex_digits (List.map digit_char ds ++ rest) = (ds, rest).
Proof.
  intros Hds Hrest. induction Hds as [|d ds Hd _ IH].
  - now apply lex_digits_no_digit.
  - cbn [List.map List.app lex_digits]. rewrite (digit_of_digit_char d Hd), IH.
    reflexivity.
Qed.

Lemma zeros_chars (n : Z) : zeros n = List.map digit_char (repeat 0 (Z.to_nat n)).
Proof.
  unfold zeros. induction (Z.to_nat n) as [|k IH]; [reflexivity|].
  cbn [repeat List.map]. now rewrite IH.
Qed.

Lemma Forall_zeros (n : nat) : Forall digit (repeat 0 n).
Proof. apply Forall_forall. intros x Hx. apply repeat_spec in Hx. subst x.
       unfold digit. lia. Qed.

Lemma delimited_no_digit (rest : JsString) : delimited rest = true -> no_digit rest.
Proof.
  destruct rest as [|c rest]; [constructor|]. cbn. unfold is_char, digit_of.
  intros H. apply orb_prop in H. destruct H as [H|H];
    [apply orb_prop in H; destruct H as [H|H]|];
    apply N.eqb_eq in H; subst c; reflexivity.
Qed.

Lemma delimited_no_fraction (rest : JsString) :
  delimited rest = true -> parse_fraction rest = Some ([], rest).
Proof.
  destruct rest as [|c rest]; [reflexivity|]. cbn. unfold is_char.
  intros H. apply orb_prop in H. destruct H as [H|H];
    [apply orb_prop in H; destruct H as [H|H]|];
    apply N.eqb_eq in H; subst c; reflexivity.
Qed.

Lemma delimited_no_exponent (rest : JsString) :
  delimited rest = true -> parse_exponent rest = Some (0, rest).
Proof.
  destruct rest as [|c rest]; [reflexivity|]. cbn. unfold is_char.
  intros H. apply orb_prop in H. destruct H as [H|H];
    [apply orb_prop in H; destruct H as [H|H]|];
    apply N.eqb_eq in H; subst c; reflexivity.
Qed.

Lemma parse_fraction_point (r : JsString) :
  parse_fraction (46%N :: r)
  = match lex_digits r with
    | ([], _) => None
    | (ds, r1) => Some (ds, r1)
    end.
Proof. reflexivity. Qed.

Lemma parse_fraction_e (r : JsString) :
  parse_fraction (101%N :: r) = Some ([], 101%N :: r).
Proof. reflexivity. Qed.

Lemma parse_exponent_minus (r : JsString) :
  parse_exponent (101%N :: 45%N :: r)
  = match lex_digits r with
    | ([], _) => None
    | (ds, r2) => Some (-1 * value ds, r2)
    end.
Proof. reflexivity. Qed.

Lemma parse_exponent_plus (r : JsString) :
  parse_exponent (101%N :: 43%N :: r)
  = match lex_digits r with
    | ([], _) => None
    | (ds, r2) => Some (1 * value ds, r2)
    end.
Proof. reflexivity. Qed.

Lemma lex_digits_digit (d : Z) (r : JsString) :
  digit d ->
  lex_digits (digit_char d :: r) = (d :: fst (lex_digits r), snd (lex_digits r)).
Proof.
  intros Hd. cbn [lex_digits]. rewrite (digit_of_digit_char d Hd).
  destruct (lex_digits r). reflexivity.
Qed.

Lemma lex_digits_point (r : JsString) : lex_digits (46%N :: r) = ([], 46%N :: r).
Proof. reflexivity. Qed.

Lemma lex_digits_e (r : JsString) : lex_digits (101%N :: r) = ([], 101%N :: r).
Proof. reflexivity. Qed.

Lemma parse_fraction_digits (fs : list Z) (rest : JsString) :
  Forall digit fs -> fs <> [] -> no_digit rest ->
  parse_fraction (46%N :: List.map digit_char fs ++ rest) = Some (fs, rest).
Proof.
  intros Hfs Hne Hrest. rewrite parse_fraction_point.
  rewrite lex_digits_chars by assumption.
  destruct fs; [contradiction | reflexivity].
Qed.

(** The exponent as [Number::toString] writes it. *)
Lemma parse_exponent_text (x : Z) (rest : JsString) :
  no_digit rest ->
  parse_exponent (str "e" ++ (if x <? 0 then str "-" else str "+")
                  ++ digits_text (Z.abs x) ++ rest)
  = Some (x, rest).
Proof.
  intros Hrest.
  destruct (digits_spec (Z.abs x) (Z.abs_nonneg x)) as (Hall & Hval & Hne & _).
  unfold digits_text.
  destruct (Z.ltb_spec x 0) as [Hx|Hx].
  - change (str "e" ++ str "-" ++ ?t) with (101%N :: 45%N :: t).
    rewrite parse_exponent_minus, lex_digits_chars by assumption.
    destruct (digits (Z.abs x)) eqn:E; [contradiction|].
    rewrite Hval. f_equal. f_equal. lia.
  - change (str "e" ++ str "+" ++ ?t) with (101%N :: 43%N :: t).
    rewrite parse_exponent_plus, lex_digits_chars by assumption.
    destruct (digits (Z.abs x)) eqn:E; [contradiction|].
    rewrite Hval. f_equal. f_equal. lia.
Qed.

Lemma digit_char_no_minus (d : Z) : digit d -> is_char (digit_char d) "-" = false.
Proof.
  unfold digit, digit_char, is_char. intros Hd. apply N.eqb_neq.
  change (N_of_ascii "-") with 45%N. lia.
Qed.

Lemma Forall_firstn {A : Type} (P : A -> Prop) (n : nat) (l : list A) :
  Forall P l -> Forall P (firstn n l).
Proof.
  intros H. rewrite <- (firstn_skipn n l) in H. now apply Forall_app in H.
Qed.

Lemma Forall_skipn {A : Type} (P : A -> Prop) (n : nat) (l : list A) :
  Forall P l -> Forall P (skipn n l).
Proof.
  intros H. rewrite <- (firstn_skipn n l) in H. now apply Forall_app in H.
Qed.

Lemma value_firstn_skipn (ds : list Z) (n : nat) :
  value (firstn n ds ++ skipn n ds) = value ds.
Proof. now rewrite firstn_skipn. Qed.

Lemma parse_number_unsigned (s : JsString) :
  parse_number s
  = match s with
    | c :: r => if is_char c "-" then parse_unsigned true r
                else parse_unsigned false s
    | [] => parse_unsigned false s
    end.
Proof. reflexivity. Qed.

Lemma no_leading_zero {A : Type} (d : Z) (Hd : d <> 0) (ds : list Z)
    (a b c : A) :
  match d :: ds with
  | [] => a
  | 0 :: _ :: _ => b
  | _ => c
  end = c.
Proof. destruct d; [contradiction | reflexivity ..]. Qed.

Lemma round_decimal_scaled (negative : bool) (d j : Z) :
  0 <= j ->
  round_decimal negative (d * 10 ^ j) 0 = round_decimal negative d j.
Proof.
  intros Hj. unfold round_decimal.
  destruct (Z.leb_spec 0 j); [|lia]. cbn [Z.leb Z.compare].
  now rewrite Z.pow_0_r, Z.mul_1_r.
Qed.

Ltac same_decimal :=
  match goal with
  | |- Some (VNum (round_decimal _ ?v ?a), _)
       = Some (VNum (round_decimal _ ?v' ?b), _) =>
      replace a with b by (cbn [length] in *; lia);
      replace v with v' by (cbn [length] in *; lia);
      reflexivity
  end.

Lemma decimal_text_reads_back (negative : bool) (d : Z) (ds : list Z) (n : Z)
    (rest : JsString) :
  Forall digit (d :: ds) -> d <> 0 -> delimited rest = true ->
  parse_unsigned negative (decimal_text (d :: ds) n ++ rest)
  = Some (VNum (round_decimal negative (value (d :: ds))
                  (n - Z.of_nat (length (d :: ds)))),
          rest).
Proof.
  intros Hds Hd Hrest.
  pose proof (delimited_no_digit rest Hrest) as Hnd.
  inversion Hds as [|? ? Hd0 Hds']; subst.
  unfold decimal_text.
  set (k := Z.of_nat (length (d :: ds))).
  assert (Hk : k = Z.of_nat (length ds) + 1) by (unfold k; cbn [length]; lia).
  destruct ((k <=? n) && (n <=? 21)) eqn:E1.
  { (* digits, then zeros *)
    apply andb_prop in E1. destruct E1 as [E1 _]. apply Z.leb_le in E1.
    rewrite zeros_chars, <- List.map_app, <- List.app_comm_cons.
    unfold parse_unsigned.
    rewrite lex_digits_chars;
      [| constructor; [exact Hd0|]; apply Forall_app; split;
         [exact Hds' | apply Forall_zeros]
       | exact Hnd].
    rewrite (no_leading_zero d Hd _ None).
    rewrite (delimited_no_fraction rest Hrest), (delimited_no_exponent rest Hrest).
    rewrite List.app_nil_r. cbn [length]. rewrite Z.sub_0_r.
    change (d :: ds ++ repeat 0 (Z.to_nat (n - k)))
      with ((d :: ds) ++ repeat 0 (Z.to_nat (n - k))).
    rewrite value_app, value_zeros, repeat_length, Z.add_0_r, Z2Nat.id by lia.
    rewrite round_decimal_scaled by lia. reflexivity. }
  destruct ((0 <? n) && (n <=? 21)) eqn:E2.
  { (* digits, point, digits *)
    apply andb_prop in E2. destruct E2 as [E2 E2']. apply Z.ltb_lt in E2.
    assert (Hnk : n < k).
    { rewrite E2', andb_true_r in E1. apply Z.leb_gt in E1. exact E1. }
    rewrite firstn_map, skipn_map.
    rewrite <- !List.app_assoc. change (str "." ++ ?t) with (46%N :: t).
    unfold parse_unsigned.
    rewrite lex_digits_chars;
      [| apply Forall_firstn; exact Hds | reflexivity].
    destruct (Z.to_nat n) as [|n'] eqn:En; [lia|].
    cbn [firstn]. rewrite (no_leading_zero d Hd _ None).
    rewrite parse_fraction_digits;
      [| apply Forall_skipn; exact Hds | | exact Hnd].
    - rewrite (delimited_no_exponent rest Hrest).
      change (d :: firstn n' ds) with (firstn (S n') (d :: ds)).
      rewrite value_firstn_skipn. rewrite length_skipn. same_decimal.
    - intros E. apply (f_equal (@length Z)) in E. rewrite length_skipn in E.
      cbn [length] in *. lia. }
  destruct ((-6 <? n) && (n <=? 0)) eqn:E3.
  { (* 0, point, zeros, digits *)
    apply andb_prop in E3. destruct E3 as [_ E3]. apply Z.leb_le in E3.
    rewrite zeros_chars.
    change (str "0." ++ ?t) with (48%N :: 46%N :: t).
    rewrite <- List.map_app.
    change ((48%N :: 46%N :: ?a) ++ ?b) with (48%N :: 46%N :: a ++ b).
    unfold parse_unsigned.
    change (lex_digits (48%N :: 46%N :: ?t)) with ([0], 46%N :: t).
    cbv iota.
    rewrite parse_fraction_digits;
      [ | apply Forall_app; split; [apply Forall_zeros | exact Hds]
        | intros E; apply app_eq_nil in E; destruct E as [_ E]; discriminate
        | exact Hnd ].
    rewrite (delimited_no_exponent rest Hrest).
    change ([0] ++ ?t) with (0 :: t).
    rewrite value_cons, value_app, value_zeros, length_app, repeat_length.
    same_decimal. }
  (* exponent *)
  cbn [List.map].
  change (str "e" ++ ?t) with (101%N :: t).
  destruct ds as [|d' ds'].
  - cbn [List.map]. rewrite <- List.app_comm_cons.
    change ((101%N :: ?a) ++ ?b) with (101%N :: a ++ b).
    unfold parse_unsigned.
    rewrite lex_digits_digit, lex_digits_e by exact Hd0. cbn [fst snd].
    rewrite parse_fraction_e.
    change (101%N :: ?t) with (str "e" ++ t).
    rewrite <- !List.app_assoc.
    rewrite parse_exponent_text by exact Hnd.
    rewrite List.app_nil_r.
    destruct d as [|p|p]; [contradiction | same_decimal | same_decimal].
  - cbn [List.map]. rewrite <- List.app_comm_cons.
    change (str "." ++ ?t) with (46%N :: t).
    change ((46%N :: ?a) ++ ?b) with (46%N :: a ++ b).
    unfold parse_unsigned.
    rewrite lex_digits_digit, lex_digits_point by exact Hd0. cbn [fst snd].
    rewrite <- !List.app_assoc.
    change ((101%N :: ?a) ++ ?b) with (101%N :: a ++ b).
    change (digit_char d' :: List.map digit_char ds')
      with (List.map digit_char (d' :: ds')).
    rewrite parse_fraction_digits; [| exact Hds' | discriminate | reflexivity].
    change (101%N :: ?t) with (str "e" ++ t).
    rewrite <- !List.app_assoc.
    rewrite parse_exponent_text by exact Hnd.
    change ([d] ++ d' :: ds') with (d :: d' :: ds').
    destruct d as [|p|p]; [contradiction | same_decimal | same_decimal].
Qed.

End NumberText.

(** ** Induction on values *)

Section Induction.
Variable P : JsValue -> Prop.
Hypothesis Pundefined : P VUndefined.
Hypothesis Pnull : P VNull.
Hypothesis Pbool : forall b, P (VBool b).
Hypothesis Pnum : forall x, P (VNum x).
Hypothesis Pbigint : forall n, P (VBigInt n).
Hypothesis Pstr : forall s, P (VStr s).
Hypothesis Psymbol : forall d, P (VSymbol d).
Hypothesis Pfunction : forall src call, P (VFunction src call).
Hypothesis Parr : forall items, Forall P items -> P (VArr items).
Hypothesis Pobj : forall props, Forall (fun kv => P (snd kv)) props -> P (VObj props).
Hypothesis Pref : forall up, P (VRef up).

(** Induction on a value, with the property for every element of an
    array and every member of an object. *)
Lemma JsValue_induction : forall v : JsValue, P v.
Proof.
  fix IH 1. intros [| |b|x|n|s|d|src call|items|props|up].
  - apply Pundefined.
  - apply Pnull.
  - apply Pbool.
  - apply Pnum.
  - apply Pbigint.
  - apply Pstr.
  - apply Psymbol.
  - apply Pfunction.
  - apply Parr. induction items as [|x items IHitems]; constructor.
    + apply IH.
    + exact IHitems.
  - apply Pobj. induction props as [|[k x] props IHprops]; constructor.
    + apply IH.
    + exact IHprops.
  - apply Pref.
Qed.

End Induction.

Module JSONFacts.
Import JSON NumberFacts NumberText.

Local Open Scope Z_scope.

Lemma eqb_spec (a b : JsString) : reflect (a = b) (JS.eqb a b).
Proof.
  revert b. induction a as [|x a IH]; intros [|y b]; cbn;
    try (constructor; congruence).
  destruct (N.eqb_spec x y) as [->|Hne]; cbn.
  - destruct (IH b) as [->|Hne]; constructor; congruence.
  - constructor. congruence.
Qed.

Lemma eqb_refl (a : JsString) : JS.eqb a a = true.
Proof. destruct (eqb_spec a a); congruence. Qed.

(** ** Numbers *)

Lemma decimal_text_head (d : Z) (ds : list Z) (n : Z) :
  digit d ->
  exists d0 tail, decimal_text (d :: ds) n = digit_char d0 :: tail /\ digit d0.
Proof.
  intros Hd. unfold decimal_text.
  destruct ((Z.of_nat (length (d :: ds)) <=? n) && (n <=? 21));
    [cbn [List.map List.app]; eexists _, _; split; [reflexivity | exact Hd]|].
  destruct ((0 <? n) && (n <=? 21)) eqn:E.
  { apply andb_prop in E. destruct E as [E _]. apply Z.ltb_lt in E.
    destruct (Z.to_nat n) as [|n'] eqn:En; [lia|].
    cbn [List.map firstn List.app]. eexists _, _. split; [reflexivity | exact Hd]. }
  destruct ((-6 <? n) && (n <=? 0)).
  { exists 0. eexists. split; [reflexivity | unfold digit; lia]. }
  cbn [List.map]. destruct ds; eexists _, _; (split; [reflexivity | exact Hd]).
Qed.

(** The text of a finite number other than [-0] is read back as the
    number. *)
Lemma number_reads_back (x : Number) (rest : JsString) :
  is_double x && is_finite x && negb (is_negative_zero x) = true ->
  delimited rest = true ->
  parse_number (number_to_string x ++ rest) = Some (VNum x, rest)
  /\ exists c tail,
       number_to_string x = c :: tail
       /\ (is_char c "-" = true \/ exists d, digit d /\ c = digit_char d).
Proof.
  intros Hx Hrest.
  apply andb_prop in Hx. destruct Hx as [Hx Hnz].
  apply andb_prop in Hx. destruct Hx as [Hd Hfin].
  destruct x as [| |negative m e]; try discriminate Hfin.
  pose proof Hd as Hd'. unfold is_double in Hd'.
  apply andb_prop in Hd'. destruct Hd' as [Hd' Hnorm].
  apply andb_prop in Hd'. destruct Hd' as [Hd' _].
  apply andb_prop in Hd'. destruct Hd' as [Hd' _].
  apply andb_prop in Hd'. destruct Hd' as [Hm0 Hm53].
  apply Z.leb_le in Hm0. apply Z.ltb_lt in Hm53.
  destruct (Z.eq_dec m 0) as [->|Hm].
  - (* zero *)
    assert (negative = false) by (destruct negative; [discriminate | reflexivity]).
    subst negative.
    assert (e = -1074).
    { apply orb_prop in Hnorm. destruct Hnorm as [H|H].
      - apply Z.leb_le in H. assert (0 < 2 ^ 52) by (apply Z.pow_pos_nonneg; lia).
        lia.
      - now apply Z.eqb_eq in H. }
    subst e. split.
    + change (number_to_string (Finite false 0 (-1074))) with [48%N].
      rewrite parse_number_unsigned. cbn [List.app].
      change (is_char 48 "-") with false. cbv iota.
      unfold parse_unsigned.
      change (48%N :: rest) with (List.map digit_char [0] ++ rest).
      rewrite lex_digits_chars;
        [| repeat constructor; unfold digit; lia | now apply delimited_no_digit].
      rewrite (delimited_no_fraction rest Hrest), (delimited_no_exponent rest Hrest).
      reflexivity.
    + exists 48%N, []. split; [reflexivity|]. right. exists 0.
      split; [unfold digit; lia | reflexivity].
  - (* not zero *)
    assert (Hmpos : 0 < m) by lia.
    assert (Hdf : is_double (Finite false m e) = true) by exact Hd.
    destruct (shortest_reads_back m e Hdf Hmpos) as [Hs Hround].
    assert (Htext : number_to_string (Finite negative m e)
                    = (if negative then str "-" else [])
                      ++ decimal_text (digits (fst (shortest m e)))
                           (snd (shortest m e)
                            + Z.of_nat (length (digits (fst (shortest m e)))))).
    { unfold number_to_string. destruct m; [contradiction| |];
        destruct (shortest _ e); reflexivity. }
    rewrite Htext.
    destruct (shortest m e) as [s j]. cbn [fst snd] in *.
    destruct (digits_spec s ltac:(lia)) as (Hall & Hval & _ & Hhead).
    destruct (Hhead Hs) as (d & ds & E & Hdne).
    rewrite E in *.
    inversion Hall as [|? ? Hdd _]; subst.
    pose proof (decimal_text_reads_back negative d ds
                  (j + Z.of_nat (length (d :: ds))) rest Hall Hdne Hrest) as Hparse.
    replace (j + Z.of_nat (length (d :: ds)) - Z.of_nat (length (d :: ds)))
      with j in Hparse by lia.
    rewrite round_decimal_sign, Hround in Hparse. cbn [with_sign] in Hparse.
    destruct (decimal_text_head d ds (j + Z.of_nat (length (d :: ds))) Hdd)
      as (d0 & tail & Ehead & Hd0).
    split.
    + rewrite parse_number_unsigned. destruct negative.
      * change (str "-" ++ ?t) with (45%N :: t). cbn [List.app].
        change (is_char 45 "-") with true. cbv iota. exact Hparse.
      * cbn [List.app] in *. rewrite Ehead in *. cbn [List.app] in *.
        rewrite (digit_char_no_minus d0 Hd0). exact Hparse.
    + destruct negative.
      * eexists _, _. split; [reflexivity|]. left. reflexivity.
      * cbn [List.app]. rewrite Ehead. eexists _, _. split; [reflexivity|].
        right. exists d0. split; [exact Hd0 | reflexivity].
Qed.

(** ** Strings *)

Lemma hex_value_digit (x : N) :
  (x < 16)%N -> hex_value (hex_digit x) = Some x.
Proof.
  intros Hx. unfold hex_digit, hex_value.
  destruct (N.ltb_spec x 10) as [H|H].
  - assert (E1 : ((48 <=? 48 + x) && (48 + x <=? 57))%N = true).
    { apply andb_true_intro. split; apply N.leb_le; lia. }
    rewrite E1. f_equal. lia.
  - assert (E1 : ((48 <=? 87 + x) && (87 + x <=? 57))%N = false).
    { apply andb_false_intro2. apply N.leb_gt. lia. }
    assert (E2 : ((97 <=? 87 + x) && (87 + x <=? 102))%N = true).
    { apply andb_true_intro. split; apply N.leb_le; lia. }
    rewrite E1, E2. f_equal. lia.
Qed.

Lemma hex4_digits (c : N) :
  is_code_unit c = true ->
  hex4 (hex_digit (c / 4096)) (hex_digit (c / 256 mod 16))
       (hex_digit (c / 16 mod 16)) (hex_digit (c mod 16))
  = Some c.
Proof.
  unfold is_code_unit. intros Hc. apply N.ltb_lt in Hc. unfold hex4.
  rewrite !hex_value_digit.
  - f_equal.
    pose proof (N.div_mod c 16 ltac:(lia)).
    pose proof (N.div_mod (c / 16) 16 ltac:(lia)).
    pose proof (N.div_mod (c / 16 / 16) 16 ltac:(lia)).
    rewrite !N.Div0.div_div in *.
    change (16 * 16)%N with 256%N in *. change (256 * 16)%N with 4096%N in *.
    lia.
  - apply N.mod_lt. lia.
  - apply N.mod_lt. lia.
  - apply N.mod_lt. lia.
  - apply N.Div0.div_lt_upper_bound; lia.
Qed.

Lemma parse_chars_unicode_escape (c : N) (tail : JsString) :
  is_code_unit c = true ->
  parse_chars (unicode_escape c ++ tail) = cons_char c (parse_chars tail).
Proof.
  intros Hc. unfold unicode_escape. cbn [List.app parse_chars].
  change (is_char 92 "034") with false. change (is_char 92 "\") with true.
  change (is_char 117 "u") with true. cbv iota.
  now rewrite hex4_digits.
Qed.

Lemma parse_chars_literal (c : N) (tail : JsString) :
  (32 <= c)%N -> c <> 34%N -> c <> 92%N ->
  parse_chars (c :: tail) = cons_char c (parse_chars tail).
Proof.
  intros H32 Hq Hb. cbn [parse_chars]. unfold is_char.
  change (N_of_ascii "034") with 34%N. change (N_of_ascii "\") with 92%N.
  destruct (N.eqb_spec c 34); [contradiction|].
  destruct (N.eqb_spec c 92); [contradiction|].
  destruct (N.ltb_spec c 32); [lia | reflexivity].
Qed.

Lemma parse_chars_escape_unit (c : N) (tail : JsString) :
  is_code_unit c = true ->
  parse_chars (escape_unit c ++ tail) = cons_char c (parse_chars tail).
Proof.
  intros Hc. unfold escape_unit.
  destruct (N.eqb_spec c 34) as [->|H34]; [reflexivity|].
  destruct (N.eqb_spec c 92) as [->|H92]; [reflexivity|].
  destruct (N.eqb_spec c 8) as [->|H8]; [reflexivity|].
  destruct (N.eqb_spec c 9) as [->|H9]; [reflexivity|].
  destruct (N.eqb_spec c 10) as [->|H10]; [reflexivity|].
  destruct (N.eqb_spec c 12) as [->|H12]; [reflexivity|].
  destruct (N.eqb_spec c 13) as [->|H13]; [reflexivity|].
  destruct (N.ltb_spec c 32) as [Hlt|Hge].
  - now apply parse_chars_unicode_escape.
  - cbn [List.app]. now apply parse_chars_literal.
Qed.

Lemma surrogate_literal (c : N) (tail : JsString) :
  is_high c = true \/ is_low c = true ->
  parse_chars (c :: tail) = cons_char c (parse_chars tail).
Proof.
  unfold is_high, is_low. intros H.
  assert (55296 <= c)%N.
  { destruct H as [H|H]; apply andb_prop in H; destruct H as [H _];
      apply N.leb_le in H; lia. }
  apply parse_chars_literal; lia.
Qed.

Lemma escape_cons (c : N) (s : JsString) :
  escape (c :: s)
  = if is_high c then
      match s with
      | d :: s'' =>
          if is_low d then c :: d :: escape s''
          else unicode_escape c ++ escape s
      | [] => unicode_escape c
      end
    else if is_low c then unicode_escape c ++ escape s
    else escape_unit c ++ escape s.
Proof. destruct s; reflexivity. Qed.

Lemma parse_chars_escape_both (s : JsString) :
  well_formed s = true ->
  (forall rest, parse_chars (escape s ++ 34%N :: rest) = Some (s, rest))
  /\ forall c rest,
       is_code_unit c = true ->
       parse_chars (escape (c :: s) ++ 34%N :: rest) = Some (c :: s, rest).
Proof.
  induction s as [|d s IH]; intros Hs.
  - split; [reflexivity|]. intros c rest Hc. cbn [escape].
    destruct (is_high c).
    + rewrite parse_chars_unicode_escape by exact Hc. reflexivity.
    + destruct (is_low c).
      * rewrite <- List.app_assoc, parse_chars_unicode_escape by exact Hc.
        reflexivity.
      * rewrite <- List.app_assoc, parse_chars_escape_unit by exact Hc.
        reflexivity.
  - cbn [well_formed forallb] in Hs. apply andb_prop in Hs.
    destruct Hs as [Hd Hs]. destruct (IH Hs) as [IH1 IH2].
    split; [intros rest; now apply IH2|].
    intros c rest Hc. rewrite (escape_cons c).
    destruct (is_high c) eqn:Ehigh.
    + destruct (is_low d) eqn:Elow.
      * cbn [List.app].
        rewrite surrogate_literal by (now left).
        rewrite surrogate_literal by (now right).
        rewrite IH1. reflexivity.
      * rewrite <- List.app_assoc, parse_chars_unicode_escape by exact Hc.
        rewrite (IH2 d rest Hd). reflexivity.
    + destruct (is_low c).
      * rewrite <- List.app_assoc, parse_chars_unicode_escape by exact Hc.
        rewrite (IH2 d rest Hd). reflexivity.
      * rewrite <- List.app_assoc, parse_chars_escape_unit by exact Hc.
        rewrite (IH2 d rest Hd). reflexivity.
Qed.

Lemma parse_chars_escape (s rest : JsString) :
  well_formed s = true ->
  parse_chars (escape s ++ 34%N :: rest) = Some (s, rest).
Proof. intros Hs. now apply parse_chars_escape_both. Qed.

Lemma parse_chars_quote (s rest : JsString) :
  well_formed s = true ->
  exists tail,
    quote s ++ rest = 34%N :: tail
    /\ parse_chars tail = Some (s, rest).
Proof.
  intros Hs. exists (escape s ++ 34%N :: rest). split.
  - unfold quote. cbn [List.app]. now rewrite <- List.app_assoc.
  - now apply parse_chars_escape.
Qed.


(** ** Values *)

Lemma number_start_dispatch (c : N) :
  is_char c "-" = true \/ (exists d, digit d /\ c = digit_char d) ->
  is_ws c = false
  /\ is_char c "n" = false /\ is_char c "t" = false
  /\ is_char c "f" = false /\ is_char c "034" = false
  /\ is_char c "[" = false /\ is_char c "{" = false
  /\ is_char c "]" = false.
Proof.
  intros [H|(d & Hd & ->)].
  - apply N.eqb_eq in H. subst c. repeat split.
  - unfold digit in Hd. unfold is_ws, is_char, digit_char.
    repeat split; rewrite ?orb_false_iff; repeat split; apply N.eqb_neq;
      match goal with
      | |- _ <> N_of_ascii ?a =>
          let n := eval vm_compute in (N_of_ascii a) in
          change (N_of_ascii a) with n
      end; lia.
Qed.

Lemma join_cons (sep t : JsString) (ts : list JsString) :
  ts <> [] -> join sep (t :: ts) = t ++ sep ++ join sep ts.
Proof. destruct ts; [contradiction | reflexivity]. Qed.

Lemma elements_read_back (items : list JsValue) (ts : list JsString) :
  Forall2 (fun x t => stringify x = Text t /\ reads_back x t) items ts ->
  element_texts (List.map stringify items) = inr ts
  /\ (elements_size items <= length (join (str ",") ts) + 1)%nat
  /\ (items <> [] ->
      forall fuel rest,
        (elements_size items <= fuel)%nat ->
        parse_elements fuel (join (str ",") ts ++ 93%N :: rest)
        = Some (items, rest)).
Proof.
  induction 1 as [|x t items ts [Hx (Hlen & Hhead & Hparse)] Hrest IH].
  - cbn. repeat split; [lia | congruence].
  - destruct IH as (IHtexts & IHlen & IHparse).
    split; [|split].
    + cbn [List.map element_texts]. rewrite Hx, IHtexts. reflexivity.
    + unfold elements_size in *. cbn [fold_right].
      destruct ts as [|t' ts].
      * inversion Hrest; subst. cbn. lia.
      * rewrite join_cons by discriminate.
        rewrite !length_app. cbn [length str List.map list_ascii_of_string] in *.
        lia.
    + intros _ fuel rest Hfuel.
      unfold elements_size in Hfuel. cbn [fold_right] in Hfuel.
      destruct fuel as [|fuel]; [lia|].
      cbn [parse_elements].
      destruct ts as [|t' ts].
      * inversion Hrest; subst. cbn [join].
        rewrite Hparse by (reflexivity || lia). reflexivity.
      * rewrite join_cons by discriminate.
        rewrite <- !List.app_assoc.
        change (str "," ++ ?r) with (44%N :: r).
        rewrite Hparse by (reflexivity || lia).
        change (skip_ws (44%N :: ?r)) with (44%N :: r). cbv iota.
        change (is_char 44 ",") with true. cbv iota.
        rewrite IHparse.
        -- reflexivity.
        -- inversion Hrest; subst. discriminate.
        -- unfold elements_size. lia.
Qed.

Lemma members_read_back (props : list (JsString * JsValue)) (ts : list JsString) :
  Forall2 (fun kv m =>
             exists t, m = quote (fst kv) ++ str ":" ++ t
                       /\ well_formed (fst kv) = true
                       /\ stringify (snd kv) = Text t
                       /\ reads_back (snd kv) t) props ts ->
  member_texts (List.map (fun '(k, x) => (k, stringify x)) props) = inr ts
  /\ (members_size props <= length (join (str ",") ts) + 1)%nat
  /\ (props <> [] ->
      forall fuel rest,
        (members_size props <= fuel)%nat ->
        parse_members fuel (join (str ",") ts ++ 125%N :: rest)
        = Some (props, rest)).
Proof.
  induction 1
    as [|[k x] m props ts (t & -> & Hk & Hx & Hlen & Hhead & Hparse) Hrest IH].
  - cbn. repeat split; [lia | congruence].
  - cbn [fst snd] in *. destruct IH as (IHtexts & IHlen & IHparse).
    split; [|split].
    + cbn [List.map member_texts]. rewrite Hx, IHtexts. reflexivity.
    + unfold members_size in *. cbn [fold_right].
      destruct ts as [|t' ts].
      * inversion Hrest; subst. cbn [join fold_right].
        rewrite !length_app. lia.
      * rewrite join_cons by discriminate.
        rewrite !length_app. cbn [length str List.map list_ascii_of_string] in *.
        lia.
    + intros _ fuel rest Hfuel.
      unfold members_size in Hfuel. cbn [fold_right] in Hfuel.
      destruct fuel as [|fuel]; [lia|].
      assert (Hmember :
                forall R, delimited R = true ->
                  parse_members (S fuel) ((quote k ++ str ":" ++ t) ++ R)
                  = match skip_ws R with
                    | [] => None
                    | c :: r4 =>
                        if is_char c "," then
                          match parse_members fuel r4 with
                          | Some (ms, r5) => Some ((k, x) :: ms, r5)
                          | None => None
                          end
                        else if is_char c "}" then Some ([(k, x)], r4)
                        else None
                    end).
      { intros R HR. rewrite <- !List.app_assoc.
        destruct (parse_chars_quote k (str ":" ++ t ++ R) Hk)
          as (tail & -> & Htail).
        cbn [parse_members].
        change (skip_ws (34%N :: ?r)) with (34%N :: r). cbv iota.
        change (is_char 34 "034") with true. cbn [negb]. cbv iota.
        rewrite Htail.
        change (str ":" ++ ?r) with (58%N :: r).
        change (skip_ws (58%N :: ?r)) with (58%N :: r). cbv iota.
        change (is_char 58 ":") with true. cbn [negb]. cbv iota.
        rewrite Hparse by (assumption || lia). reflexivity. }
      destruct ts as [|t' ts].
      * inversion Hrest; subst. cbn [join].
        rewrite Hmember by reflexivity. reflexivity.
      * rewrite join_cons by discriminate.
        replace (((quote k ++ str ":" ++ t) ++ str "," ++ join (str ",") (t' :: ts))
                 ++ 125%N :: rest)
          with ((quote k ++ str ":" ++ t)
                ++ 44%N :: (join (str ",") (t' :: ts) ++ 125%N :: rest))
          by (rewrite <- !List.app_assoc; reflexivity).
        rewrite Hmember by reflexivity.
        change (skip_ws (44%N :: ?r)) with (44%N :: r). cbv iota.
        change (is_char 44 ",") with true. cbv iota.
        rewrite IHparse.
        -- reflexivity.
        -- inversion Hrest; subst. discriminate.
        -- unfold members_size. lia.
Qed.

(** ** Objects: keys once each, in enumeration order *)

Lemma distinct_NoDup (keys : list JsString) : distinct keys = true -> NoDup keys.
Proof.
  induction keys as [|k keys IH]; cbn; intros H; constructor.
  - apply andb_prop in H. destruct H as [H _].
    intros Hin. apply negb_true_iff in H.
    assert (existsb (JS.eqb k) keys = true) as E; [|congruence].
    apply existsb_exists. exists k. split; [exact Hin | apply eqb_refl].
  - apply IH. apply andb_prop in H. apply H.
Qed.

Lemma has_key_fresh (k : JsString) (acc : list (JsString * JsValue)) :
  ~ In k (List.map fst acc) -> has_key k acc = false.
Proof.
  induction acc as [|[k' v'] acc IH]; cbn; intros Hfresh; [reflexivity|].
  destruct (eqb_spec k k') as [->|Hne].
  - exfalso. apply Hfresh. now left.
  - apply IH. intros Hin. apply Hfresh. now right.
Qed.

Lemma insert_prop_last (k : JsString) (v : JsValue)
    (acc : list (JsString * JsValue)) :
  (forall k', In k' (List.map fst acc) ->
              goes_before (array_index k) (array_index k') = false) ->
  insert_prop k v acc = acc ++ [(k, v)].
Proof.
  induction acc as [|[k' v'] acc IH]; cbn [insert_prop]; intros Horder;
    [reflexivity|].
  rewrite (Horder k') by now left.
  rewrite IH; [reflexivity|]. intros k2 Hin. apply Horder. now right.
Qed.

Lemma set_prop_fresh (k : JsString) (v : JsValue)
    (acc : list (JsString * JsValue)) :
  ~ In k (List.map fst acc) ->
  (forall k', In k' (List.map fst acc) ->
              goes_before (array_index k) (array_index k') = false) ->
  set_prop k v acc = acc ++ [(k, v)].
Proof.
  intros Hfresh Horder. unfold set_prop.
  rewrite has_key_fresh by exact Hfresh. now apply insert_prop_last.
Qed.

Lemma define_props_from (props acc : list (JsString * JsValue)) :
  NoDup (List.map fst props) ->
  enumerated (List.map fst props) = true ->
  (forall k, In k (List.map fst props) ->
     ~ In k (List.map fst acc)
     /\ forall k', In k' (List.map fst acc) ->
                   goes_before (array_index k) (array_index k') = false) ->
  fold_left (fun a kv => set_prop (fst kv) (snd kv) a) props acc = acc ++ props.
Proof.
  revert acc. induction props as [|[k v] props IH]; intros acc Hnd Henum Hfresh.
  - cbn. now rewrite List.app_nil_r.
  - cbn [fold_left fst snd List.map enumerated] in *.
    inversion Hnd as [|? ? Hk Hnd']; subst.
    apply andb_prop in Henum. destruct Henum as [Hlater Henum].
    destruct (Hfresh k ltac:(now left)) as [Hnew Horder].
    rewrite set_prop_fresh by assumption.
    rewrite IH.
    + rewrite <- List.app_assoc. reflexivity.
    + exact Hnd'.
    + exact Henum.
    + intros k2 Hin. destruct (Hfresh k2 ltac:(now right)) as [Hnew2 Horder2].
      rewrite List.map_app. split.
      * intros Hin'. apply in_app_or in Hin'. destruct Hin' as [Hin' | [<- | []]].
        -- exact (Hnew2 Hin').
        -- apply Hk. exact Hin.
      * intros k' Hin'. apply in_app_or in Hin'.
        destruct Hin' as [Hin' | [<- | []]].
        -- now apply Horder2.
        -- rewrite forallb_forall in Hlater. specialize (Hlater k2 Hin).
           now apply negb_true_iff in Hlater.
Qed.

Lemma define_props_enumerated (props : list (JsString * JsValue)) :
  distinct (List.map fst props) = true ->
  enumerated (List.map fst props) = true ->
  define_props props = props.
Proof.
  intros Hd He. unfold define_props.
  rewrite define_props_from; [reflexivity | now apply distinct_NoDup | exact He |].
  intros k _. split; [intros [] | intros k' []].
Qed.

(** A value with no function in it has no [toJSON] to call. *)
Lemma no_toJSON (key : JsString) (props : list (JsString * JsValue)) :
  forallb (fun '(k, x) => well_formed k && serializable x) props = true ->
  match lookup key
          (List.map (fun '(k, x) =>
                       (k, match x with
                           | VFunction _ (Returns r) => Some (serialize false r)
                           | VFunction _ (ThrowsError e) =>
                               Some (Raises (ThrownError e))
                           | VFunction _ (Throws t) =>
                               Some (Raises (ThrownValue t))
                           | _ => None
                           end)) props) with
  | Some (Some _) => False
  | _ => True
  end.
Proof.
  induction props as [|[k x] props IH]; cbn [forallb List.map lookup]; intros H;
    [exact I|].
  apply andb_prop in H. destruct H as [Hx Hprops].
  apply andb_prop in Hx. destruct Hx as [_ Hx].
  destruct (JS.eqb key k); [|now apply IH].
  destruct x; try exact I. discriminate Hx.
Qed.

Lemma serialize_object (props : list (JsString * JsValue)) :
  forallb (fun '(k, x) => well_formed k && serializable x) props = true ->
  serialize true (VObj props)
  = object_text (List.map (fun '(k, x) => (k, serialize true x)) props).
Proof.
  intros H. cbn [serialize].
  pose proof (no_toJSON (str "toJSON") props H) as Hno.
  set (found := lookup (str "toJSON") _) in *.
  destruct found as [[replaced|]|]; [contradiction | reflexivity | reflexivity].
Qed.

(** ** The round trip *)

Lemma leaf_reads_back (v : JsValue) (c : N) (tail : JsString) :
  size v = 1%nat ->
  is_ws c = false -> is_char c "]" = false ->
  (forall fuel rest, delimited rest = true ->
     parse_value (S fuel) ((c :: tail) ++ rest) = Some (v, rest)) ->
  reads_back v (c :: tail).
Proof.
  intros Hsize Hws Hclose Hparse. unfold reads_back. rewrite Hsize.
  split; [cbn; lia|]. split; [eexists _, _; repeat split; assumption|].
  intros [|fuel] rest Hfuel Hrest; [lia|]. now apply Hparse.
Qed.

(** The text [JSON.stringify] gives for a serializable value is read
    back by [parse_value] as that value. *)
Lemma stringify_reads_back (v : JsValue) :
  serializable v = true ->
  exists text, stringify v = Text text /\ reads_back v text.
Proof.
  induction v as [| |b|x|n|s|d|src call|items IH|props IH|up]
    using JsValue_induction;
    cbn [serializable]; intros Hv; try discriminate Hv.
  - (* null *)
    eexists. split; [reflexivity|].
    apply leaf_reads_back; try reflexivity.
  - (* booleans *)
    destruct b; (eexists; split; [reflexivity|]);
      apply leaf_reads_back; try reflexivity.
  - (* numbers *)
    assert (Hfin : is_finite x = true).
    { apply andb_prop in Hv. destruct Hv as [Hv _].
      apply andb_prop in Hv. apply Hv. }
    unfold stringify. cbn [serialize]. rewrite Hfin.
    eexists. split; [reflexivity|].
    destruct (number_reads_back x [] Hv eq_refl) as (_ & c & tail & E & Hstart).
    destruct (number_start_dispatch c Hstart)
      as (Hws & Hn & Ht & Hf & Hq & Ha & Ho & Hc).
    rewrite E. apply leaf_reads_back; auto.
    intros fuel rest Hrest.
    cbn [parse_value List.app skip_ws]. rewrite Hws, Hn, Ht, Hf, Hq, Ha, Ho.
    change (c :: tail ++ rest) with ((c :: tail) ++ rest).
    rewrite <- E. now apply number_reads_back.
  - (* strings *)
    eexists. split; [reflexivity|].
    unfold quote. apply leaf_reads_back; try reflexivity.
    intros fuel rest Hrest.
    destruct (parse_chars_quote s rest Hv) as (tail & E & Htail).
    unfold quote in E. rewrite E.
    cbn [parse_value skip_ws].
    change (is_ws 34) with false. cbv iota.
    change (is_char 34 "n") with false. change (is_char 34 "t") with false.
    change (is_char 34 "f") with false. change (is_char 34 "034") with true.
    cbv iota. rewrite Htail. reflexivity.
  - (* arrays *)
    assert (Hts : exists ts,
               Forall2 (fun x t => stringify x = Text t /\ reads_back x t)
                       items ts).
    { clear - IH Hv. induction items as [|x items IHitems].
      - exists []. constructor.
      - cbn in Hv. apply andb_prop in Hv. destruct Hv as [Hx Hitems].
        inversion IH as [|? ? IHx IHrest]; subst.
        destruct (IHx Hx) as (t & Ht).
        destruct (IHitems IHrest Hitems) as (ts & Hts).
        exists (t :: ts). constructor; assumption. }
    destruct Hts as (ts & Hts).
    destruct (elements_read_back items ts Hts) as (Htexts & Hlen & Hparse).
    unfold stringify. cbn [serialize]. fold stringify. unfold array_text.
    change (List.map (serialize true) items) with (List.map stringify items).
    rewrite Htexts.
    eexists. split; [reflexivity|].
    unfold reads_back. cbn [size]. fold (elements_size items).
    change (str "[" ++ ?t) with (91%N :: t).
    split; [|split].
    + cbn [length]. rewrite length_app.
      change (length (str "]")) with 1%nat. lia.
    + eexists _, _. repeat split; reflexivity.
    + intros [|fuel] rest Hfuel Hrest; [lia|].
      rewrite <- List.app_comm_cons, <- List.app_assoc.
      change (str "]" ++ rest) with (93%N :: rest).
      cbn [parse_value].
      change (skip_ws (91%N :: ?r)) with (91%N :: r). cbv iota.
      change (is_char 91 "n") with false. change (is_char 91 "t") with false.
      change (is_char 91 "f") with false. change (is_char 91 "034") with false.
      change (is_char 91 "[") with true. cbv iota.
      destruct Hts as [|x t items ts [Hx (_ & (c & tail & -> & Hws & Hclose) & _)] Hrest'].
      * reflexivity.
      * pose proof (Hparse ltac:(discriminate) fuel rest ltac:(lia)) as Hp.
        match goal with
        | |- context [skip_ws ?text] =>
            assert (Hjoin : exists tail', text = c :: tail')
              by (destruct ts; cbn; eexists; reflexivity);
            destruct Hjoin as (tail' & Hjoin);
            change (parse_elements fuel text = Some (x :: items, rest)) in Hp
        end.
        rewrite Hjoin in Hp |- *. cbn [skip_ws]. rewrite Hws, Hclose, Hp.
        reflexivity.
  - (* objects *)
    apply andb_prop in Hv. destruct Hv as [Hv Henum].
    apply andb_prop in Hv. destruct Hv as [Hmembers Hkeys].
    assert (Hts : exists ts,
               Forall2 (fun kv m =>
                          exists t, m = quote (fst kv) ++ str ":" ++ t
                                    /\ well_formed (fst kv) = true
                                    /\ stringify (snd kv) = Text t
                                    /\ reads_back (snd kv) t) props ts).
    { clear - IH Hmembers. induction props as [|[k x] props IHprops].
      - exists []. constructor.
      - cbn in Hmembers. apply andb_prop in Hmembers.
        destruct Hmembers as [Hx Hprops].
        apply andb_prop in Hx. destruct Hx as [Hk Hx].
        inversion IH as [|? ? IHx IHrest]; subst.
        destruct (IHx Hx) as (t & Ht & Hback).
        destruct (IHprops IHrest Hprops) as (ts & Hts).
        exists ((quote k ++ str ":" ++ t) :: ts).
        constructor; [|assumption].
        exists t. split; [reflexivity | split; [exact Hk | split; assumption]]. }
    destruct Hts as (ts & Hts).
    destruct (members_read_back props ts Hts) as (Htexts & Hlen & Hparse).
    unfold stringify. rewrite serialize_object by exact Hmembers.
    fold stringify.
    change (List.map (fun '(k, x) => (k, serialize true x)) props)
      with (List.map (fun '(k, x) => (k, stringify x)) props).
    unfold object_text. rewrite Htexts.
    eexists. split; [reflexivity|].
    unfold reads_back. cbn [size]. fold (members_size props).
    change (str "{" ++ ?t) with (123%N :: t).
    split; [|split].
    + cbn [length]. rewrite length_app.
      change (length (str "}")) with 1%nat. lia.
    + eexists _, _. repeat split; reflexivity.
    + intros [|fuel] rest Hfuel Hrest; [lia|].
      rewrite <- List.app_comm_cons, <- List.app_assoc.
      change (str "}" ++ rest) with (125%N :: rest).
      cbn [parse_value].
      change (skip_ws (123%N :: ?r)) with (123%N :: r). cbv iota.
      change (is_char 123 "n") with false. change (is_char 123 "t") with false.
      change (is_char 123 "f") with false. change (is_char 123 "034") with false.
      change (is_char 123 "[") with false. change (is_char 123 "{") with true.
      cbv iota.
      destruct Hts as [|[k x] m props ts (t & -> & Hk & Hx & _) Hrest'].
      * reflexivity.
      * pose proof (Hparse ltac:(discriminate) fuel rest ltac:(lia)) as Hp.
        match goal with
        | |- context [skip_ws ?text] =>
            assert (Hjoin : exists tail', text = 34%N :: tail')
              by (unfold quote; destruct ts; cbn; eexists; reflexivity);
            destruct Hjoin as (tail' & Hjoin);
            change (parse_members fuel text = Some ((k, x) :: props, rest)) in Hp
        end.
        rewrite Hjoin in Hp |- *.
        change (skip_ws (34%N :: tail')) with (34%N :: tail'). cbv iota.
        change (is_char 34 "}") with false. cbv iota.
        rewrite Hp. rewrite define_props_enumerated by assumption.
        reflexivity.
Qed.

(** [JSON.parse(JSON.stringify(v))] is [v] for a serializable [v]. *)
Lemma parse_stringify (v : JsValue) :
  serializable v = true ->
  exists text, stringify v = Text text /\ parse text = Some v.
Proof.
  intros Hv. destruct (stringify_reads_back v Hv) as (text & Htext & Hback).
  exists text. split; [exact Htext|].
  destruct Hback as (Hlen & _ & Hparse).
  unfold parse.
  pose proof (Hparse (S (2 * length text)) [] ltac:(lia) eq_refl) as Hp.
  rewrite List.app_nil_r in Hp. rewrite Hp. reflexivity.
Qed.

End JSONFacts.

(* ================================================================== *)
(** * The value codec *)
(* ================================================================== *)




(** C8 at the failing input.  For the array [[1n, Symbol('x')]]
    [JSON.stringify] throws on the BigInt, and the fallback
    [String(value)] throws on the symbol: [serializeValue] raises. *)
Lemma serializeValue_raises :
  JSON.stringify (VArr [VBigInt 1; VSymbol (str "x")])
  = JSON.Raises (ThrownError (JS.TypeError "Do not know how to serialize a BigInt"))
  /\ JS.StringOf (VArr [VBigInt 1; VSymbol (str "x")])
     = inl (ThrownError (JS.TypeError "Cannot convert a Symbol value to a string"))
  /\ CallbackSaver.serializeValue (CallbackSaver.new Mock.backend)
       (VArr [VBigInt 1; VSymbol (str "x")])
     = inl (ThrownError (JS.TypeError "Cannot convert a Symbol value to a string")).
Proof. repeat split. Qed.

(** The same for an object whose [toString] is not callable and that
    holds a BigInt: [String(value)] finds no primitive. *)
Lemma object_without_primitive_raises :
  CallbackSaver.serializeValue (CallbackSaver.new Mock.backend)
    (VObj [(str "toString", VNull); (str "x", VBigInt 1)])
  = inl (ThrownError (JS.TypeError "Cannot convert object to primitive value")).
Proof. reflexivity. Qed.

(** C1 at the failing input.  [putWrites] with thread id and checkpoint
    id present and the value [[1n, Symbol('x')]]: [serializeValue]
    throws, the error surfaces through the method's [catch] block, and
    the backend's [putWrites] is not called: no batch is forwarded. *)
Lemma putWrites_unrenderable_value :
  CallbackSaver.putWrites (CallbackSaver.new Mock.backend)
    (Mock.config_of (Some "t") (Some "c"))
    [("c1", VArr [VBigInt 1; VSymbol (str "x")])] "task" (Mock.start Mock.empty)
  = (Threw (ThrownError
              (CallbackSaverError
                 (str "Failed to save writes: Cannot convert a Symbol value to a string")
                 (Some (JS.TypeError "Cannot convert a Symbol value to a string")))),
     Mock.start Mock.empty, []).
Proof. reflexivity. Qed.

Lemma lookup_map {A C : Type} (f : A -> C) (key : JsString)
    (entries : list (JsString * A)) :
  lookup key (List.map (fun '(k, a) => (k, f a)) entries)
  = option_map f (lookup key entries).
Proof.
  induction entries as [|[k a] entries IH]; cbn; [reflexivity|].
  destruct (JS.eqb key k); [reflexivity | exact IH].
Qed.

(** [String(value)] returns on every value that is neither an array nor
    an object with a [toString] property of its own. *)
Lemma StringOf_returns (v : JsValue) :
  (forall items, v <> VArr items) ->
  (forall props, v = VObj props -> lookup (str "toString") props = None) ->
  exists s, JS.StringOf v = inr s.
Proof.
  destruct v as [| |[]| | | | | |items|props|]; intros Hv Hobj;
    try (eexists; reflexivity).
  - exfalso. exact (Hv items eq_refl).
  - unfold StringOf. cbn [ToString]. unfold ordinary_to_string.
    rewrite lookup_map, (Hobj props eq_refl). eexists. reflexivity.
Qed.

(** What holds of the codec.  With serialization enabled,
    [serializeValue] returns the JSON text when there is one, and what
    [String(value)] returns or throws when [JSON.stringify] returns
    [undefined] or throws; so it returns a string on every value that is
    neither an array nor an object with a [toString] of its own, cyclic
    objects, [undefined], functions and symbols among them.  With
    serialization disabled it returns the value.  [deserializeValue]
    returns a value that is not a string as it is, and a string that
    does not parse as it is. *)
Lemma codec_tolerance :
  forall (B : Type) (this : Config.t B) (v : JsValue),
    (CallbackSaver.serialize_is_false this = false ->
     (forall text, JSON.stringify v = JSON.Text text ->
                   CallbackSaver.serializeValue this v = inr (VStr text))
     /\ (JSON.stringify v = JSON.NoText
         \/ (exists e, JSON.stringify v = JSON.Raises e) ->
         CallbackSaver.serializeValue this v = CallbackSaver.string_of v)
     /\ ((forall items, v <> VArr items) ->
         (forall props, v = VObj props -> lookup (str "toString") props = None) ->
         exists s, CallbackSaver.serializeValue this v = inr (VStr s)))
    /\ (CallbackSaver.serialize_is_false this = true ->
        CallbackSaver.serializeValue this v = inr v)
    /\ (JS.is_string v = false -> CallbackSaver.deserializeValue this v = v)
    /\ (forall s, JSON.parse s = None ->
                  CallbackSaver.deserializeValue this (VStr s) = VStr s).
Proof.
  intros B this v.
  unfold CallbackSaver.serializeValue, CallbackSaver.deserializeValue.
  split; [|split; [|split]].
  - intros ->. split; [|split].
    + intros text ->. reflexivity.
    + intros [-> | [e ->]]; reflexivity.
    + intros Hv Hobj. destruct (StringOf_returns v Hv Hobj) as (s & Hs).
      unfold CallbackSaver.string_of. rewrite Hs.
      destruct (JSON.stringify v); eexists; reflexivity.
  - intros ->. reflexivity.
  - intros Hv. destruct (CallbackSaver.serialize_is_false this); [reflexivity|].
    destruct v; try reflexivity. discriminate Hv.
  - intros s Hs. destruct (CallbackSaver.serialize_is_false this); [reflexivity|].
    rewrite Hs. reflexivity.
Qed.

(* ================================================================== *)
(** * Further properties of the methods *)
(* ================================================================== *)

(** X1. Without a thread id in the config, [put], [list] and [putWrites]
    call no backend callback, leave the world (clock included) as it
    was, and reject with the thread-id error wrapped by their own
    [catch] block; [putWrites] does so whether or not the config has a
    checkpoint id, so the missing thread id is reported first. *)
Theorem thread_id_is_checked_first :
  forall (B : Type) (this : Config.t B) (config : RunnableConfig.t)
         (w : World B),
    JS.is_truthy (RunnableConfig.thread_id config) = false ->
    (forall checkpoint metadata newVersions,
        CallbackSaver.put this config checkpoint metadata newVersions w
        = (Threw (wrapped "Failed to save checkpoint"
                          "thread_id is required in config.configurable"),
           w, []))
    /\ (forall fuel options _before _limit,
           CallbackSaver.list this fuel config options _before _limit w
           = (Threw (wrapped "Failed to list checkpoints"
                             "thread_id is required in config.configurable"),
              w, []))
    /\ (forall writes taskId,
           CallbackSaver.putWrites this config writes taskId w
           = (Threw (wrapped "Failed to save writes"
                             "thread_id is required in config.configurable"),
              w, [])).
Proof.
  intros B this config w H. unfold JS.is_truthy in H.
  unfold CallbackSaver.put, CallbackSaver.list, CallbackSaver.putWrites,
    try_catch.
  destruct (JS.truthy (RunnableConfig.thread_id config)); [discriminate|].
  repeat split.
Qed.

Lemma thread_id_is_checked_first_witness :
  CallbackSaver.putWrites (CallbackSaver.new Mock.backend)
    (Mock.config_of (Some EmptyString) None) [("c1", VNum (JS.of_Z 1))] "task"
    (Mock.start Mock.empty)
  = (Threw (wrapped "Failed to save writes"
                    "thread_id is required in config.configurable"),
     Mock.start Mock.empty, []).
Proof.
  apply (thread_id_is_checked_first Mock.Store (CallbackSaver.new Mock.backend)
           (Mock.config_of (Some EmptyString) None) (Mock.start Mock.empty)).
  reflexivity.
Defined.

(** X2. The namespace a method works under is never empty: it is the
    config's [checkpoint_ns] when that is a non-empty string, else the
    saver's [namespace] option when that is a non-empty string, else
    ['default']. *)
Theorem namespace_resolution :
  forall (B : Type) (this : Config.t B) (config : RunnableConfig.t),
    CallbackSaver.resolve_namespace this config <> EmptyString
    /\ (forall ns, JS.truthy (RunnableConfig.checkpoint_ns config) = Some ns ->
                   CallbackSaver.resolve_namespace this config = ns)
    /\ (JS.truthy (RunnableConfig.checkpoint_ns config) = None ->
        (forall ns, JS.truthy (Config.namespace this) = Some ns ->
                    CallbackSaver.resolve_namespace this config = ns)
        /\ (JS.truthy (Config.namespace this) = None ->
            CallbackSaver.resolve_namespace this config = "default")).
Proof.
  intros B this config.
  unfold CallbackSaver.resolve_namespace, JS.or_lit, JS.or, JS.is_truthy.
  destruct (RunnableConfig.checkpoint_ns config) as [[|c ns]|];
    destruct (Config.namespace this) as [[|c' ns']|]; cbn;
    repeat split; try discriminate; try congruence.
Qed.

Lemma namespace_resolution_witness :
  CallbackSaver.resolve_namespace (CallbackSaver.new Mock.backend)
    (Mock.config_of (Some "t") None)
  = "default".
Proof.
  apply (proj1 (proj2 (proj2 (namespace_resolution Mock.Store
                                (CallbackSaver.new Mock.backend)
                                (Mock.config_of (Some "t") None))) eq_refl)
               "default").
  reflexivity.
Defined.

Section PassThrough.
Context {B : Type}.
Variable this : Config.t B.

Lemma encode_pass_through (value : JsValue) :
  CallbackSaver.serialize_is_false this = true ->
  CallbackSaver.encode this value = inr value.
Proof. unfold CallbackSaver.encode. intros ->. reflexivity. Qed.

Lemma encodes_pass_through (writes : list PendingWrite) :
  CallbackSaver.serialize_is_false this = true ->
  forallb (fun write => encodes this (snd write)) writes = true.
Proof.
  intros H. apply forallb_forall. intros write _.
  unfold encodes. now rewrite encode_pass_through.
Qed.

End PassThrough.

(** X3. With [serialize: false], [putWrites] hands every value to the
    backend as it is, whatever the value: one [putWrites] call whose
    records carry the caller's channels and values in the caller's
    order. *)
Theorem putWrites_pass_through :
  forall (B : Type) (this : Config.t B) (config : RunnableConfig.t)
         (writes : list PendingWrite) (taskId : string) (w : World B),
    CallbackSaver.serialize_is_false this = true ->
    JS.is_truthy (RunnableConfig.thread_id config) = true ->
    JS.is_truthy (RunnableConfig.checkpoint_id config) = true ->
    exists records,
      trace (CallbackSaver.putWrites this config writes taskId w)
      = [PutWrites records (fst (Config.putWrites this records (store w)))]
      /\ store (world_after (CallbackSaver.putWrites this config writes taskId w))
         = snd (Config.putWrites this records (store w))
      /\ map (fun rec => (StoredWrite.channel rec, StoredWrite.value rec)) records
         = writes.
Proof.
  intros B this config writes taskId w Hoff Ht Hc.
  unfold JS.is_truthy in Ht, Hc.
  destruct (JS.truthy (RunnableConfig.thread_id config)) as [threadId|] eqn:Et;
    [clear Ht | discriminate].
  destruct (JS.truthy (RunnableConfig.checkpoint_id config)) as [checkpointId|] eqn:Ec;
    [clear Hc | discriminate].
  destruct (map_from_stored_write this threadId
              (CallbackSaver.resolve_namespace this config) checkpointId taskId
              writes (encodes_pass_through this writes Hoff) 0 w)
    as (records & Hrun & _ & Hrec & _).
  exists records.
  assert (E : trace (CallbackSaver.putWrites this config writes taskId w)
              = [PutWrites records
                   (fst (Config.putWrites this records (store w)))]
              /\ store (world_after
                          (CallbackSaver.putWrites this config writes taskId w))
                 = snd (Config.putWrites this records (store w))).
  { unfold CallbackSaver.putWrites, try_catch. rewrite Et, Ec.
    unfold bind. rewrite Hrun.
    unfold CallbackSaver.await_putWrites, await. cbn [store].
    destruct (Config.putWrites this records (store w)) as [r s'].
    destruct r; split; reflexivity. }
  destruct E as [E1 E2]. split; [exact E1|]. split; [exact E2|].
  clear - Hrec Hoff. induction Hrec as [|rec [channel value] records writes [Hch Hval] _ IH].
  - reflexivity.
  - cbn [map fst snd] in *. rewrite encode_pass_through in Hval by assumption.
    injection Hval as Hval. rewrite IH, Hch, <- Hval. reflexivity.
Qed.

Lemma putWrites_pass_through_witness :
  exists records,
    trace (CallbackSaver.putWrites (CallbackSaver.new Mock.raw)
             (Mock.config_of (Some "t") (Some "c"))
             [("c1", VArr [VBigInt 1; VSymbol (str "x")])] "task"
             (Mock.start Mock.empty))
    = [PutWrites records (Fulfilled tt)]
    /\ Mock.saved_writes
         (store
            (world_after
               (CallbackSaver.putWrites (CallbackSaver.new Mock.raw)
                  (Mock.config_of (Some "t") (Some "c"))
                  [("c1", VArr [VBigInt 1; VSymbol (str "x")])] "task"
                  (Mock.start Mock.empty))))
       = records
    /\ map (fun rec => (StoredWrite.channel rec, StoredWrite.value rec)) records
       = [("c1", VArr [VBigInt 1; VSymbol (str "x")])].
Proof.
  destruct (putWrites_pass_through Mock.Store (CallbackSaver.new Mock.raw)
              (Mock.config_of (Some "t") (Some "c"))
              [("c1", VArr [VBigInt 1; VSymbol (str "x")])] "task"
              (Mock.start Mock.empty) eq_refl eq_refl eq_refl)
    as (records & Htrace & Hstore & Hvalues).
  exists records. split; [exact Htrace|]. split; [|exact Hvalues].
  rewrite Hstore. reflexivity.
Defined.

(** X4. [deleteThread] has no guard on its argument: for every thread
    id, the empty string included, it calls the backend's [deleteThread]
    once with that id and nothing else, and returns when the callback
    resolves. *)
Theorem deleteThread_forwards_any_id :
  forall (B : Type) (this : Config.t B) (threadId : string) (w : World B),
    exists r,
      trace (CallbackSaver.deleteThread this threadId w)
      = [DeleteThread threadId r]
      /\ r = fst (Config.deleteThread this threadId (store w))
      /\ (r = Fulfilled tt ->
          outcome (CallbackSaver.deleteThread this threadId w) = Returned tt).
Proof.
  intros B this threadId w.
  unfold CallbackSaver.deleteThread, try_catch, CallbackSaver.await_deleteThread,
    await.
  destruct (Config.deleteThread this threadId (store w)) as [r s'].
  exists r. destruct r as [[]|e]; repeat split; try reflexivity.
  intros [=].
Qed.

Section Requests.
Context {B : Type}.
Variable this : Config.t B.

(** The backend leaves the options object it is handed as it is. *)
Hypothesis keeps_options :
  forall o s, snd (fst (Config.listCheckpoints this o s)) = o.

Lemma for_of_yield_requests (cs : list StoredCheckpoint.t) :
  forall (w : World B),
    listing_requests (trace (for_of cs (CallbackSaver.yield_checkpoint this) w))
    = [].
Proof.
  intros w.
  destruct (for_of cs (CallbackSaver.yield_checkpoint this) w)
    as [[out w'] t] eqn:E.
  apply (for_of_yield_run this cs w out w' t E).
Qed.

Lemma list_pages_requests (fuel : nat) :
  forall (o : ListCheckpointsOptions.t) (w : World B),
    Forall (same_scope o)
           (listing_requests (trace (CallbackSaver.list_pages this fuel o w))).
Proof.
  induction fuel as [|fuel IH]; intros o w; [constructor|].
  cbn [CallbackSaver.list_pages]. unfold bind at 1.
  unfold CallbackSaver.await_listCheckpoints.
  pose proof (keeps_options o (store w)) as Hkeep.
  destruct (Config.listCheckpoints this o (store w)) as [[[page|e] o'] s'];
    cbn [fst snd] in Hkeep; subst o'.
  2:{ cbn. constructor; [repeat split | constructor]. }
  set (w1 := {| store := s'; clock := clock w; reads := reads w |}).
  unfold bind at 1.
  pose proof (for_of_yield_requests (ListResult.checkpoints page) w1) as Hfor.
  destruct (for_of (ListResult.checkpoints page)
              (CallbackSaver.yield_checkpoint this) w1) as [[o2 w2] t2].
  unfold trace in Hfor. cbn [snd] in Hfor.
  assert (Hhead : same_scope o o) by (repeat split).
  destruct o2 as [[]|e|].
  - destruct (JS.truthy (ListResult.nextCursor page)) as [cursor|].
    + specialize (IH (ListCheckpointsOptions.set_before o (Some cursor)) w2).
      destruct (CallbackSaver.list_pages this fuel
                  (ListCheckpointsOptions.set_before o (Some cursor)) w2)
        as [[o3 w3] t3].
      unfold trace in *. cbn [snd List.app listing_requests] in *.
      rewrite !listing_requests_app, Hfor. cbn [List.app].
      constructor; [exact Hhead|].
      eapply Forall_impl; [|exact IH].
      intros o' (H1 & H2 & H3 & H4). repeat split; assumption.
    + unfold trace. cbn [snd List.app listing_requests ret].
      rewrite !listing_requests_app, Hfor. cbn.
      constructor; [exact Hhead | constructor].
  - unfold trace. cbn [snd List.app listing_requests].
    rewrite Hfor. constructor; [exact Hhead | constructor].
  - unfold trace. cbn [snd List.app listing_requests].
    rewrite Hfor. constructor; [exact Hhead | constructor].
Qed.

End Requests.

(** X5. When the backend does not change the options object it is
    handed, every listing request of a [list] run has the thread id,
    namespace, limit and filter of the first one: from page to page only
    [before] moves.  The limit is [_limit] when that is a non-zero
    number, else [options.limit]. *)
Theorem list_requests_share_their_scope :
  forall (B : Type) (this : Config.t B) (fuel : nat)
         (config : RunnableConfig.t) (options : option CheckpointListOptions.t)
         (_before : option RunnableConfig.t) (_limit : option Z)
         (w : World B) (threadId : string),
    (forall o s, snd (fst (Config.listCheckpoints this o s)) = o) ->
    JS.truthy (RunnableConfig.thread_id config) = Some threadId ->
    Forall (same_scope (first_request this config threadId options _before _limit))
           (listing_requests
              (trace (CallbackSaver.list this fuel config options _before _limit w)))
    /\ ListCheckpointsOptions.limit
         (first_request this config threadId options _before _limit)
       = match _limit with
         | Some 0%Z | None =>
             match options with
             | Some o => CheckpointListOptions.limit o
             | None => None
             end
         | Some n => Some n
         end.
Proof.
  intros B this fuel config options _before _limit w threadId Hkeep Ht.
  split.
  - unfold CallbackSaver.list. rewrite Ht.
    fold (first_request this config threadId options _before _limit).
    set (o := first_request this config threadId options _before _limit).
    pose proof (list_pages_requests this Hkeep fuel o w) as H.
    unfold try_catch.
    destruct (CallbackSaver.list_pages this fuel o w) as [[[[]|e|] w1] t1];
      unfold trace in *; cbn [snd] in *; try exact H.
    cbn. rewrite List.app_nil_r. exact H.
  - cbn. unfold JS.or_num. destruct _limit as [[| |]|]; reflexivity.
Qed.

Lemma list_requests_share_their_scope_witness :
  Forall (same_scope
            (first_request (CallbackSaver.new Mock.backend)
               (Mock.config_of (Some "t") None) "t" None None (Some 1%Z)))
         (listing_requests
            (trace (CallbackSaver.list (CallbackSaver.new Mock.backend) 5
                      (Mock.config_of (Some "t") None) None None (Some 1%Z)
                      (Mock.start Mock.two_pages)))).
Proof.
  apply (list_requests_share_their_scope Mock.Store
           (CallbackSaver.new Mock.backend) 5 (Mock.config_of (Some "t") None)
           None None (Some 1%Z) (Mock.start Mock.two_pages) "t").
  - intros o s. cbn. destruct (Mock.next_page s). reflexivity.
  - reflexivity.
Defined.

Section Emits.
Context {B : Type}.
Variable this : Config.t B.
Variable P : Event -> bool.

Lemma emits_silent {A} (m : M B A) :
  (forall w, trace (m w) = []) -> emits P m.
Proof. intros H w. now rewrite H. Qed.

Lemma emits_bind {A C} (m : M B A) (k : A -> M B C) :
  emits P m -> (forall a, emits P (k a)) -> emits P (bind m k).
Proof.
  intros Hm Hk w. specialize (Hm w). unfold bind, trace in *.
  destruct (m w) as [[[a|e|] w1] t1]; cbn [snd] in *; try exact Hm.
  specialize (Hk a w1). unfold trace in Hk.
  destruct (k a w1) as [[o2 w2] t2]. cbn [snd] in *.
  rewrite forallb_app, Hm, Hk. reflexivity.
Qed.

Lemma emits_try_catch {A} (body : M B A) (what : string) :
  emits P body -> emits P (try_catch body (CallbackSaver.rethrow what)).
Proof.
  intros Hbody w. specialize (Hbody w). unfold try_catch, trace in *.
  destruct (body w) as [[[a|e|] w1] t1]; cbn [snd] in *; try exact Hbody.
  unfold CallbackSaver.rethrow, throw. cbn [snd]. now rewrite List.app_nil_r.
Qed.

Lemma emits_for_of {A} (l : list A) (body : A -> M B unit) :
  (forall x, emits P (body x)) -> emits P (for_of l body).
Proof.
  intros Hbody. induction l as [|x l IH]; cbn [for_of].
  - apply emits_silent. reflexivity.
  - apply emits_bind; [apply Hbody | intros _; exact IH].
Qed.

Lemma emits_await {A} (call : B -> Settled A * B) (log : Settled A -> Event) :
  (forall r, P (log r) = true) -> emits P (await call log).
Proof.
  intros Hlog w. unfold await, trace. destruct (call (store w)) as [r s'].
  cbn. now rewrite Hlog.
Qed.

End Emits.

Section ReadOnly.
Context {B : Type}.
Variable this : Config.t B.

Lemma yield_checkpoint_reads (c : StoredCheckpoint.t) :
  emits is_read (CallbackSaver.yield_checkpoint this c).
Proof.
  unfold CallbackSaver.yield_checkpoint. apply emits_bind.
  - apply emits_await. reflexivity.
  - intros writes w. reflexivity.
Qed.

Lemma list_pages_reads (fuel : nat) :
  forall o, emits is_read (CallbackSaver.list_pages this fuel o).
Proof.
  induction fuel as [|fuel IH]; intros o; cbn [CallbackSaver.list_pages].
  - apply emits_silent. reflexivity.
  - apply emits_bind.
    + intros w. unfold CallbackSaver.await_listCheckpoints, trace.
      destruct (Config.listCheckpoints this o (store w)) as [[r o'] s'].
      reflexivity.
    + intros [result o']. apply emits_bind.
      * apply emits_for_of. apply yield_checkpoint_reads.
      * intros _. destruct (JS.truthy (ListResult.nextCursor result)).
        -- apply IH.
        -- apply emits_silent. reflexivity.
Qed.

End ReadOnly.

(** X6. [getTuple] and [list] only read: whatever the backend answers,
    they never invoke [putCheckpoint], [putWrites] or [deleteThread];
    and [getTuple] makes at most two calls. *)
Theorem reads_never_write :
  forall (B : Type) (this : Config.t B) (config : RunnableConfig.t)
         (w : World B),
    forallb is_read (trace (CallbackSaver.getTuple this config w)) = true
    /\ length (trace (CallbackSaver.getTuple this config w)) <= 2
    /\ (forall fuel options _before _limit,
           forallb is_read
             (trace (CallbackSaver.list this fuel config options _before _limit w))
           = true).
Proof.
  intros B this config w. split; [|split].
  - revert w. change (emits is_read (CallbackSaver.getTuple this config)).
    unfold CallbackSaver.getTuple. apply emits_try_catch.
    destruct (JS.truthy (RunnableConfig.thread_id config)) as [threadId|].
    + apply emits_bind; [apply emits_await; reflexivity|].
      intros [stored|].
      * apply emits_bind; [apply emits_await; reflexivity|].
        intros writes. apply emits_silent. reflexivity.
      * apply emits_silent. reflexivity.
    + apply emits_silent. reflexivity.
  - unfold CallbackSaver.getTuple, try_catch.
    destruct (JS.truthy (RunnableConfig.thread_id config)) as [threadId|];
      [|cbn; lia].
    unfold bind, CallbackSaver.await_getCheckpoint, await.
    destruct (Config.getCheckpoint this threadId
                (CallbackSaver.resolve_namespace this config)
                (RunnableConfig.checkpoint_id config) (store w))
      as [[[stored|]|e] s']; cbn; try lia.
    unfold CallbackSaver.await_getWrites, await. cbn.
    destruct (Config.getWrites this (StoredCheckpoint.threadId stored)
                (StoredCheckpoint.namespace stored)
                (StoredCheckpoint.checkpointId stored) s') as [[ws|e] s''];
      cbn; lia.
  - intros fuel options _before _limit. revert w.
    change (emits is_read
              (CallbackSaver.list this fuel config options _before _limit)).
    unfold CallbackSaver.list. apply emits_try_catch.
    destruct (JS.truthy (RunnableConfig.thread_id config)) as [threadId|].
    + apply list_pages_reads.
    + apply emits_silent. reflexivity.
Qed.

Lemma lookups_app (t1 t2 : Trace) : lookups (t1 ++ t2) = lookups t1 ++ lookups t2.
Proof.
  induction t1 as [|ev t1 IH]; [reflexivity|].
  destruct ev; cbn; rewrite ?IH; reflexivity.
Qed.

Section Lookups.
Context {B : Type}.
Variable this : Config.t B.

Lemma for_of_yield_lookups (cs : list StoredCheckpoint.t) :
  forall (w : World B) w' t,
    for_of cs (CallbackSaver.yield_checkpoint this) w = (Returned tt, w', t) ->
    lookups t = map identity cs.
Proof.
  induction cs as [|c cs IH]; intros w w' t Hrun.
  - cbn in Hrun. injection Hrun as <- <-. reflexivity.
  - cbn [for_of] in Hrun. unfold bind in Hrun.
    destruct (yield_checkpoint_run this c w) as [(writes & w1 & E) | (e & w1 & E)];
      rewrite E in Hrun; [|discriminate].
    destruct (for_of cs (CallbackSaver.yield_checkpoint this) w1)
      as [[o2 w2] t2] eqn:Erest.
    injection Hrun as -> <- <-.
    cbn. rewrite (IH _ _ _ Erest). reflexivity.
Qed.

Lemma list_pages_lookups (fuel : nat) :
  forall (o : ListCheckpointsOptions.t) (w : World B) w' t,
    CallbackSaver.list_pages this fuel o w = (Returned tt, w', t) ->
    lookups t = map identity (listed t)
    /\ length (yields t) = length (lookups t).
Proof.
  induction fuel as [|fuel IH]; intros o w w' t Hrun.
  - discriminate.
  - cbn [CallbackSaver.list_pages] in Hrun. unfold bind at 1 in Hrun.
    unfold CallbackSaver.await_listCheckpoints in Hrun.
    destruct (Config.listCheckpoints this o (store w)) as [[[page|e] o'] s'];
      [|discriminate].
    unfold bind in Hrun.
    destruct (for_of (ListResult.checkpoints page)
                (CallbackSaver.yield_checkpoint this)
                {| store := s'; clock := clock w; reads := reads w |})
      as [[o2 w2] t2] eqn:Efor.
    destruct (for_of_yield_run this _ _ _ _ _ Efor) as (Hp & _ & _ & Hy).
    destruct o2 as [[]|e|]; try discriminate.
    pose proof (for_of_yield_lookups _ _ _ _ Efor) as Hl.
    pose proof (Forall2_length (Hy eq_refl)) as Hlen.
    destruct (JS.truthy (ListResult.nextCursor page)) as [cursor|].
    + destruct (CallbackSaver.list_pages this fuel
                  (ListCheckpointsOptions.set_before o' (Some cursor)) w2)
        as [[o3 w3] t3] eqn:Erest.
      injection Hrun as -> <- <-.
      destruct (IH _ _ _ _ Erest) as [IHl IHn].
      unfold listed in *. cbn [lookups yields pages List.app].
      rewrite !lookups_app, !yields_app, !pages_app, Hp, Hl.
      cbn [List.app flat_map snd]. rewrite map_app, IHl, !length_app, !length_map.
      split; [reflexivity|].
      rewrite IHl, length_map in IHn. rewrite Hlen, IHn. reflexivity.
    + cbn in Hrun. injection Hrun as <- <-.
      unfold listed. cbn [lookups yields pages List.app].
      rewrite !lookups_app, !yields_app, !pages_app, Hp, Hl.
      cbn [lookups yields List.app flat_map snd].
      rewrite !List.app_nil_r, length_map. split; [reflexivity | exact Hlen].
Qed.

End Lookups.

(** X7. In a [list] run that comes to its end, [getWrites] is called
    once for each listed checkpoint, in the order they are listed, under
    the thread id, namespace and checkpoint id the stored checkpoint
    itself carries (not the caller's), and there are as many yields as
    lookups. *)
Theorem list_looks_up_writes_per_checkpoint :
  forall (B : Type) (this : Config.t B) (fuel : nat)
         (config : RunnableConfig.t) (options : option CheckpointListOptions.t)
         (_before : option RunnableConfig.t) (_limit : option Z)
         (w w' : World B) (t : Trace),
    CallbackSaver.list this fuel config options _before _limit w
    = (Returned tt, w', t) ->
    lookups t = map identity (listed t)
    /\ length (yields t) = length (lookups t).
Proof.
  intros B this fuel config options _before _limit w w' t Hrun.
  unfold CallbackSaver.list, try_catch in Hrun.
  destruct (JS.truthy (RunnableConfig.thread_id config)) as [threadId|];
    [|discriminate].
  match type of Hrun with
  | context [CallbackSaver.list_pages this fuel ?o w] =>
      destruct (CallbackSaver.list_pages this fuel o w) as [[[[]|e|] w1] t1] eqn:E;
      try discriminate
  end.
  injection Hrun as <- <-.
  exact (list_pages_lookups this fuel _ _ _ _ E).
Qed.

Lemma list_looks_up_writes_per_checkpoint_witness :
  lookups (trace (CallbackSaver.list (CallbackSaver.new Mock.backend) 5
                    (Mock.config_of (Some "caller") None) None None None
                    (Mock.start Mock.two_pages)))
  = [("t", "default", "a"); ("t", "default", "b")].
Proof.
  exact (proj1 (list_looks_up_writes_per_checkpoint Mock.Store
                  (CallbackSaver.new Mock.backend) 5
                  (Mock.config_of (Some "caller") None) None None None
                  (Mock.start Mock.two_pages) _ _ eq_refl)).
Defined.

(** X8. With serialization enabled, two values made of [null],
    booleans, finite numbers other than [-0], strings, arrays and
    objects that [serializeValue] stores as the same thing are the same
    value: the stored form determines the value.  The number [-0] is
    left out, as it is stored as [0] is. *)
Theorem serializeValue_is_injective :
  forall (B : Type) (this : Config.t B) (v1 v2 : JsValue),
    CallbackSaver.serialize_is_false this = false ->
    JSON.serializable v1 = true ->
    JSON.serializable v2 = true ->
    CallbackSaver.serializeValue this v1 = CallbackSaver.serializeValue this v2 ->
    v1 = v2.
Proof.
  intros B this v1 v2 Hon H1 H2 Heq.
  destruct (JSONFacts.parse_stringify v1 H1) as (t1 & Ht1 & Hp1).
  destruct (JSONFacts.parse_stringify v2 H2) as (t2 & Ht2 & Hp2).
  unfold CallbackSaver.serializeValue in Heq. rewrite Hon, Ht1, Ht2 in Heq.
  injection Heq as ->. rewrite Hp1 in Hp2. now injection Hp2.
Qed.

Lemma serializeValue_is_injective_witness :
  VArr [VNum (JS.of_Z 1); VStr (str "1")] = VArr [VNum (JS.of_Z 1); VStr (str "1")].
Proof.
  apply (serializeValue_is_injective Mock.Store (CallbackSaver.new Mock.backend));
    reflexivity.
Defined.

(* ================================================================== *)
(** * Properties of the example backend *)
(* ================================================================== *)

Module JsMapFacts.
Section Entries.
Context {V : Type}.
Implicit Types (m : JsMap.t V) (k : string) (v : V).

Lemma get_set_same k v m : JsMap.get k (JsMap.set k v m) = Some v.
Proof.
  induction m as [|[k' v'] m IH]; cbn.
  - now rewrite String.eqb_refl.
  - destruct (String.eqb k k') eqn:E; cbn; rewrite ?String.eqb_refl, ?E; auto.
Qed.

Lemma get_set_other k k' v m :
  k <> k' -> JsMap.get k (JsMap.set k' v m) = JsMap.get k m.
Proof.
  intros Hne. induction m as [|[k0 v0] m IH]; cbn.
  - destruct (String.eqb_spec k k'); [contradiction | reflexivity].
  - destruct (String.eqb_spec k' k0) as [->|Hk]; cbn.
    + destruct (String.eqb_spec k k0); [contradiction | reflexivity].
    + destruct (String.eqb k k0); [reflexivity | exact IH].
Qed.

Lemma keys_set_new k v m :
  JsMap.get k m = None -> JsMap.keys (JsMap.set k v m) = JsMap.keys m ++ [k].
Proof.
  induction m as [|[k' v'] m IH]; cbn; [reflexivity|].
  destruct (String.eqb k k'); [discriminate|].
  intros H. cbn. unfold JsMap.keys in IH. now rewrite IH.
Qed.

Lemma keys_set_old k v v0 m :
  JsMap.get k m = Some v0 -> JsMap.keys (JsMap.set k v m) = JsMap.keys m.
Proof.
  induction m as [|[k' v'] m IH]; cbn; [discriminate|].
  destruct (String.eqb_spec k k') as [->|Hne]; [reflexivity|].
  intros H. cbn. unfold JsMap.keys in IH. now rewrite IH.
Qed.

Lemma get_in_keys k m : JsMap.get k m <> None <-> In k (JsMap.keys m).
Proof.
  induction m as [|[k' v'] m IH]; cbn; [tauto|].
  destruct (String.eqb_spec k k') as [->|Hne].
  - split; [now left | discriminate].
  - rewrite IH. split; [now right|]. intros [H|H]; [congruence | exact H].
Qed.

Lemma keys_delete k k' m :
  In k (JsMap.keys (JsMap.delete k' m)) <-> In k (JsMap.keys m) /\ k <> k'.
Proof.
  unfold JsMap.keys, JsMap.delete. rewrite !in_map_iff. split.
  - intros ([k0 v0] & <- & Hin). apply filter_In in Hin. destruct Hin as [Hin Hk].
    cbn in *. split.
    + exists (k0, v0). split; [reflexivity | exact Hin].
    + intros ->. now rewrite String.eqb_refl in Hk.
  - intros (([k0 v0] & <- & Hin) & Hne). exists (k0, v0). split; [reflexivity|].
    apply filter_In. split; [exact Hin|]. cbn in *.
    destruct (String.eqb_spec k' k0); [congruence | reflexivity].
Qed.

Lemma keys_delete_all k (ks : list string) m :
  In k (JsMap.keys (fold_left (fun m key => JsMap.delete key m) ks m))
  <-> In k (JsMap.keys m) /\ ~ In k ks.
Proof.
  revert m. induction ks as [|k' ks IH]; intros m; cbn [fold_left].
  - cbn. tauto.
  - rewrite IH, keys_delete. cbn. intuition congruence.
Qed.

End Entries.
End JsMapFacts.

Module ExampleFacts.
Import Example.

Lemma startsWith_append (prefix rest : string) :
  startsWith (prefix ++ rest) prefix = true.
Proof.
  induction prefix as [|a prefix IH]; cbn; [reflexivity|].
  now rewrite Ascii.eqb_refl.
Qed.

Lemma startsWith_shorter (key a b : string) :
  startsWith key (a ++ b) = true -> startsWith key a = true.
Proof.
  revert key. induction a as [|x a IH]; intros key; cbn; [reflexivity|].
  destruct key as [|y key]; [discriminate|].
  destruct (Ascii.eqb x y); [apply IH | discriminate].
Qed.

Lemma in_insert_sorted (k key : string) (l : list string) :
  In k (insert_sorted key l) <-> k = key \/ In k l.
Proof.
  induction l as [|x l IH]; cbn; [intuition|].
  destruct (String.leb key x); cbn; [intuition|].
  rewrite IH. intuition.
Qed.

Lemma in_sort (k : string) (l : list string) : In k (sort l) <-> In k l.
Proof.
  induction l as [|x l IH]; [cbn; tauto|].
  cbn [sort fold_right]. rewrite in_insert_sorted. fold (sort l).
  rewrite IH. cbn. intuition.
Qed.

Lemma length_insert_sorted (key : string) (l : list string) :
  length (insert_sorted key l) = S (length l).
Proof.
  induction l as [|x l IH]; cbn; [reflexivity|].
  destruct (String.leb key x); cbn; [reflexivity | now rewrite IH].
Qed.

Lemma length_sort (l : list string) : length (sort l) = length l.
Proof.
  induction l as [|x l IH]; [reflexivity|].
  cbn [sort fold_right]. rewrite length_insert_sorted. cbn. f_equal. exact IH.
Qed.

Lemma insert_sorted_ascending (key : string) (l : list string) :
  ascending l -> ascending (insert_sorted key l).
Proof.
  induction l as [|x l IH]; cbn [insert_sorted]; [cbn; tauto|].
  intros Hl. destruct (String.leb key x) eqn:E.
  - cbn [ascending]. split; [exact E | exact Hl].
  - destruct Hl as [Hx Hl]. specialize (IH Hl).
    assert (Hxk : String.leb x key = true).
    { destruct (String.leb_total key x) as [H|H]; [congruence | exact H]. }
    destruct l as [|y l]; cbn [insert_sorted] in *.
    + cbn. tauto.
    + destruct (String.leb key y); cbn [ascending] in *; tauto.
Qed.

Lemma sort_ascending (l : list string) : ascending (sort l).
Proof.
  induction l as [|x l IH]; [exact I|].
  cbn [sort fold_right]. now apply insert_sorted_ascending.
Qed.

(** The keys of a thread and namespace are keys of the thread. *)
Lemma matching_in (key threadId namespace : string) (s : Storage) :
  In key (matching threadId namespace s) <->
  In key (JsMap.keys (checkpoints s))
  /\ startsWith key (threadId ++ ":" ++ namespace ++ ":") = true.
Proof. unfold matching. rewrite in_sort, filter_In. tauto. Qed.

Lemma lookup_all_finds (keys : list string) (m : JsMap.t StoredCheckpoint.t) :
  (forall k, In k keys -> In k (JsMap.keys m)) ->
  length (lookup_all keys m) = length keys.
Proof.
  induction keys as [|k keys IH]; intros H; [reflexivity|].
  cbn [lookup_all].
  destruct (JsMap.get k m) eqn:E.
  - cbn. rewrite IH; [reflexivity|]. intros k' Hk'. apply H. now right.
  - exfalso. apply (proj2 (JsMapFacts.get_in_keys k m)); [|exact E].
    apply H. now left.
Qed.

End ExampleFacts.

Lemma truthy_nonempty (s : option string) (t : string) :
  JS.truthy s = Some t -> t <> EmptyString /\ JS.truthy (Some t) = Some t.
Proof.
  destruct s as [[|c s]|]; cbn; intros [= <-]. split; [discriminate | reflexivity].
Qed.

Lemma truthy_of_nonempty (t : string) :
  t <> EmptyString -> JS.truthy (Some t) = Some t.
Proof. destruct t; [contradiction | reflexivity]. Qed.

Lemma resolve_namespace_nonempty {B : Type} (this : Config.t B)
    (config : RunnableConfig.t) :
  CallbackSaver.resolve_namespace this config <> EmptyString.
Proof.
  unfold CallbackSaver.resolve_namespace, JS.or_lit, JS.or, JS.is_truthy.
  destruct (RunnableConfig.checkpoint_ns config) as [[|c ns]|];
    destruct (Config.namespace this) as [[|c' ns']|]; cbn; discriminate.
Qed.

Lemma resolve_namespace_again {B : Type} (this : Config.t B)
    (config : RunnableConfig.t) (threadId : option string)
    (checkpointId parent : option string) :
  CallbackSaver.resolve_namespace this
    {| RunnableConfig.configurable := Some
         {| Configurable.thread_id := threadId;
            Configurable.checkpoint_ns :=
              Some (CallbackSaver.resolve_namespace this config);
            Configurable.checkpoint_id := checkpointId;
            Configurable.checkpoint_parent_id := parent |} |}
  = CallbackSaver.resolve_namespace this config.
Proof.
  pose proof (resolve_namespace_nonempty this config) as Hne.
  set (ns := CallbackSaver.resolve_namespace this config) in *.
  unfold CallbackSaver.resolve_namespace at 1. cbn.
  unfold JS.or, JS.or_lit, JS.is_truthy.
  rewrite (truthy_of_nonempty ns Hne). now rewrite (truthy_of_nonempty ns Hne).
Qed.

Section ExampleRuns.
Import Example.

Lemma example_put_run (config : RunnableConfig.t) (checkpoint : Checkpoint.t)
    (metadata : CheckpointMetadata) (newVersions : list (string * JsValue))
    (w : World Storage) (threadId : string) :
  JS.truthy (RunnableConfig.thread_id config) = Some threadId ->
  CallbackSaver.put exampleSaver config checkpoint metadata newVersions w
  = (Returned (put_config config threadId checkpoint),
     {| store :=
          snd (putCheckpoint
                 (put_record config threadId checkpoint metadata
                    (clock w (reads w)))
                 (store w));
        clock := clock w; reads := S (reads w) |},
     [PutCheckpoint
        (put_record config threadId checkpoint metadata (clock w (reads w)))
        (Fulfilled tt)]).
Proof.
  intros Ht. unfold CallbackSaver.put, try_catch. rewrite Ht. reflexivity.
Qed.

Lemma example_getTuple_by_id (config : RunnableConfig.t) (w : World Storage)
    (threadId checkpointId : string) (stored : StoredCheckpoint.t) :
  JS.truthy (RunnableConfig.thread_id config) = Some threadId ->
  JS.truthy (RunnableConfig.checkpoint_id config) = Some checkpointId ->
  JsMap.get (makeCheckpointKey threadId
               (CallbackSaver.resolve_namespace exampleSaver config) checkpointId)
            (checkpoints (store w)) = Some stored ->
  CallbackSaver.getTuple exampleSaver config w
  = (Returned
       (Some (CallbackSaver.make_tuple stored
                (CallbackSaver.pending_writes exampleSaver
                   (writes_under
                      (makeWriteKey (StoredCheckpoint.threadId stored)
                                    (StoredCheckpoint.namespace stored)
                                    (StoredCheckpoint.checkpointId stored))
                      (writes (store w)))))),
     w,
     [GetCheckpoint threadId (CallbackSaver.resolve_namespace exampleSaver config)
        (RunnableConfig.checkpoint_id config) (Fulfilled (Some stored));
      GetWrites (StoredCheckpoint.threadId stored)
        (StoredCheckpoint.namespace stored)
        (StoredCheckpoint.checkpointId stored)
        (Fulfilled
           (writes_under
              (makeWriteKey (StoredCheckpoint.threadId stored)
                            (StoredCheckpoint.namespace stored)
                            (StoredCheckpoint.checkpointId stored))
              (writes (store w))))]).
Proof.
  intros Ht Hc Hget.
  unfold CallbackSaver.getTuple, try_catch. rewrite Ht.
  unfold bind, CallbackSaver.await_getCheckpoint, await.
  cbn [Config.getCheckpoint exampleSaver CallbackSaver.new Example.config].
  unfold getCheckpoint. rewrite Hc, Hget.
  destruct w as [s c r]. reflexivity.
Qed.

End ExampleRuns.

(** X9. On the example saver, [put] followed by [getTuple] on the config
    [put] returned gives back the checkpoint and the metadata that were
    put, addressed by the thread id, the resolved namespace and the
    checkpoint's own id, with the config's former checkpoint id (when it
    has one) as parent.  The checkpoint's id must not be empty: an empty
    id makes the lookup fall back to the latest checkpoint. *)
Theorem example_put_then_getTuple :
  forall (config : RunnableConfig.t) (checkpoint : Checkpoint.t)
         (metadata : CheckpointMetadata) (newVersions : list (string * JsValue))
         (w : World Example.Storage) (threadId : string),
    JS.truthy (RunnableConfig.thread_id config) = Some threadId ->
    Checkpoint.id checkpoint <> EmptyString ->
    exists config' tuple,
      outcome (CallbackSaver.put Example.exampleSaver config checkpoint metadata
                 newVersions w) = Returned config'
      /\ outcome (CallbackSaver.getTuple Example.exampleSaver config'
                    (world_after
                       (CallbackSaver.put Example.exampleSaver config checkpoint
                          metadata newVersions w)))
         = Returned (Some tuple)
      /\ CheckpointTuple.checkpoint tuple = checkpoint
      /\ CheckpointTuple.metadata tuple = metadata
      /\ RunnableConfig.thread_id (CheckpointTuple.config tuple) = Some threadId
      /\ RunnableConfig.checkpoint_ns (CheckpointTuple.config tuple)
         = Some (CallbackSaver.resolve_namespace Example.exampleSaver config)
      /\ tuple_id tuple = Some (Checkpoint.id checkpoint)
      /\ parent_id tuple = JS.truthy (RunnableConfig.checkpoint_id config).
Proof.
  intros config checkpoint metadata newVersions w threadId Ht Hid.
  rewrite (example_put_run config checkpoint metadata newVersions w threadId Ht).
  unfold outcome, world_after. cbn [fst snd].
  eexists _, _. split; [reflexivity|].
  destruct (truthy_nonempty _ _ Ht) as [_ Ht'].
  rewrite (example_getTuple_by_id (Example.put_config config threadId checkpoint)
             _ threadId (Checkpoint.id checkpoint)
             (Example.put_record config threadId checkpoint metadata
                (clock w (reads w)))).
  - cbn [fst]. split; [reflexivity|]. cbn.
    unfold parent_id. cbn.
    destruct (JS.truthy (RunnableConfig.checkpoint_id config)); repeat split.
  - exact Ht'.
  - cbn. apply truthy_of_nonempty. exact Hid.
  - unfold Example.put_config. rewrite resolve_namespace_again.
    cbn. apply JsMapFacts.get_set_same.
Qed.

Lemma example_put_then_getTuple_witness :
  exists config' tuple,
    outcome (CallbackSaver.put Example.exampleSaver
               (Mock.config_of (Some "basic-test") (Some "checkpoint-0"))
               (Mock.checkpoint_with_id "checkpoint-1") (VObj []) []
               (Example.world_of Example.empty
                                 (fun n => Z.of_nat n) 0))
    = Returned config'
    /\ outcome (CallbackSaver.getTuple Example.exampleSaver config'
                  (world_after
                     (CallbackSaver.put Example.exampleSaver
                        (Mock.config_of (Some "basic-test") (Some "checkpoint-0"))
                        (Mock.checkpoint_with_id "checkpoint-1") (VObj []) []
                        (Example.world_of Example.empty (fun n => Z.of_nat n) 0))))
       = Returned (Some tuple)
    /\ CheckpointTuple.checkpoint tuple = Mock.checkpoint_with_id "checkpoint-1"
    /\ parent_id tuple = Some "checkpoint-0".
Proof.
  destruct (example_put_then_getTuple
              (Mock.config_of (Some "basic-test") (Some "checkpoint-0"))
              (Mock.checkpoint_with_id "checkpoint-1") (VObj []) []
              (Example.world_of Example.empty
                                (fun n => Z.of_nat n) 0)
              "basic-test" eq_refl ltac:(discriminate))
    as (config' & tuple & H1 & H2 & H3 & _ & _ & _ & _ & H8).
  exists config', tuple. repeat split; assumption.
Defined.

Section ExampleDelete.
Import Example.

Lemma thread_prefix (threadId namespace rest : string) :
  (threadId ++ ":" ++ namespace ++ ":" ++ rest)%string
  = ((threadId ++ ":") ++ namespace ++ ":" ++ rest)%string.
Proof. now rewrite StringFacts.append_assoc. Qed.

(** After [deleteThread], no checkpoint key starts with the thread id
    and a colon. *)
Lemma deleteThread_keys (threadId key : string) (s : Storage) :
  In key (JsMap.keys (checkpoints (snd (deleteThread threadId s)))) ->
  startsWith key (threadId ++ ":") = false.
Proof.
  unfold deleteThread. cbn [snd checkpoints]. intros H.
  apply JsMapFacts.keys_delete_all in H. destruct H as [Hin Hnot].
  destruct (startsWith key (threadId ++ ":")) eqn:E; [|reflexivity].
  exfalso. apply Hnot. apply filter_In. split; assumption.
Qed.

Lemma deleteThread_matching (threadId namespace : string) (s : Storage) :
  matching threadId namespace (snd (deleteThread threadId s)) = [].
Proof.
  destruct (matching threadId namespace (snd (deleteThread threadId s)))
    as [|key rest] eqn:E; [reflexivity|].
  assert (Hin : In key (matching threadId namespace (snd (deleteThread threadId s))))
    by (rewrite E; now left).
  apply ExampleFacts.matching_in in Hin. destruct Hin as [Hin Hstart].
  apply deleteThread_keys in Hin.
  replace (threadId ++ ":" ++ namespace ++ ":")%string
    with ((threadId ++ ":") ++ namespace ++ ":")%string in Hstart
    by (now rewrite StringFacts.append_assoc).
  apply ExampleFacts.startsWith_shorter in Hstart. congruence.
Qed.

Lemma deleteThread_get (threadId namespace checkpointId : string) (s : Storage) :
  JsMap.get (makeCheckpointKey threadId namespace checkpointId)
            (checkpoints (snd (deleteThread threadId s))) = None.
Proof.
  destruct (JsMap.get (makeCheckpointKey threadId namespace checkpointId)
              (checkpoints (snd (deleteThread threadId s)))) eqn:E;
    [|reflexivity].
  exfalso.
  assert (Hin : In (makeCheckpointKey threadId namespace checkpointId)
                   (JsMap.keys (checkpoints (snd (deleteThread threadId s))))).
  { apply JsMapFacts.get_in_keys. congruence. }
  apply deleteThread_keys in Hin. unfold makeCheckpointKey in Hin.
  rewrite thread_prefix, ExampleFacts.startsWith_append in Hin. discriminate.
Qed.

(** A thread and namespace with no key list as one empty page. *)
Lemma listCheckpoints_nothing (o : ListCheckpointsOptions.t) (s : Storage) :
  matching (ListCheckpointsOptions.threadId o)
           (ListCheckpointsOptions.namespace o) s = [] ->
  listCheckpoints o s
  = (Fulfilled {| ListResult.checkpoints := []; ListResult.nextCursor := None |},
     o, s).
Proof.
  intros H. unfold listCheckpoints. rewrite H. cbn [indexOf].
  assert (Hkeys :
            match JS.truthy (ListCheckpointsOptions.before o) with
            | Some _ => @nil string
            | None => []
            end = []) by (destruct (JS.truthy _); reflexivity).
  rewrite Hkeys.
  destruct (truthy_limit (ListCheckpointsOptions.limit o)) as [limit|] eqn:El;
    [|reflexivity].
  assert (Hslice : slice_to (@nil string) limit = []).
  { unfold slice_to. destruct (limit <? 0)%Z; apply firstn_nil. }
  rewrite Hslice. cbn [lookup_all length].
  assert (Hzero : (Z.of_nat 0 =? limit)%Z = false).
  { apply Z.eqb_neq. intros <-.
    destruct (ListCheckpointsOptions.limit o) as [[| |]|]; discriminate. }
  rewrite Hzero. reflexivity.
Qed.

End ExampleDelete.

(** X10. On the example saver, after [deleteThread(t)] every config that
    addresses thread [t], with or without a checkpoint id and under any
    namespace, finds nothing: [getTuple] returns [undefined], and [list]
    makes one listing call and yields no tuple. *)
Theorem example_deleteThread_then_reads :
  forall (threadId : string) (config : RunnableConfig.t)
         (w : World Example.Storage),
    JS.truthy (RunnableConfig.thread_id config) = Some threadId ->
    outcome (CallbackSaver.deleteThread Example.exampleSaver threadId w)
    = Returned tt
    /\ outcome (CallbackSaver.getTuple Example.exampleSaver config
                  (world_after
                     (CallbackSaver.deleteThread Example.exampleSaver threadId w)))
       = Returned None
    /\ forall fuel options _before _limit,
         outcome (CallbackSaver.list Example.exampleSaver (S fuel) config options
                    _before _limit
                    (world_after
                       (CallbackSaver.deleteThread Example.exampleSaver threadId w)))
         = Returned tt
         /\ yields (trace (CallbackSaver.list Example.exampleSaver (S fuel) config
                             options _before _limit
                             (world_after
                                (CallbackSaver.deleteThread Example.exampleSaver
                                   threadId w))))
            = []
         /\ length (listing_requests
                      (trace (CallbackSaver.list Example.exampleSaver (S fuel)
                                config options _before _limit
                                (world_after
                                   (CallbackSaver.deleteThread
                                      Example.exampleSaver threadId w)))))
            = 1.
Proof.
  intros threadId config w Ht.
  assert (Hdel :
            CallbackSaver.deleteThread Example.exampleSaver threadId w
            = (Returned tt,
               {| store := snd (Example.deleteThread threadId (store w));
                  clock := clock w; reads := reads w |},
               [DeleteThread threadId (Fulfilled tt)])) by reflexivity.
  rewrite Hdel. unfold outcome at 1, world_after. cbn [fst snd].
  split; [reflexivity|]. split.
  - unfold CallbackSaver.getTuple, try_catch. rewrite Ht.
    unfold bind, CallbackSaver.await_getCheckpoint, await.
    cbn [Config.getCheckpoint Example.exampleSaver CallbackSaver.new
           Example.config store].
    unfold Example.getCheckpoint.
    destruct (JS.truthy (RunnableConfig.checkpoint_id config)) as [checkpointId|].
    + rewrite deleteThread_get. reflexivity.
    + rewrite deleteThread_matching. reflexivity.
  - intros fuel options _before _limit.
    unfold CallbackSaver.list, try_catch. rewrite Ht.
    cbn [CallbackSaver.list_pages]. unfold bind at 1 3 5.
    unfold CallbackSaver.await_listCheckpoints.
    cbn [Config.listCheckpoints Example.exampleSaver CallbackSaver.new
           Example.config store].
    rewrite listCheckpoints_nothing by apply deleteThread_matching.
    repeat split.
Qed.

Lemma example_deleteThread_then_reads_witness :
  outcome (CallbackSaver.getTuple Example.exampleSaver
             (Mock.config_of (Some "delete-test") (Some "to-delete"))
             (world_after
                (CallbackSaver.deleteThread Example.exampleSaver "delete-test"
                   (world_after
                      (CallbackSaver.put Example.exampleSaver
                         (Mock.config_of (Some "delete-test") (Some "to-delete"))
                         (Mock.checkpoint_with_id "to-delete") (VObj []) []
                         (Example.world_of Example.empty
                            (fun n => Z.of_nat n) 0))))))
  = Returned None.
Proof.
  apply (example_deleteThread_then_reads "delete-test"
           (Mock.config_of (Some "delete-test") (Some "to-delete"))).
  reflexivity.
Defined.

Section ExampleWrites.
Import Example.

Lemma writes_under_set (key : string) (ws : list StoredWrite.t)
    (m : JsMap.t (list StoredWrite.t)) :
  writes_under key (JsMap.set key ws m) = ws.
Proof. unfold writes_under. now rewrite JsMapFacts.get_set_same. Qed.

Lemma writes_under_head (key : string) (ws : list StoredWrite.t)
    (m : JsMap.t (list StoredWrite.t)) :
  writes_under key ((key, ws) :: m) = ws.
Proof. unfold writes_under. cbn. now rewrite String.eqb_refl. Qed.







End ExampleWrites.



(** ** The order of the keys *)

Module KeyOrder.

Lemma leb_refl (s : string) : String.leb s s = true.
Proof. now destruct (String.leb_total s s). Qed.

Lemma leb_trans (s1 s2 s3 : string) :
  String.leb s1 s2 = true -> String.leb s2 s3 = true -> String.leb s1 s3 = true.
Proof.
  revert s2 s3. unfold String.leb.
  induction s1 as [|a s1 IH]; intros [|b s2] [|c s3]; cbn [String.compare];
    try reflexivity; try discriminate.
  unfold Ascii.compare.
  destruct (N.compare_spec (N_of_ascii a) (N_of_ascii b)) as [Hab|Hab|Hab];
    destruct (N.compare_spec (N_of_ascii b) (N_of_ascii c)) as [Hbc|Hbc|Hbc];
    destruct (N.compare_spec (N_of_ascii a) (N_of_ascii c)) as [Hac|Hac|Hac];
    try discriminate; try reflexivity; try lia.
  apply IH.
Qed.

Lemma last_in (l : list string) (d : string) : l <> [] -> In (last l d) l.
Proof.
  induction l as [|k [|k' rest] IH]; intros Hne; [contradiction| now left |].
  right. apply IH. discriminate.
Qed.

(** The last key of a sorted list is its greatest. *)
Lemma last_greatest (l : list string) (d key : string) :
  Example.ascending l -> In key l -> String.leb key (last l d) = true.
Proof.
  revert key.
  induction l as [|k [|k' rest] IH]; intros key Hasc Hin; [contradiction| |].
  - destruct Hin as [->|[]]. apply leb_refl.
  - destruct Hasc as [Hk Hasc].
    change (last (k :: k' :: rest) d) with (last (k' :: rest) d).
    destruct Hin as [->|Hin].
    + apply (leb_trans _ k'); [exact Hk|]. apply IH; [exact Hasc | now left].
    + apply IH; assumption.
Qed.

End KeyOrder.

Section ExampleLatest.
Import Example.

Lemma example_getTuple_latest_run (config : RunnableConfig.t) (w : World Storage)
    (threadId : string) :
  JS.truthy (RunnableConfig.thread_id config) = Some threadId ->
  JS.truthy (RunnableConfig.checkpoint_id config) = None ->
  outcome (CallbackSaver.getTuple exampleSaver config w)
  = match matching threadId (CallbackSaver.resolve_namespace exampleSaver config)
            (store w) with
    | [] => Returned None
    | keys =>
        match JsMap.get (last keys EmptyString) (checkpoints (store w)) with
        | Some stored =>
            Returned
              (Some (CallbackSaver.make_tuple stored
                       (CallbackSaver.pending_writes exampleSaver
                          (writes_under
                             (makeWriteKey (StoredCheckpoint.threadId stored)
                                           (StoredCheckpoint.namespace stored)
                                           (StoredCheckpoint.checkpointId stored))
                             (writes (store w))))))
        | None => Returned None
        end
    end.
Proof.
  intros Ht Hc.
  unfold CallbackSaver.getTuple, try_catch, outcome. rewrite Ht.
  unfold bind, CallbackSaver.await_getCheckpoint, await.
  cbn [Config.getCheckpoint exampleSaver CallbackSaver.new Example.config].
  unfold getCheckpoint. rewrite Hc.
  destruct (matching threadId _ (store w)) as [|k keys]; [reflexivity|].
  destruct (JsMap.get (last (k :: keys) EmptyString) (checkpoints (store w)));
    reflexivity.
Qed.

End ExampleLatest.

(** X12. On the example saver, [getTuple] on a config without a
    checkpoint id returns [undefined] when no key of the store starts
    with the thread and namespace prefix; when one does, it returns the
    checkpoint stored under the greatest such key in the order of the
    code units, which need not be the one put last. *)
Theorem example_getTuple_latest :
  forall (config : RunnableConfig.t) (w : World Example.Storage)
         (threadId : string),
    JS.truthy (RunnableConfig.thread_id config) = Some threadId ->
    JS.truthy (RunnableConfig.checkpoint_id config) = None ->
    let prefix :=
      (threadId ++ ":"
       ++ CallbackSaver.resolve_namespace Example.exampleSaver config ++ ":")%string in
    let keys := JsMap.keys (Example.checkpoints (store w)) in
    ((forall key, In key keys -> Example.startsWith key prefix = false) ->
     outcome (CallbackSaver.getTuple Example.exampleSaver config w)
     = Returned None)
    /\ (forall key,
          In key keys -> Example.startsWith key prefix = true ->
          exists latest stored tuple,
            In latest keys
            /\ Example.startsWith latest prefix = true
            /\ (forall k, In k keys -> Example.startsWith k prefix = true ->
                          String.leb k latest = true)
            /\ JsMap.get latest (Example.checkpoints (store w)) = Some stored
            /\ outcome (CallbackSaver.getTuple Example.exampleSaver config w)
               = Returned (Some tuple)
            /\ CheckpointTuple.checkpoint tuple
               = StoredCheckpoint.checkpoint stored
            /\ tuple_id tuple = Some (StoredCheckpoint.checkpointId stored)).
Proof.
  intros config w threadId Ht Hc prefix keys.
  rewrite (example_getTuple_latest_run config w threadId Ht Hc).
  set (ns := CallbackSaver.resolve_namespace Example.exampleSaver config) in *.
  split.
  - intros Hnone.
    destruct (Example.matching threadId ns (store w)) as [|k ks] eqn:E;
      [reflexivity|].
    assert (Hk : In k (Example.matching threadId ns (store w)))
      by (rewrite E; now left).
    apply ExampleFacts.matching_in in Hk. destruct Hk as [Hin Hpre].
    fold keys in Hin. fold prefix in Hpre. rewrite (Hnone k Hin) in Hpre.
    discriminate.
  - intros key Hin Hpre.
    assert (Hkey : In key (Example.matching threadId ns (store w)))
      by (apply ExampleFacts.matching_in; split; assumption).
    assert (Hasc : Example.ascending (Example.matching threadId ns (store w)))
      by apply ExampleFacts.sort_ascending.
    assert (Hall : forall k, In k (Example.matching threadId ns (store w)) <->
                             In k keys /\ Example.startsWith k prefix = true)
      by (intros k; apply ExampleFacts.matching_in).
    destruct (Example.matching threadId ns (store w)) as [|k0 ks];
      [contradiction|].
    assert (Hlast : In (last (k0 :: ks) EmptyString) (k0 :: ks))
      by (apply KeyOrder.last_in; discriminate).
    destruct (proj1 (Hall _) Hlast) as [Hlin Hlpre].
    destruct (JsMap.get (last (k0 :: ks) EmptyString)
                (Example.checkpoints (store w))) as [stored|] eqn:Hget.
    + exists (last (k0 :: ks) EmptyString), stored.
      eexists. split; [exact Hlin|]. split; [exact Hlpre|]. split.
      { intros k Hk Hkpre. apply KeyOrder.last_greatest; [exact Hasc|].
        apply Hall. split; assumption. }
      split; [exact Hget|].
      split; [reflexivity|]. split; reflexivity.
    + exfalso.
      apply (proj2 (JsMapFacts.get_in_keys _ (Example.checkpoints (store w))) Hlin).
      exact Hget.
Qed.

Lemma example_getTuple_latest_witness :
  exists tuple,
    outcome
      (CallbackSaver.getTuple Example.exampleSaver (Mock.config_of (Some "t") None)
         (Example.world_of
            (Example.filed [Mock.stored "t" "b" None; Mock.stored "t" "a" None])
            (fun n => Z.of_nat n) 0))
    = Returned (Some tuple)
    /\ CheckpointTuple.checkpoint tuple = Mock.checkpoint_with_id "b".
Proof.
  destruct (proj2 (example_getTuple_latest (Mock.config_of (Some "t") None)
                     (Example.world_of
                        (Example.filed
                           [Mock.stored "t" "b" None; Mock.stored "t" "a" None])
                        (fun n => Z.of_nat n) 0)
                     "t" eq_refl eq_refl)
              "t:default:a" (or_intror (or_introl eq_refl)) eq_refl)
    as (latest & stored & tuple & _ & _ & _ & _ & Hrun & _).
  exists tuple. split; [exact Hrun|].
  vm_compute in Hrun. now injection Hrun as <-.
Defined.

(** ** Listing through the example backend *)

Module ListingFacts.
Import Example.

Lemma NoDup_insert_sorted (key : string) (l : list string) :
  ~ In key l -> NoDup l -> NoDup (insert_sorted key l).
Proof.
  induction l as [|k l IH]; intros Hnin Hnd; cbn [insert_sorted].
  - constructor; [exact Hnin | constructor].
  - destruct (String.leb key k); [now constructor|].
    inversion Hnd as [|? ? Hk Hl]; subst. constructor.
    + rewrite ExampleFacts.in_insert_sorted. intros [->|H]; [|contradiction].
      apply Hnin. now left.
    + apply IH; [|exact Hl]. intros H. apply Hnin. now right.
Qed.

Lemma NoDup_sort (l : list string) : NoDup l -> NoDup (sort l).
Proof.
  induction l as [|k l IH]; intros Hnd; [constructor|].
  inversion Hnd as [|? ? Hk Hl]; subst. cbn [sort fold_right].
  apply NoDup_insert_sorted; [|now apply IH].
  fold (sort l). now rewrite ExampleFacts.in_sort.
Qed.

Lemma NoDup_matching (threadId namespace : string) (s : Storage) :
  NoDup (JsMap.keys (checkpoints s)) -> NoDup (matching threadId namespace s).
Proof. intros H. unfold matching. now apply NoDup_sort, NoDup_filter. Qed.

Lemma length_matching (threadId namespace : string) (s : Storage) :
  length (matching threadId namespace s)
  = length (filter (fun key => startsWith key (threadId ++ ":" ++ namespace ++ ":"))
                   (JsMap.keys (checkpoints s))).
Proof. unfold matching. apply ExampleFacts.length_sort. Qed.

(** In a list without repetition, [indexOf] finds each entry where it
    is. *)
Lemma indexOf_nth (l : list string) (d : string) :
  NoDup l -> forall i, i < length l -> indexOf (nth i l d) l = Some i.
Proof.
  induction l as [|k l IH]; intros Hnd i Hi; [cbn in Hi; lia|].
  inversion Hnd as [|? ? Hk Hl]; subst.
  destruct i as [|i]; cbn [nth indexOf].
  - now rewrite String.eqb_refl.
  - cbn [length] in Hi.
    destruct (String.eqb_spec (nth i l d) k) as [E|_].
    + exfalso. apply Hk. rewrite <- E. apply nth_In. lia.
    + rewrite (IH Hl i); [reflexivity | lia].
Qed.

Lemma firstn_In {A : Type} (n : nat) (l : list A) (x : A) :
  In x (firstn n l) -> In x l.
Proof.
  intros H. rewrite <- (firstn_skipn n l). apply in_or_app. now left.
Qed.

Lemma last_firstn (l : list string) (d : string) :
  forall n, 0 < n <= length l -> last (firstn n l) d = nth (n - 1) l d.
Proof.
  induction l as [|k l IH]; intros n Hn; [cbn in Hn; lia|].
  destruct n as [|n]; [lia|]. cbn [length] in Hn.
  destruct n as [|n]; [reflexivity|].
  change (firstn (S (S n)) (k :: l)) with (k :: firstn (S n) l).
  destruct l as [|k' l]; [cbn in Hn; lia|].
  change (firstn (S n) (k' :: l)) with (k' :: firstn n l).
  change (last (k :: k' :: firstn n l) d) with (last (firstn (S n) (k' :: l)) d).
  rewrite IH by lia.
  replace (S (S n) - 1) with (S (S n - 1)) by lia. reflexivity.
Qed.

Section Lookup.
Variable m : JsMap.t StoredCheckpoint.t.

Lemma lookup_all_firstn (keys : list string) :
  (forall k, In k keys -> In k (JsMap.keys m)) ->
  forall n, lookup_all (firstn n keys) m = firstn n (lookup_all keys m).
Proof.
  induction keys as [|k keys IH]; intros Hin n.
  - now rewrite !firstn_nil.
  - destruct n as [|n]; [reflexivity|]. cbn [firstn lookup_all].
    destruct (JsMap.get k m) as [c|] eqn:E.
    + cbn [firstn]. rewrite IH; [reflexivity|]. intros k' Hk'. apply Hin. now right.
    + exfalso. apply (proj2 (JsMapFacts.get_in_keys k m)); [|exact E].
      apply Hin. now left.
Qed.

Lemma lookup_all_in (keys : list string) (key : string)
    (stored : StoredCheckpoint.t) :
  In key keys -> JsMap.get key m = Some stored -> In stored (lookup_all keys m).
Proof.
  induction keys as [|k keys IH]; intros Hin Hget; [contradiction|].
  cbn [lookup_all]. destruct Hin as [->|Hin].
  - rewrite Hget. now left.
  - destruct (JsMap.get k m); [right|]; now apply IH.
Qed.

(** The last checkpoint looked up is the one under the last key. *)
Lemma last_lookup_all (keys : list string) (d : string) :
  (forall k, In k keys -> In k (JsMap.keys m)) ->
  keys <> [] ->
  last (map Some (lookup_all keys m)) None = JsMap.get (last keys d) m.
Proof.
  induction keys as [|k keys IH]; intros Hin Hne; [contradiction|].
  assert (Hk : exists c, JsMap.get k m = Some c).
  { destruct (JsMap.get k m) as [c|] eqn:E; [now exists c|].
    exfalso. apply (proj2 (JsMapFacts.get_in_keys k m)); [|exact E].
    apply Hin. now left. }
  destruct Hk as [c Hc]. cbn [lookup_all]. rewrite Hc.
  destruct keys as [|k' keys].
  - cbn. now rewrite Hc.
  - change (last (k :: k' :: keys) d) with (last (k' :: keys) d).
    rewrite <- IH; [|intros k0 Hk0; apply Hin; now right | discriminate].
    assert (Hk' : exists c', JsMap.get k' m = Some c').
    { destruct (JsMap.get k' m) as [c'|] eqn:E; [now exists c'|].
      exfalso. apply (proj2 (JsMapFacts.get_in_keys k' m)); [|exact E].
      apply Hin. right. now left. }
    destruct Hk' as [c' Hc']. cbn [lookup_all map]. rewrite Hc'. reflexivity.
Qed.

End Lookup.

Lemma matching_keys (threadId namespace : string) (s : Storage) (k : string) :
  In k (matching threadId namespace s) -> In k (JsMap.keys (checkpoints s)).
Proof. intros H. now apply ExampleFacts.matching_in in H. Qed.

Lemma length_checkpoints_of (threadId namespace : string) (s : Storage) :
  length (checkpoints_of threadId namespace s)
  = length (matching threadId namespace s).
Proof.
  unfold checkpoints_of. apply ExampleFacts.lookup_all_finds.
  apply matching_keys.
Qed.

Lemma truthy_limit_positive (n : nat) :
  0 < n -> truthy_limit (Some (Z.of_nat n)) = Some (Z.of_nat n).
Proof. destruct n; [lia | reflexivity]. Qed.

Lemma slice_to_nat {A : Type} (l : list A) (n : nat) :
  slice_to l (Z.of_nat n) = firstn n l.
Proof.
  unfold slice_to.
  destruct (Z.ltb_spec (Z.of_nat n) 0) as [H|_]; [lia|]. now rewrite Nat2Z.id.
Qed.

End ListingFacts.

Section ExampleListing.
Import Example.

(** Without a limit and a cursor, one page holds the whole listing. *)
Lemma listCheckpoints_all (o : ListCheckpointsOptions.t) (s : Storage) :
  truthy_limit (ListCheckpointsOptions.limit o) = None ->
  JS.truthy (ListCheckpointsOptions.before o) = None ->
  listCheckpoints o s
  = (Fulfilled
       {| ListResult.checkpoints :=
            checkpoints_of (ListCheckpointsOptions.threadId o)
                           (ListCheckpointsOptions.namespace o) s;
          ListResult.nextCursor := None |},
     o, s).
Proof.
  intros Hl Hb. unfold listCheckpoints. rewrite Hl, Hb. reflexivity.
Qed.

(** The first page under a limit smaller than the listing: the first
    [n] checkpoints, and the id of the last of them as cursor. *)
Lemma listCheckpoints_first_page (o : ListCheckpointsOptions.t) (s : Storage)
    (n : nat) (stored : StoredCheckpoint.t) :
  let keys := matching (ListCheckpointsOptions.threadId o)
                       (ListCheckpointsOptions.namespace o) s in
  JS.truthy (ListCheckpointsOptions.before o) = None ->
  ListCheckpointsOptions.limit o = Some (Z.of_nat n) ->
  0 < n < length keys ->
  NoDup (JsMap.keys (checkpoints s)) ->
  JsMap.get (nth (n - 1) keys EmptyString) (checkpoints s) = Some stored ->
  listCheckpoints o s
  = (Fulfilled
       {| ListResult.checkpoints :=
            firstn n (checkpoints_of (ListCheckpointsOptions.threadId o)
                                     (ListCheckpointsOptions.namespace o) s);
          ListResult.nextCursor := Some (StoredCheckpoint.checkpointId stored) |},
     o, s).
Proof.
  intros keys Hb Hl Hn Hnd Hget.
  assert (Hin : forall k, In k (firstn n keys) -> In k (JsMap.keys (checkpoints s))).
  { intros k Hk. apply (ListingFacts.matching_keys _ _ _ _ (ListingFacts.firstn_In _ _ _ Hk)). }
  unfold listCheckpoints, checkpoints_of. fold keys.
  rewrite Hb, Hl, (ListingFacts.truthy_limit_positive n) by lia.
  rewrite ListingFacts.slice_to_nat.
  rewrite (ExampleFacts.lookup_all_finds _ _ Hin).
  rewrite length_firstn, Nat.min_l by lia. rewrite Z.eqb_refl.
  rewrite (ListingFacts.last_firstn keys EmptyString n) by lia.
  rewrite (ListingFacts.indexOf_nth keys EmptyString
             (ListingFacts.NoDup_matching _ _ _ Hnd)) by lia.
  assert (Hlt : Nat.ltb (n - 1) (length keys - 1) = true)
    by (apply Nat.ltb_lt; lia).
  rewrite Hlt.
  rewrite (ListingFacts.last_lookup_all _ _ EmptyString Hin).
  - rewrite (ListingFacts.last_firstn keys EmptyString n) by lia.
    rewrite Hget.
    rewrite ListingFacts.lookup_all_firstn
      by (intros k Hk; apply (ListingFacts.matching_keys _ _ _ _ Hk)).
    reflexivity.
  - intros E. apply (f_equal (@length string)) in E.
    rewrite length_firstn, Nat.min_l in E by lia. cbn in E. lia.
Qed.

(** The page behind the cursor the first page gave: the checkpoints
    before the cursor, which are the first [n - 1] once more, and no
    cursor. *)
Lemma listCheckpoints_cursor_page (o : ListCheckpointsOptions.t) (s : Storage)
    (n : nat) (cursor : string) :
  let keys := matching (ListCheckpointsOptions.threadId o)
                       (ListCheckpointsOptions.namespace o) s in
  JS.truthy (ListCheckpointsOptions.before o) = Some cursor ->
  ListCheckpointsOptions.limit o = Some (Z.of_nat n) ->
  0 < n <= length keys ->
  NoDup (JsMap.keys (checkpoints s)) ->
  makeCheckpointKey (ListCheckpointsOptions.threadId o)
                    (ListCheckpointsOptions.namespace o) cursor
  = nth (n - 1) keys EmptyString ->
  listCheckpoints o s
  = (Fulfilled
       {| ListResult.checkpoints :=
            firstn (n - 1)
                   (checkpoints_of (ListCheckpointsOptions.threadId o)
                                   (ListCheckpointsOptions.namespace o) s);
          ListResult.nextCursor := None |},
     o, s).
Proof.
  intros keys Hb Hl Hn Hnd Hkey.
  assert (Hin : forall k, In k (firstn (n - 1) keys) ->
                          In k (JsMap.keys (checkpoints s))).
  { intros k Hk. apply (ListingFacts.matching_keys _ _ _ _ (ListingFacts.firstn_In _ _ _ Hk)). }
  unfold listCheckpoints, checkpoints_of. fold keys.
  rewrite Hb, Hl, (ListingFacts.truthy_limit_positive n) by lia.
  unfold makeCheckpointKey in Hkey. rewrite Hkey.
  rewrite (ListingFacts.indexOf_nth keys EmptyString
             (ListingFacts.NoDup_matching _ _ _ Hnd)) by lia.
  rewrite ListingFacts.slice_to_nat, firstn_firstn, Nat.min_r by lia.
  rewrite (ExampleFacts.lookup_all_finds _ _ Hin).
  rewrite length_firstn, Nat.min_l by lia.
  assert (Hne : (Z.of_nat (n - 1) =? Z.of_nat n)%Z = false)
    by (apply Z.eqb_neq; lia).
  rewrite Hne.
  rewrite ListingFacts.lookup_all_firstn
    by (intros k Hk; apply (ListingFacts.matching_keys _ _ _ _ Hk)).
  reflexivity.
Qed.

(** The inner loop on the example: one lookup of writes and one tuple
    per checkpoint, the storage as it was. *)
Lemma example_for_of_trace (cs : list StoredCheckpoint.t) (w : World Storage) :
  for_of cs (CallbackSaver.yield_checkpoint exampleSaver) w
  = (Returned tt, w,
     flat_map
       (fun stored =>
          [GetWrites (StoredCheckpoint.threadId stored)
             (StoredCheckpoint.namespace stored)
             (StoredCheckpoint.checkpointId stored)
             (Fulfilled
                (writes_under
                   (makeWriteKey (StoredCheckpoint.threadId stored)
                                 (StoredCheckpoint.namespace stored)
                                 (StoredCheckpoint.checkpointId stored))
                   (writes (store w))));
           Yield (tuple_of (store w) stored)])
       cs).
Proof.
  destruct w as [s c r].
  induction cs as [|stored cs IH]; [reflexivity|].
  cbn [for_of flat_map]. unfold bind at 1.
  assert (Hone : CallbackSaver.yield_checkpoint exampleSaver stored
                   {| store := s; clock := c; reads := r |}
                 = (Returned tt, {| store := s; clock := c; reads := r |},
                    [GetWrites (StoredCheckpoint.threadId stored)
                       (StoredCheckpoint.namespace stored)
                       (StoredCheckpoint.checkpointId stored)
                       (Fulfilled
                          (writes_under
                             (makeWriteKey (StoredCheckpoint.threadId stored)
                                           (StoredCheckpoint.namespace stored)
                                           (StoredCheckpoint.checkpointId stored))
                             (writes s)));
                     Yield (tuple_of s stored)])) by reflexivity.
  rewrite Hone, IH. reflexivity.
Qed.

Lemma example_for_of_run (cs : list StoredCheckpoint.t) (w : World Storage) :
  exists t,
    for_of cs (CallbackSaver.yield_checkpoint exampleSaver) w = (Returned tt, w, t)
    /\ yields t = map (tuple_of (store w)) cs
    /\ listing_requests t = [].
Proof.
  eexists. split; [apply example_for_of_trace|].
  induction cs as [|stored cs [IHy IHl]]; [split; reflexivity|].
  cbn [flat_map List.app yields listing_requests map]. split.
  - now rewrite IHy.
  - exact IHl.
Qed.

(** A page the example answers, with what the loop does on it. *)
Lemma example_list_pages_step (fuel : nat) (o : ListCheckpointsOptions.t)
    (w : World Storage) (result : ListResult.t) :
  listCheckpoints o (store w) = (Fulfilled result, o, store w) ->
  exists t,
    yields t = map (tuple_of (store w)) (ListResult.checkpoints result)
    /\ listing_requests t = []
    /\ CallbackSaver.list_pages exampleSaver (S fuel) o w
       = match JS.truthy (ListResult.nextCursor result) with
         | Some cursor =>
             match CallbackSaver.list_pages exampleSaver fuel
                     (ListCheckpointsOptions.set_before o (Some cursor)) w with
             | (out, w', t') =>
                 (out, w', ListCheckpoints o (Fulfilled result) :: t ++ t')
             end
         | None => (Returned tt, w, ListCheckpoints o (Fulfilled result) :: t)
         end.
Proof.
  intros Hpage.
  destruct (example_for_of_run (ListResult.checkpoints result) w)
    as (t & Hrun & Hy & Hl).
  exists t. split; [exact Hy|]. split; [exact Hl|].
  destruct w as [s c r]. cbn [store] in *.
  cbn [CallbackSaver.list_pages]. unfold bind at 1.
  unfold CallbackSaver.await_listCheckpoints.
  cbn [Config.listCheckpoints exampleSaver CallbackSaver.new Example.config store
       clock reads].
  rewrite Hpage. unfold bind at 1. rewrite Hrun.
  destruct (JS.truthy (ListResult.nextCursor result)) as [cursor|].
  - destruct (CallbackSaver.list_pages exampleSaver fuel _ _) as [[out w'] t'].
    reflexivity.
  - unfold ret. cbn [List.app]. now rewrite List.app_nil_r.
Qed.

Lemma example_list_run (fuel : nat) (config : RunnableConfig.t)
    (options : option CheckpointListOptions.t)
    (_before : option RunnableConfig.t) (_limit : option Z)
    (w : World Storage) (threadId : string) (t : Trace) :
  JS.truthy (RunnableConfig.thread_id config) = Some threadId ->
  CallbackSaver.list_pages exampleSaver fuel
    {| ListCheckpointsOptions.threadId := threadId;
       ListCheckpointsOptions.namespace :=
         CallbackSaver.resolve_namespace exampleSaver config;
       ListCheckpointsOptions.limit :=
         JS.or_num _limit
           (match options with
            | Some o => CheckpointListOptions.limit o
            | None => None
            end);
       ListCheckpointsOptions.before := CallbackSaver.before_id _before;
       ListCheckpointsOptions.filter :=
         match options with
         | Some o => CheckpointListOptions.filter o
         | None => None
         end |} w
  = (Returned tt, w, t) ->
  CallbackSaver.list exampleSaver fuel config options _before _limit w
  = (Returned tt, w, t).
Proof.
  intros Ht Hrun. unfold CallbackSaver.list, try_catch. rewrite Ht, Hrun.
  reflexivity.
Qed.

End ExampleListing.

(** X13. On the example saver, [list] without a limit and without a
    cursor makes one listing call and yields, in the order of their
    keys, one tuple for each checkpoint whose key starts with the thread
    and namespace prefix: as many tuples as there are such keys, each
    with the pending writes held under the checkpoint's own key, and the
    storage is left as it was. *)
Theorem example_list_without_limit :
  forall (fuel : nat) (config : RunnableConfig.t)
         (options : option CheckpointListOptions.t)
         (_before : option RunnableConfig.t) (_limit : option Z)
         (w : World Example.Storage) (threadId : string),
    JS.truthy (RunnableConfig.thread_id config) = Some threadId ->
    Example.truthy_limit
      (JS.or_num _limit
         (match options with
          | Some o => CheckpointListOptions.limit o
          | None => None
          end)) = None ->
    JS.truthy (CallbackSaver.before_id _before) = None ->
    let ns := CallbackSaver.resolve_namespace Example.exampleSaver config in
    let run := CallbackSaver.list Example.exampleSaver (S fuel) config options
                 _before _limit w in
    outcome run = Returned tt
    /\ world_after run = w
    /\ length (listing_requests (trace run)) = 1
    /\ yields (trace run)
       = map (Example.tuple_of (store w))
             (Example.checkpoints_of threadId ns (store w))
    /\ length (yields (trace run))
       = length (filter (fun key =>
                           Example.startsWith key
                             (threadId ++ ":" ++ ns ++ ":")%string)
                        (JsMap.keys (Example.checkpoints (store w))))
    /\ (forall key stored,
          Example.startsWith key (threadId ++ ":" ++ ns ++ ":")%string = true ->
          JsMap.get key (Example.checkpoints (store w)) = Some stored ->
          In (Example.tuple_of (store w) stored) (yields (trace run))).
Proof.
  intros fuel config options _before _limit w threadId Ht Hl Hb ns run.
  set (o := {| ListCheckpointsOptions.threadId := threadId;
               ListCheckpointsOptions.namespace := ns;
               ListCheckpointsOptions.limit :=
                 JS.or_num _limit
                   (match options with
                    | Some o => CheckpointListOptions.limit o
                    | None => None
                    end);
               ListCheckpointsOptions.before := CallbackSaver.before_id _before;
               ListCheckpointsOptions.filter :=
                 match options with
                 | Some o => CheckpointListOptions.filter o
                 | None => None
                 end |}).
  destruct (example_list_pages_step fuel o w _
              (listCheckpoints_all o (store w) Hl Hb))
    as (t & Hy & Hreq & Hrun).
  cbn [ListResult.nextCursor ListResult.checkpoints JS.truthy
       ListCheckpointsOptions.threadId ListCheckpointsOptions.namespace o]
    in Hrun, Hy.
  assert (E : run = (Returned tt, w,
                     ListCheckpoints o
                       (Fulfilled
                          {| ListResult.checkpoints :=
                               Example.checkpoints_of threadId ns (store w);
                             ListResult.nextCursor := None |}) :: t))
    by (apply (example_list_run _ _ _ _ _ _ threadId _ Ht); exact Hrun).
  rewrite E. unfold outcome, world_after, trace. cbn [fst snd].
  cbn [listing_requests yields]. rewrite Hreq, Hy.
  split; [reflexivity|]. split; [reflexivity|]. split; [reflexivity|].
  split; [reflexivity|]. split.
  - rewrite length_map, ListingFacts.length_checkpoints_of.
    apply ListingFacts.length_matching.
  - intros key stored Hpre Hget. apply in_map. unfold Example.checkpoints_of.
    apply (ListingFacts.lookup_all_in _ _ key); [|exact Hget].
    apply ExampleFacts.matching_in. split; [|exact Hpre].
    apply JsMapFacts.get_in_keys. rewrite Hget. discriminate.
Qed.

Lemma example_list_without_limit_witness :
  map tuple_id
      (yields
         (trace
            (CallbackSaver.list Example.exampleSaver 1
               (Mock.config_of (Some "list-test") None) None None None
               (Example.world_of
                  (Example.filed
                     [Mock.stored "list-test" "checkpoint-2" None;
                      Mock.stored "list-test" "checkpoint-1" None])
                  (fun n => Z.of_nat n) 0))))
  = [Some "checkpoint-1"; Some "checkpoint-2"].
Proof.
  pose proof (example_list_without_limit 0
                (Mock.config_of (Some "list-test") None) None None None
                (Example.world_of
                   (Example.filed
                      [Mock.stored "list-test" "checkpoint-2" None;
                       Mock.stored "list-test" "checkpoint-1" None])
                   (fun n => Z.of_nat n) 0)
                "list-test" eq_refl eq_refl eq_refl) as H.
  cbv zeta in H. destruct H as (_ & _ & _ & Hy & _).
  rewrite Hy. reflexivity.
Defined.

(** X14. On the example saver, [list] with a limit [n] smaller than the
    number of checkpoints of the thread and namespace does not reach the
    checkpoints behind the first page.  The first page holds the first
    [n] checkpoints in key order and names the [n]-th as cursor; the
    request that follows asks for what lies before that cursor, so it
    gets the first [n - 1] checkpoints once more and no cursor.  The run
    ends after two listing calls, having yielded [2n - 1] tuples.  The
    store is a map (no key twice) and the [n]-th checkpoint is filed
    under its own id, which is not empty. *)
Theorem example_list_with_limit :
  forall (fuel : nat) (config : RunnableConfig.t)
         (options : option CheckpointListOptions.t)
         (_before : option RunnableConfig.t) (_limit : option Z)
         (w : World Example.Storage) (threadId : string) (n : nat)
         (stored : StoredCheckpoint.t),
    JS.truthy (RunnableConfig.thread_id config) = Some threadId ->
    JS.or_num _limit
      (match options with
       | Some o => CheckpointListOptions.limit o
       | None => None
       end) = Some (Z.of_nat n) ->
    JS.truthy (CallbackSaver.before_id _before) = None ->
    NoDup (JsMap.keys (Example.checkpoints (store w))) ->
    0 < n < length (Example.matching threadId
                      (CallbackSaver.resolve_namespace Example.exampleSaver config)
                      (store w)) ->
    JsMap.get
      (nth (n - 1)
           (Example.matching threadId
              (CallbackSaver.resolve_namespace Example.exampleSaver config)
              (store w))
           EmptyString)
      (Example.checkpoints (store w)) = Some stored ->
    StoredCheckpoint.checkpointId stored <> EmptyString ->
    Example.makeCheckpointKey threadId
      (CallbackSaver.resolve_namespace Example.exampleSaver config)
      (StoredCheckpoint.checkpointId stored)
    = nth (n - 1)
          (Example.matching threadId
             (CallbackSaver.resolve_namespace Example.exampleSaver config)
             (store w))
          EmptyString ->
    let listing :=
      Example.checkpoints_of threadId
        (CallbackSaver.resolve_namespace Example.exampleSaver config) (store w) in
    let run := CallbackSaver.list Example.exampleSaver (S (S fuel)) config options
                 _before _limit w in
    outcome run = Returned tt
    /\ length (listing_requests (trace run)) = 2
    /\ yields (trace run)
       = map (Example.tuple_of (store w))
             (firstn n listing ++ firstn (n - 1) listing)
    /\ length (yields (trace run)) = n + (n - 1)
    /\ n < length listing.
Proof.
  intros fuel config options _before _limit w threadId n stored
         Ht Hl Hb Hnd Hn Hget Hid Hkey listing run.
  set (ns := CallbackSaver.resolve_namespace Example.exampleSaver config) in *.
  set (o := {| ListCheckpointsOptions.threadId := threadId;
               ListCheckpointsOptions.namespace := ns;
               ListCheckpointsOptions.limit :=
                 JS.or_num _limit
                   (match options with
                    | Some o => CheckpointListOptions.limit o
                    | None => None
                    end);
               ListCheckpointsOptions.before := CallbackSaver.before_id _before;
               ListCheckpointsOptions.filter :=
                 match options with
                 | Some o => CheckpointListOptions.filter o
                 | None => None
                 end |}).
  destruct (example_list_pages_step (S fuel) o w _
              (listCheckpoints_first_page o (store w) n stored Hb Hl Hn Hnd Hget))
    as (t1 & Hy1 & Hreq1 & Hrun1).
  cbn [ListResult.nextCursor ListResult.checkpoints] in Hrun1, Hy1.
  rewrite (truthy_of_nonempty _ Hid) in Hrun1.
  set (o' := ListCheckpointsOptions.set_before o
               (Some (StoredCheckpoint.checkpointId stored))) in *.
  assert (Hn' : 0 < n <= length (Example.matching threadId ns (store w))) by lia.
  destruct (example_list_pages_step fuel o' w _
              (listCheckpoints_cursor_page o' (store w) n
                 (StoredCheckpoint.checkpointId stored)
                 (truthy_of_nonempty _ Hid) Hl Hn' Hnd Hkey))
    as (t2 & Hy2 & Hreq2 & Hrun2).
  cbn [ListResult.nextCursor ListResult.checkpoints JS.truthy] in Hrun2, Hy2.
  rewrite Hrun2 in Hrun1.
  pose proof (example_list_run _ config options _before _limit w threadId _ Ht Hrun1)
    as E.
  fold run in E. rewrite E. unfold outcome, trace. cbn [fst snd].
  cbn [listing_requests yields].
  rewrite listing_requests_app, yields_app. cbn [listing_requests yields].
  rewrite Hreq1, Hreq2, Hy1, Hy2, map_app.
  assert (Hlen : length listing = length (Example.matching threadId ns (store w)))
    by apply ListingFacts.length_checkpoints_of.
  split; [reflexivity|]. split; [reflexivity|]. split; [reflexivity|].
  split; [|lia].
  rewrite length_app, !length_map, !length_firstn.
  change (Example.checkpoints_of (ListCheckpointsOptions.threadId o)
            (ListCheckpointsOptions.namespace o) (store w)) with listing.
  change (Example.checkpoints_of (ListCheckpointsOptions.threadId o')
            (ListCheckpointsOptions.namespace o') (store w)) with listing.
  rewrite Hlen. lia.
Qed.

Lemma example_list_with_limit_witness :
  map tuple_id
      (yields
         (trace
            (CallbackSaver.list Example.exampleSaver 2
               (Mock.config_of (Some "t") None) None None (Some 2%Z)
               (Example.world_of
                  (Example.filed
                     [Mock.stored "t" "a" None; Mock.stored "t" "b" None;
                      Mock.stored "t" "c" None])
                  (fun n => Z.of_nat n) 0))))
  = [Some "a"; Some "b"; Some "a"].
Proof.
  pose proof (example_list_with_limit 0
                (Mock.config_of (Some "t") None) None None (Some 2%Z)
                (Example.world_of
                   (Example.filed
                      [Mock.stored "t" "a" None; Mock.stored "t" "b" None;
                       Mock.stored "t" "c" None])
                   (fun n => Z.of_nat n) 0)
                "t" 2 (Mock.stored "t" "b" None) eq_refl eq_refl eq_refl) as H.
  cbv zeta in H.
  destruct H as (_ & _ & Hy & _).
  - repeat constructor; cbn; intuition discriminate.
  - vm_compute. lia.
  - reflexivity.
  - discriminate.
  - reflexivity.
  - rewrite Hy. reflexivity.
Defined.

(** ** Batches of writes in the example backend *)

Section ExampleBatches.
Import Example.

Lemma NoDup_keys_set {V : Type} (k : string) (v : V) (m : JsMap.t V) :
  NoDup (JsMap.keys m) -> NoDup (JsMap.keys (JsMap.set k v m)).
Proof.
  intros Hnd. destruct (JsMap.get k m) as [v0|] eqn:E.
  - now rewrite (JsMapFacts.keys_set_old k v v0 m E).
  - rewrite (JsMapFacts.keys_set_new k v m E).
    apply NoDup_app; [exact Hnd | repeat constructor; intros [] |].
    intros k' Hin [Hk|[]]. subst k'.
    apply (proj2 (JsMapFacts.get_in_keys k m) Hin E).
Qed.

Lemma writes_under_set_other (key k : string) (ws : list StoredWrite.t)
    (m : JsMap.t (list StoredWrite.t)) :
  key <> k -> writes_under key (JsMap.set k ws m) = writes_under key m.
Proof.
  intros Hne. unfold writes_under. now rewrite JsMapFacts.get_set_other.
Qed.

(** The first loop of [putWrites]: under each key, the records of the
    batch with that key, in the order of the batch. *)
Lemma grouping_by_key (records : list StoredWrite.t) :
  forall (acc : JsMap.t (list StoredWrite.t)) (key : string),
    NoDup (JsMap.keys acc) ->
    let grouped :=
      fold_left
        (fun writesByCheckpoint write =>
           let key := makeWriteKey (StoredWrite.threadId write)
                                   (StoredWrite.namespace write)
                                   (StoredWrite.checkpointId write) in
           JsMap.set key (writes_under key writesByCheckpoint ++ [write])
                     writesByCheckpoint)
        records acc in
    writes_under key grouped
    = writes_under key acc
      ++ filter (fun write => String.eqb (write_key write) key) records
    /\ NoDup (JsMap.keys grouped).
Proof.
  induction records as [|write records IH]; intros acc key Hnd; cbv zeta.
  - cbn. now rewrite List.app_nil_r.
  - cbn [fold_left filter].
    fold (write_key write).
    destruct (IH (JsMap.set (write_key write)
                    (writes_under (write_key write) acc ++ [write]) acc)
                 key (NoDup_keys_set _ _ _ Hnd)) as [Hget Hnd'].
    cbv zeta in Hget, Hnd'. split; [|exact Hnd'].
    rewrite Hget.
    destruct (String.eqb_spec (write_key write) key) as [->|Hne].
    + rewrite writes_under_set, <- List.app_assoc. reflexivity.
    + rewrite writes_under_set_other by congruence. reflexivity.
Qed.

(** The second loop: each group goes after what its key held. *)
Lemma saving_groups (groups : JsMap.t (list StoredWrite.t)) :
  forall (m : JsMap.t (list StoredWrite.t)) (key : string),
    NoDup (JsMap.keys groups) ->
    writes_under key
      (fold_left
         (fun m group =>
            let (key, checkpointWrites) := group : string * list StoredWrite.t in
            let existing := writes_under key m in
            JsMap.set key (existing ++ checkpointWrites) m)
         groups m)
    = writes_under key m ++ writes_under key groups.
Proof.
  induction groups as [|[k ws] groups IH]; intros m key Hnd.
  - cbn. now rewrite List.app_nil_r.
  - cbn [fold_left]. cbn [JsMap.keys map fst] in Hnd.
    inversion Hnd as [|? ? Hk Hrest]; subst.
    rewrite (IH _ key Hrest).
    destruct (String.eqb_spec key k) as [->|Hne].
    + rewrite writes_under_set, writes_under_head, <- List.app_assoc.
      f_equal.
      assert (Hnone : JsMap.get k groups = None).
      { destruct (JsMap.get k groups) eqn:E; [|reflexivity].
        exfalso. apply Hk. apply JsMapFacts.get_in_keys. congruence. }
      unfold writes_under at 1. rewrite Hnone. now rewrite List.app_nil_r.
    + rewrite writes_under_set_other by exact Hne.
      f_equal. unfold writes_under. cbn [JsMap.get].
      destruct (String.eqb_spec key k); [contradiction | reflexivity].
Qed.

End ExampleBatches.

(** X15. The example's [putWrites] callback files a batch by key: after
    it, each key holds what it held before followed by the records of
    the batch that carry this key, in the order of the batch, whatever
    mix of keys the batch has; the checkpoints are not touched. *)
Theorem example_backend_putWrites_by_key :
  forall (records : list StoredWrite.t) (s : Example.Storage) (key : string),
    Example.writes_under key (Example.writes (snd (Example.putWrites records s)))
    = Example.writes_under key (Example.writes s)
      ++ filter (fun write => String.eqb (Example.write_key write) key) records
    /\ Example.checkpoints (snd (Example.putWrites records s))
       = Example.checkpoints s
    /\ fst (Example.putWrites records s) = Fulfilled tt.
Proof.
  intros records s key. split; [|split; reflexivity].
  unfold Example.putWrites. cbn [snd Example.writes].
  destruct (grouping_by_key records [] key (NoDup_nil _)) as [Hgroup Hnd].
  cbv zeta in Hgroup, Hnd.
  rewrite (saving_groups _ _ key Hnd).
  unfold Example.group_writes. rewrite Hgroup. reflexivity.
Qed.

(** ** What [deleteThread] of the example removes *)

Section ExampleDeleteFrame.
Import Example.
Context {V : Type}.

Lemma get_delete_same (k : string) (m : JsMap.t V) :
  JsMap.get k (JsMap.delete k m) = None.
Proof.
  induction m as [|[k' v] m IH]; [reflexivity|].
  unfold JsMap.delete in *. cbn [filter fst].
  destruct (String.eqb_spec k k') as [->|Hne]; cbn [negb].
  - exact IH.
  - cbn [JsMap.get]. destruct (String.eqb_spec k k'); [contradiction | exact IH].
Qed.

Lemma get_delete_other (k k' : string) (m : JsMap.t V) :
  k <> k' -> JsMap.get k (JsMap.delete k' m) = JsMap.get k m.
Proof.
  intros Hne. induction m as [|[k0 v] m IH]; [reflexivity|].
  unfold JsMap.delete in *. cbn [filter fst].
  destruct (String.eqb_spec k' k0) as [->|Hk]; cbn [negb JsMap.get].
  - destruct (String.eqb_spec k k0); [contradiction | exact IH].
  - destruct (String.eqb k k0); [reflexivity | exact IH].
Qed.

Lemma get_delete_all (k : string) (ks : list string) :
  forall (m : JsMap.t V),
    JsMap.get k (fold_left (fun m key => JsMap.delete key m) ks m)
    = if existsb (String.eqb k) ks then None else JsMap.get k m.
Proof.
  induction ks as [|k' ks IH]; intros m; [reflexivity|].
  cbn [fold_left existsb]. rewrite IH.
  destruct (existsb (String.eqb k) ks); [now rewrite Bool.orb_true_r|].
  rewrite Bool.orb_false_r.
  destruct (String.eqb_spec k k') as [->|Hne].
  - apply get_delete_same.
  - now apply get_delete_other.
Qed.

(** Deleting the keys of a map that have a given prefix. *)
Lemma get_delete_prefixed (k prefix : string) (m : JsMap.t V) :
  JsMap.get k
    (fold_left (fun m key => JsMap.delete key m)
       (filter (fun key => startsWith key prefix) (JsMap.keys m)) m)
  = if startsWith k prefix then None else JsMap.get k m.
Proof.
  rewrite get_delete_all.
  destruct (existsb (String.eqb k)
              (filter (fun key => startsWith key prefix) (JsMap.keys m))) eqn:E.
  - apply existsb_exists in E. destruct E as (k' & Hin & Hk).
    apply String.eqb_eq in Hk. subst k'. apply filter_In in Hin.
    destruct Hin as [_ ->]. reflexivity.
  - destruct (startsWith k prefix) eqn:Hpre; [|reflexivity].
    destruct (JsMap.get k m) as [v|] eqn:Hget; [|reflexivity].
    exfalso.
    assert (Hex : existsb (String.eqb k)
                    (filter (fun key => startsWith key prefix) (JsMap.keys m))
                  = true).
    { apply existsb_exists. exists k. split; [|apply String.eqb_refl].
      apply filter_In. split; [|exact Hpre].
      apply JsMapFacts.get_in_keys. congruence. }
    congruence.
Qed.

End ExampleDeleteFrame.

(** X16. The example's [deleteThread] callback removes from both maps
    exactly the entries whose key starts with the thread id followed by
    a colon, and leaves every other entry as it was. *)
Theorem example_backend_deleteThread_by_prefix :
  forall (threadId key : string) (s : Example.Storage),
    JsMap.get key (Example.checkpoints (snd (Example.deleteThread threadId s)))
    = (if Example.startsWith key (threadId ++ ":")%string then None
       else JsMap.get key (Example.checkpoints s))
    /\ JsMap.get key (Example.writes (snd (Example.deleteThread threadId s)))
       = (if Example.startsWith key (threadId ++ ":")%string then None
          else JsMap.get key (Example.writes s))
    /\ fst (Example.deleteThread threadId s) = Fulfilled tt.
Proof.
  intros threadId key s. unfold Example.deleteThread.
  cbn [fst snd Example.checkpoints Example.writes].
  split; [|split; [|reflexivity]]; apply get_delete_prefixed.
Qed.

(** ** Thread ids with a colon *)

Section ExampleColons.
Import Example.




Lemma deleteThread_get_longer (threadId rest namespace checkpointId : string)
    (s : Storage) :
  JsMap.get (makeCheckpointKey (threadId ++ ":" ++ rest) namespace checkpointId)
            (checkpoints (snd (deleteThread threadId s))) = None.
Proof.
  unfold deleteThread. cbn [snd checkpoints]. rewrite get_delete_prefixed.
  unfold makeCheckpointKey.
  replace ((threadId ++ ":" ++ rest) ++ ":" ++ namespace ++ ":" ++ checkpointId)%string
    with ((threadId ++ ":") ++ rest ++ ":" ++ namespace ++ ":" ++ checkpointId)%string
    by (now rewrite !StringFacts.append_assoc).
  now rewrite ExampleFacts.startsWith_append.
Qed.

Lemma deleteThread_matching_longer (threadId rest namespace : string)
    (s : Storage) :
  matching (threadId ++ ":" ++ rest) namespace (snd (deleteThread threadId s)) = [].
Proof.
  destruct (matching (threadId ++ ":" ++ rest) namespace
              (snd (deleteThread threadId s))) as [|key keys] eqn:E;
    [reflexivity|].
  assert (Hin : In key (matching (threadId ++ ":" ++ rest) namespace
                          (snd (deleteThread threadId s))))
    by (rewrite E; now left).
  apply ExampleFacts.matching_in in Hin. destruct Hin as [Hin Hstart].
  apply deleteThread_keys in Hin.
  replace ((threadId ++ ":" ++ rest) ++ ":" ++ namespace ++ ":")%string
    with ((threadId ++ ":") ++ rest ++ ":" ++ namespace ++ ":")%string in Hstart
    by (now rewrite !StringFacts.append_assoc).
  apply ExampleFacts.startsWith_shorter in Hstart. congruence.
Qed.

End ExampleColons.



(** X18. On the example saver, [deleteThread(t)] also empties every
    thread whose id starts with [t] and a colon: after it, a config that
    addresses a thread [t:x] finds nothing, with or without a checkpoint
    id and under any namespace. *)
Theorem example_deleteThread_reaches_longer_ids :
  forall (threadId rest : string) (config : RunnableConfig.t)
         (w : World Example.Storage),
    JS.truthy (RunnableConfig.thread_id config)
    = Some (threadId ++ ":" ++ rest)%string ->
    outcome (CallbackSaver.getTuple Example.exampleSaver config
               (world_after
                  (CallbackSaver.deleteThread Example.exampleSaver threadId w)))
    = Returned None
    /\ forall fuel options _before _limit,
         outcome (CallbackSaver.list Example.exampleSaver (S fuel) config options
                    _before _limit
                    (world_after
                       (CallbackSaver.deleteThread Example.exampleSaver threadId w)))
         = Returned tt
         /\ yields (trace (CallbackSaver.list Example.exampleSaver (S fuel) config
                             options _before _limit
                             (world_after
                                (CallbackSaver.deleteThread Example.exampleSaver
                                   threadId w))))
            = [].
Proof.
  intros threadId rest config w Ht.
  assert (Hdel :
            CallbackSaver.deleteThread Example.exampleSaver threadId w
            = (Returned tt,
               {| store := snd (Example.deleteThread threadId (store w));
                  clock := clock w; reads := reads w |},
               [DeleteThread threadId (Fulfilled tt)])) by reflexivity.
  rewrite Hdel. unfold world_after. cbn [fst snd].
  split.
  - unfold CallbackSaver.getTuple, try_catch. rewrite Ht.
    unfold bind, CallbackSaver.await_getCheckpoint, await.
    cbn [Config.getCheckpoint Example.exampleSaver CallbackSaver.new
           Example.config store].
    unfold Example.getCheckpoint.
    destruct (JS.truthy (RunnableConfig.checkpoint_id config)) as [checkpointId|].
    + rewrite deleteThread_get_longer. reflexivity.
    + rewrite deleteThread_matching_longer. reflexivity.
  - intros fuel options _before _limit.
    unfold CallbackSaver.list, try_catch. rewrite Ht.
    cbn [CallbackSaver.list_pages]. unfold bind at 1 3.
    unfold CallbackSaver.await_listCheckpoints.
    cbn [Config.listCheckpoints Example.exampleSaver CallbackSaver.new
           Example.config store].
    rewrite listCheckpoints_nothing by apply deleteThread_matching_longer.
    repeat split.
Qed.

Lemma example_deleteThread_reaches_longer_ids_witness :
  outcome (CallbackSaver.getTuple Example.exampleSaver
             (Mock.config_of (Some "a:b") (Some "checkpoint-1"))
             (world_after
                (CallbackSaver.deleteThread Example.exampleSaver "a"
                   (world_after
                      (CallbackSaver.put Example.exampleSaver
                         (Mock.config_of (Some "a:b") None)
                         (Mock.checkpoint_with_id "checkpoint-1") (VObj []) []
                         (Example.world_of Example.empty
                            (fun n => Z.of_nat n) 0))))))
  = Returned None.
Proof.
  apply (example_deleteThread_reaches_longer_ids "a" "b"
           (Mock.config_of (Some "a:b") (Some "checkpoint-1"))).
  reflexivity.
Defined.

(** ** The storage statistics *)

Section ExampleStats.
Import Example.

Lemma fold_sum (values : list (list StoredWrite.t)) (start : nat) :
  fold_left (fun sum writes => sum + length writes) values start
  = start + total_length values.
Proof.
  unfold total_length. revert start.
  induction values as [|ws values IH]; intros start; cbn [fold_left]; [lia|].
  rewrite (IH (start + length ws)), (IH (0 + length ws)). lia.
Qed.

Lemma total_cons (key : string) (ws : list StoredWrite.t)
    (m : JsMap.t (list StoredWrite.t)) :
  total_length (map snd ((key, ws) :: m))
  = length ws + total_length (map snd m).
Proof. unfold total_length at 1. cbn [map snd fold_left]. apply fold_sum. Qed.

Lemma total_set (key : string) (ws : list StoredWrite.t)
    (m : JsMap.t (list StoredWrite.t)) :
  total_length (map snd (JsMap.set key ws m)) + length (writes_under key m)
  = total_length (map snd m) + length ws.
Proof.
  induction m as [|[k0 v0] m IH].
  - cbn. lia.
  - cbn [JsMap.set]. unfold writes_under in *. cbn [JsMap.get].
    destruct (String.eqb key k0).
    + rewrite !total_cons. lia.
    + rewrite !total_cons. lia.
Qed.

Lemma total_set_append (key : string) (ws : list StoredWrite.t)
    (m : JsMap.t (list StoredWrite.t)) :
  total_length (map snd (JsMap.set key (writes_under key m ++ ws) m))
  = total_length (map snd m) + length ws.
Proof.
  pose proof (total_set key (writes_under key m ++ ws) m) as H.
  rewrite length_app in H. lia.
Qed.

Lemma total_grouping (records : list StoredWrite.t) :
  forall (acc : JsMap.t (list StoredWrite.t)),
    total_length
      (map snd
         (fold_left
            (fun writesByCheckpoint write =>
               let key := makeWriteKey (StoredWrite.threadId write)
                                       (StoredWrite.namespace write)
                                       (StoredWrite.checkpointId write) in
               JsMap.set key (writes_under key writesByCheckpoint ++ [write])
                         writesByCheckpoint)
            records acc))
    = total_length (map snd acc) + length records.
Proof.
  induction records as [|write records IH]; intros acc; cbn [fold_left length];
    [lia|].
  rewrite IH, total_set_append. cbn [length]. lia.
Qed.

Lemma total_saving (groups : JsMap.t (list StoredWrite.t)) :
  forall (m : JsMap.t (list StoredWrite.t)),
    total_length
      (map snd
         (fold_left
            (fun m group =>
               let (key, checkpointWrites) := group : string * list StoredWrite.t in
               let existing := writes_under key m in
               JsMap.set key (existing ++ checkpointWrites) m)
            groups m))
    = total_length (map snd m) + total_length (map snd groups).
Proof.
  induction groups as [|[k ws] groups IH]; intros m; cbn [fold_left].
  - cbn. lia.
  - rewrite IH, total_set_append, total_cons. lia.
Qed.

End ExampleStats.

(** X19. In the example, a [putWrites] callback on a batch makes
    [getStorageStats().totalWrites] grow by the size of the batch,
    whatever keys the records carry: no record is dropped or stored
    twice.  The number of checkpoints stays. *)
Theorem example_stats_after_putWrites :
  forall (records : list StoredWrite.t) (s : Example.Storage),
    Example.totalWrites
      (Example.getStorageStats (snd (Example.putWrites records s)))
    = Example.totalWrites (Example.getStorageStats s) + length records
    /\ Example.checkpointCount
         (Example.getStorageStats (snd (Example.putWrites records s)))
       = Example.checkpointCount (Example.getStorageStats s).
Proof.
  intros records s. split; [|reflexivity].
  unfold Example.getStorageStats, Example.putWrites.
  cbn [Example.totalWrites snd Example.writes].
  rewrite total_saving. unfold Example.group_writes.
  rewrite total_grouping. reflexivity.
Qed.
